(** * Migration replay and schema drift engine of pg-schema-sage

    A shallow embedding of [src/services/migration-parser.ts] and
    [src/services/schema-analyzer.ts], with the theorems that settle the
    properties stated about them.

    Conventions of the embedding.
    - A JavaScript string is a sequence of UTF-16 code units; the model keeps
      the code units below 256 and represents a string as a Rocq [string]
      whose characters are those code units.
    - An array is a [list]; a [Map] built from an array of pairs is an
      association list kept in insertion order.
    - A value of an optional field is a [jsopt]: absent ([undefined]), SQL
      NULL as delivered by the database driver ([null]) or present.
    - Numbers are integers ([Z]) or lengths ([nat]); the numeric fields of a
      column are integers or NaN ([jsnum]), the one number that [!==] tells
      apart from itself; timestamps are the millisecond counts returned by
      [getTime()] of valid dates. *)

From Stdlib Require Import Bool Arith Lia List ZArith.
From Stdlib Require Import Strings.Ascii Strings.String.
From Stdlib Require Import Numbers.DecimalString.
From Stdlib Require Import Sorting.Permutation Sorting.Sorted.
From Stdlib Require Structures.OrderedTypeEx.
Import ListNotations.
Open Scope string_scope.

(* ================================================================= *)
(** ** JavaScript strings *)

Module JsString.

Definition code (c : ascii) : nat := nat_of_ascii c.

Definition LF : ascii := ascii_of_nat 10.
Definition CR : ascii := ascii_of_nat 13.

(** WhiteSpace and LineTerminator code units below 256: TAB, LF, VT, FF,
    CR, SP and NBSP.  [String.prototype.trim] and the class [\s] use the
    same set. *)
Definition isWhiteSpace (c : ascii) : bool :=
  let n := code c in
  ((n =? 9) || (n =? 10) || (n =? 11) || (n =? 12) || (n =? 13)
   || (n =? 32) || (n =? 160))%nat.

Definition isDigit (c : ascii) : bool :=
  let n := code c in ((48 <=? n) && (n <=? 57))%nat.

Definition isLower (c : ascii) : bool :=
  let n := code c in ((97 <=? n) && (n <=? 122))%nat.

Definition isUpper (c : ascii) : bool :=
  let n := code c in ((65 <=? n) && (n <=? 90))%nat.

(** The class [\w]: [A-Za-z0-9_]. *)
Definition isWord (c : ascii) : bool :=
  isUpper c || isLower c || isDigit c || (code c =? 95)%nat.

(** The class [.]: everything but a line terminator. *)
Definition isDot (c : ascii) : bool :=
  negb ((code c =? 10) || (code c =? 13))%nat.

(** Lower-case Latin-1 letters with an upper-case form 32 below. *)
Definition isLatin1Lower (c : ascii) : bool :=
  let n := code c in ((224 <=? n) && (n <=? 254) && negb (n =? 247))%nat.

(** [String.prototype.toUpperCase], one code unit at a time.  The sharp s
    (223) expands to two letters.  The micro sign (181) and y-diaeresis
    (255) have upper-case forms above 255 and are kept as they are: no
    form involved is an ASCII character. *)
Definition upperUnit (c : ascii) : string :=
  if isLower c || isLatin1Lower c
  then String (ascii_of_nat (code c - 32)) ""
  else if (code c =? 223)%nat then "SS"
  else String c "".

Fixpoint toUpperCase (s : string) : string :=
  match s with
  | "" => ""
  | String c s' => upperUnit c ++ toUpperCase s'
  end.

(** [Canonicalize] of a regular expression with flag [i] and without flag
    [u]: the upper-case form when it is a single code unit. *)
Definition canonicalize (c : ascii) : ascii :=
  if isLower c || isLatin1Lower c then ascii_of_nat (code c - 32) else c.

Fixpoint trimStart (s : string) : string :=
  match s with
  | "" => ""
  | String c s' => if isWhiteSpace c then trimStart s' else s
  end.

Fixpoint trimEnd (s : string) : string :=
  match s with
  | "" => ""
  | String c s' =>
      match trimEnd s' with
      | "" => if isWhiteSpace c then "" else String c ""
      | r => String c r
      end
  end.

Definition trim (s : string) : string := trimEnd (trimStart s).

Fixpoint startsWith (s p : string) : bool :=
  match p, s with
  | "", _ => true
  | String a p', String b s' => Ascii.eqb a b && startsWith s' p'
  | String _ _, "" => false
  end.

Fixpoint includes (s p : string) : bool :=
  startsWith s p ||
  match s with
  | "" => false
  | String _ s' => includes s' p
  end.

Definition endsWith (s p : string) : bool :=
  (length p <=? length s)%nat &&
  String.eqb (substring (length s - length p) (length p) s) p.

(** [s.split(sep)] for a separator of one code unit: never empty. *)
Fixpoint split (sep : ascii) (s : string) : list string :=
  match s with
  | "" => [""]
  | String c s' =>
      if Ascii.eqb c sep then "" :: split sep s'
      else match split sep s' with
           | h :: t => String c h :: t
           | [] => [String c ""]
           end
  end.

(** [parts.join(sep)]. *)
Fixpoint join (sep : string) (parts : list string) : string :=
  match parts with
  | [] => ""
  | [p] => p
  | p :: rest => p ++ sep ++ join sep rest
  end.

(** Number of positions of [s] at which [p] occurs. *)
Fixpoint occurrences (p s : string) : nat :=
  (if startsWith s p then 1 else 0) +
  match s with
  | "" => 0
  | String _ s' => occurrences p s'
  end.

(** The longest prefix of [s] made of characters of the class [p]. *)
Fixpoint leadingRun (p : ascii -> bool) (s : string) : string :=
  match s with
  | "" => ""
  | String c s' => if p c then String c (leadingRun p s') else ""
  end.

(** What follows the leading run. *)
Fixpoint afterRun (p : ascii -> bool) (s : string) : string :=
  match s with
  | "" => ""
  | String c s' => if p c then afterRun p s' else s
  end.

(** Every character of [s] is in the class [p]. *)
Fixpoint allOf (p : ascii -> bool) (s : string) : bool :=
  match s with
  | "" => true
  | String c s' => p c && allOf p s'
  end.

(** [String(n)] for a length or a count. *)
Definition ofNat (n : nat) : string := NilZero.string_of_uint (Nat.to_uint n).

(** [n.toString()] for an integer. *)
Definition ofZ (z : Z) : string := NilZero.string_of_int (Z.to_int z).

(** String comparison of version strings.  [localeCompare] is only applied
    to versions, which are runs of decimal digits or empty; on those the
    collation order is the code unit order. *)
Definition localeCompare (a b : string) : comparison := String.compare a b.

(** Upper-case Latin-1 letters with a lower-case form 32 above. *)
Definition isLatin1Upper (c : ascii) : bool :=
  let n := code c in ((192 <=? n) && (n <=? 222) && negb (n =? 215))%nat.

(** [String.prototype.toLowerCase] on strings of code units below 256,
    where every lower-case form is a single code unit below 256.  Above 256
    a lower-case form can take more units than the letter (U+0130 gives
    two), so the length of the result is not a property of the code. *)
Definition lowerUnit (c : ascii) : ascii :=
  if isUpper c || isLatin1Upper c then ascii_of_nat (code c + 32) else c.

Fixpoint toLowerCase (s : string) : string :=
  match s with
  | "" => ""
  | String c s' => String (lowerUnit c) (toLowerCase s')
  end.

(** [n] copies of the code unit [pad]. *)
Fixpoint fill (n : nat) (pad : ascii) : string :=
  match n with
  | 0 => ""
  | S n' => String pad (fill n' pad)
  end.

(** [s.padStart(targetLength, pad)] for a pad of one code unit. *)
Definition padStart (targetLength : nat) (pad : ascii) (s : string) : string :=
  fill (targetLength - String.length s) pad ++ s.

End JsString.
Import JsString.

(* ================================================================= *)
(** ** Regular expressions *)

Module Regex.

(** The fragment of the regular expression syntax used by the sources. *)
Inductive regex : Type :=
| Eps
| Chr (a : ascii)                 (* a literal character *)
| Cls (p : ascii -> bool)         (* one character of a class *)
| Plus (p : ascii -> bool)        (* class+, greedy *)
| Seq (r1 r2 : regex)
| Opt (r : regex)                 (* (?: r )?, greedy *)
| Grp (n : nat) (r : regex)       (* capture group number n *)
| Bol                             (* ^ *)
| Eol.                            (* $ *)

Fixpoint lit (s : string) : regex :=
  match s with
  | "" => Eps
  | String a s' => Seq (Chr a) (lit s')
  end.

Definition seqs (rs : list regex) : regex := fold_right Seq Eps rs.

(** Captured groups, most recent first. *)
Definition caps := list (nat * string).

Fixpoint group (n : nat) (c : caps) : option string :=
  match c with
  | [] => None
  | (m, s) :: c' => if (m =? n)%nat then Some s else group n c'
  end.

Definition cont := nat -> string -> caps -> option caps.

Definition orElse (a : option caps) (b : unit -> option caps) : option caps :=
  match a with
  | Some x => Some x
  | None => b tt
  end.

(** Greedy class*: take one more character first, give it back when the
    rest fails. *)
Fixpoint star (p : ascii -> bool) (i : nat) (s : string) (c : caps) (k : cont)
  : option caps :=
  match s with
  | String b s' =>
      if p b then orElse (star p (S i) s' c k) (fun _ => k i s c)
      else k i s c
  | "" => k i s c
  end.

Section Matcher.
Variable ignoreCase : bool.

Definition sameChar (a b : ascii) : bool :=
  if ignoreCase then Ascii.eqb (canonicalize a) (canonicalize b)
  else Ascii.eqb a b.

(** Backtracking matcher in continuation-passing style: [i] is the
    index of the next character, [s] the input from that index. *)
Fixpoint run (r : regex) (i : nat) (s : string) (c : caps) (k : cont)
  : option caps :=
  match r with
  | Eps => k i s c
  | Chr a =>
      match s with
      | String b s' => if sameChar a b then k (S i) s' c else None
      | "" => None
      end
  | Cls p =>
      match s with
      | String b s' => if p b then k (S i) s' c else None
      | "" => None
      end
  | Plus p =>
      match s with
      | String b s' => if p b then star p (S i) s' c k else None
      | "" => None
      end
  | Seq r1 r2 => run r1 i s c (fun i' s' c' => run r2 i' s' c' k)
  | Opt r1 => orElse (run r1 i s c k) (fun _ => k i s c)
  | Grp n r1 =>
      run r1 i s c (fun i' s' c' => k i' s' ((n, substring 0 (i' - i) s) :: c'))
  | Bol => if (i =? 0)%nat then k i s c else None
  | Eol => match s with "" => k i s c | _ => None end
  end.

Definition accept : cont := fun _ _ c => Some c.

(** The first start index at which the expression matches. *)
Fixpoint search (r : regex) (i : nat) (s : string) : option caps :=
  orElse (run r i s [] accept)
    (fun _ => match s with
              | "" => None
              | String _ s' => search r (S i) s'
              end).
End Matcher.

(** [s.match(r)] for an expression without flag [g]: the captures of the
    leftmost match, or [None] for [null]. *)
Definition jsMatch (ignoreCase : bool) (r : regex) (s : string) : option caps :=
  search ignoreCase r 0 s.

(** [m[n] || d]: an unset or empty group gives the default. *)
Definition groupOr (n : nat) (c : caps) (d : string) : string :=
  match group n c with
  | Some "" | None => d
  | Some s => s
  end.

(** [m[n]] of a group that takes part in every match. *)
Definition groupOf (n : nat) (c : caps) : string :=
  match group n c with
  | Some s => s
  | None => ""
  end.

Definition ws1 : regex := Plus isWhiteSpace.   (* \s+ *)
Definition word1 : regex := Plus isWord.       (* \w+ *)
Definition qualifier (n : nat) : regex :=      (* (?:(\w+)\.)? *)
  Opt (Seq (Grp n word1) (Chr ".")).

End Regex.
Import Regex.


(* ================================================================= *)
(** ** Data model ([types/schema.ts], [types/migration.ts])

    Fields that the engine neither reads nor writes are left out of the
    records. *)

(** An optional field: absent, NULL from the database driver, or set. *)
Inductive jsopt (A : Type) : Type :=
| undefined
| null
| val (a : A).
Arguments undefined {A}.
Arguments null {A}.
Arguments val {A} a.

(** [a !== b] on optional values of a type with decidable equality. *)
Definition jsopt_neq {A : Type} (eqb : A -> A -> bool) (a b : jsopt A) : bool :=
  match a, b with
  | undefined, undefined => false
  | null, null => false
  | val x, val y => negb (eqb x y)
  | _, _ => true
  end.

(** [a || "null"] for an optional string. *)
Definition strOrNull (a : jsopt string) : string :=
  match a with
  | val "" | undefined | null => "null"
  | val s => s
  end.

(** A number held by a numeric field of a column: an integer, as the
    catalog gives lengths, precisions and scales, or NaN. *)
Inductive jsnum : Type :=
| num (z : Z)
| NaN.

(** [a === b] on numbers: NaN is not equal to itself. *)
Definition jsnum_eqb (a b : jsnum) : bool :=
  match a, b with
  | num x, num y => Z.eqb x y
  | _, _ => false
  end.

(** [a?.toString() || "null"] for an optional number. *)
Definition numOrNull (a : jsopt jsnum) : string :=
  match a with
  | val (num z) => ofZ z
  | val NaN => "NaN"
  | _ => "null"
  end.

Module Column.
Record t : Type := mk {
  name : string;
  dataType : string;
  isNullable : bool;
  defaultValue : jsopt string;
  isGenerated : bool;
  ordinalPosition : nat;
  characterMaximumLength : jsopt jsnum;
  numericPrecision : jsopt jsnum;
  numericScale : jsopt jsnum }.
End Column.

Inductive ConstraintType : Type :=
| PRIMARY_KEY | FOREIGN_KEY | UNIQUE | CHECK | NOT_NULL.

Module Constraint.
Record t : Type := mk {
  name : string;
  type : ConstraintType;
  columns : list string;
  isDeferrable : bool;
  isDeferred : bool }.
End Constraint.

Module Index.
Record t : Type := mk {
  name : string;
  tableName : string;
  schemaName : string;
  columns : list string;
  isUnique : bool;
  isPrimary : bool;
  method : string;
  isConcurrent : bool }.
End Index.

Module Table.
Record t : Type := mk {
  schema : string;
  name : string;
  columns : list Column.t;
  constraints : list Constraint.t;
  indexes : list Index.t }.
End Table.

Module View.
Record t : Type := mk {
  schema : string;
  name : string;
  definition : string;
  columns : list string;
  owner : string;
  dependencies : list string;
  isUpdatable : bool;
  hasInsteadOfTriggers : bool }.
End View.

Module Trigger.
Record t : Type := mk {
  schema : string;
  name : string;
  tableName : string;
  timing : string;
  events : list string;
  orientation : string;
  functionName : string;
  functionSchema : string;
  definition : string;
  isConstraint : bool;
  isEnabled : bool }.
End Trigger.

Module RLSPolicy.
Record t : Type := mk {
  schema : string;
  tableName : string;
  policyName : string;
  permissive : bool;
  roles : list string;
  command : string }.
End RLSPolicy.

(** [enums], [functions] and [extensions] are created empty by the replay
    and read by nobody; their elements are kept as names. *)
Module DatabaseSchema.
Record t : Type := mk {
  tables : list Table.t;
  views : list View.t;
  enums : list string;
  functions : list string;
  extensions : list string;
  indexes : list Index.t;
  triggers : list Trigger.t;
  rlsPolicies : list RLSPolicy.t }.

Definition setTables (s : t) (x : list Table.t) : t :=
  mk x (views s) (enums s) (functions s) (extensions s) (indexes s)
     (triggers s) (rlsPolicies s).
Definition setViews (s : t) (x : list View.t) : t :=
  mk (tables s) x (enums s) (functions s) (extensions s) (indexes s)
     (triggers s) (rlsPolicies s).
Definition setIndexes (s : t) (x : list Index.t) : t :=
  mk (tables s) (views s) (enums s) (functions s) (extensions s) x
     (triggers s) (rlsPolicies s).
Definition setTriggers (s : t) (x : list Trigger.t) : t :=
  mk (tables s) (views s) (enums s) (functions s) (extensions s) (indexes s)
     x (rlsPolicies s).
Definition setRlsPolicies (s : t) (x : list RLSPolicy.t) : t :=
  mk (tables s) (views s) (enums s) (functions s) (extensions s) (indexes s)
     (triggers s) x.
End DatabaseSchema.

Module Migration.
Record t : Type := mk {
  version : string;
  name : string;
  filename : string;
  upSql : string;
  downSql : string;
  appliedAt : jsopt Z }.
End Migration.

Module ColumnChange.
Record t : Type := mk {
  property : string;
  expected : string;
  actual : string }.
End ColumnChange.

Module ColumnDrift.
Record t : Type := mk {
  columnName : string;
  changes : list ColumnChange.t }.
End ColumnDrift.

Module TableDrift.
Record t : Type := mk {
  tableName : string;
  missingColumns : list string;
  extraColumns : list string;
  modifiedColumns : list ColumnDrift.t;
  missingConstraints : list string;
  extraConstraints : list string }.
End TableDrift.

Module ViewDrift.
Record t : Type := mk {
  viewName : string;
  definitionChanged : bool;
  oldDefinition : jsopt string;
  newDefinition : jsopt string }.
End ViewDrift.

Module SchemaDrift.
Record t : Type := mk {
  hasChanges : bool;
  missingTables : list string;
  extraTables : list string;
  modifiedTables : list TableDrift.t;
  missingIndexes : list string;
  extraIndexes : list string;
  missingViews : list string;
  extraViews : list string;
  modifiedViews : list ViewDrift.t;
  missingTriggers : list string;
  extraTriggers : list string;
  missingRLSPolicies : list string;
  extraRLSPolicies : list string;
  summary : string }.
End SchemaDrift.

(* ================================================================= *)
(** ** [Map] objects *)

Module JsMap.

(** A [Map] with string keys: the entries in insertion order. *)
Definition t (V : Type) : Type := list (string * V).

Fixpoint has {V : Type} (m : t V) (k : string) : bool :=
  match m with
  | [] => false
  | (k', _) :: m' => String.eqb k' k || has m' k
  end.

Fixpoint get {V : Type} (m : t V) (k : string) : option V :=
  match m with
  | [] => None
  | (k', v) :: m' => if String.eqb k' k then Some v else get m' k
  end.

(** [m.set(k, v)]: a key already present keeps its place and takes the new
    value; a new key goes last. *)
Fixpoint set {V : Type} (m : t V) (k : string) (v : V) : t V :=
  match m with
  | [] => [(k, v)]
  | (k', v') :: m' =>
      if String.eqb k' k then (k', v) :: m' else (k', v') :: set m' k v
  end.

(** [new Map(entries)]. *)
Definition ofEntries {V : Type} (entries : list (string * V)) : t V :=
  fold_left (fun m e => set m (fst e) (snd e)) entries [].

Definition keys {V : Type} (m : t V) : list string := map fst m.

End JsMap.

(* ================================================================= *)
(** ** [SchemaAnalyzer] ([services/schema-analyzer.ts]) *)

Module SchemaAnalyzer.

(** The keys of [a] that [b] does not have, in the order of [a]: the loop
    [for (const k of a.keys()) if (!b.has(k)) out.push(k)]. *)
Definition keysNotIn {V W : Type} (a : JsMap.t V) (b : JsMap.t W) : list string :=
  filter (fun k => negb (JsMap.has b k)) (JsMap.keys a).

Definition compareColumn (expected actual : Column.t) : ColumnDrift.t :=
  let changes :=
    ((if negb (String.eqb (Column.dataType expected) (Column.dataType actual))
     then [ColumnChange.mk "dataType" (Column.dataType expected)
             (Column.dataType actual)]
     else [])
    ++ (if negb (Bool.eqb (Column.isNullable expected) (Column.isNullable actual))
        then [ColumnChange.mk "isNullable"
                (if Column.isNullable expected then "true" else "false")
                (if Column.isNullable actual then "true" else "false")]
        else [])
    ++ (if jsopt_neq String.eqb (Column.defaultValue expected)
             (Column.defaultValue actual)
        then [ColumnChange.mk "defaultValue"
                (strOrNull (Column.defaultValue expected))
                (strOrNull (Column.defaultValue actual))]
        else [])
    ++ (if jsopt_neq jsnum_eqb (Column.characterMaximumLength expected)
             (Column.characterMaximumLength actual)
        then [ColumnChange.mk "characterMaximumLength"
                (numOrNull (Column.characterMaximumLength expected))
                (numOrNull (Column.characterMaximumLength actual))]
        else [])
    ++ (if jsopt_neq jsnum_eqb (Column.numericPrecision expected)
             (Column.numericPrecision actual)
        then [ColumnChange.mk "numericPrecision"
                (numOrNull (Column.numericPrecision expected))
                (numOrNull (Column.numericPrecision actual))]
        else [])
    ++ (if jsopt_neq jsnum_eqb (Column.numericScale expected)
             (Column.numericScale actual)
        then [ColumnChange.mk "numericScale"
                (numOrNull (Column.numericScale expected))
                (numOrNull (Column.numericScale actual))]
        else []))%list
  in ColumnDrift.mk (Column.name expected) changes.

Definition compareTable (expected actual : Table.t) : TableDrift.t :=
  let expectedColumnMap :=
    JsMap.ofEntries (map (fun c => (Column.name c, c)) (Table.columns expected)) in
  let actualColumnMap :=
    JsMap.ofEntries (map (fun c => (Column.name c, c)) (Table.columns actual)) in
  let missingColumns := keysNotIn expectedColumnMap actualColumnMap in
  let modifiedColumns :=
    flat_map
      (fun e =>
         match JsMap.get actualColumnMap (fst e) with
         | Some actualColumn =>
             let columnDrift := compareColumn (snd e) actualColumn in
             if (0 <? List.length (ColumnDrift.changes columnDrift))%nat
             then [columnDrift] else []
         | None => []
         end)
      expectedColumnMap in
  let extraColumns := keysNotIn actualColumnMap expectedColumnMap in
  let expectedConstraintMap :=
    JsMap.ofEntries
      (map (fun c => (Constraint.name c, c)) (Table.constraints expected)) in
  let actualConstraintMap :=
    JsMap.ofEntries
      (map (fun c => (Constraint.name c, c)) (Table.constraints actual)) in
  TableDrift.mk
    (Table.schema expected ++ "." ++ Table.name expected)
    missingColumns extraColumns modifiedColumns
    (keysNotIn expectedConstraintMap actualConstraintMap)
    (keysNotIn actualConstraintMap expectedConstraintMap).

Definition compareView (expected actual : View.t) : ViewDrift.t :=
  let definitionChanged :=
    negb (String.eqb (trim (View.definition expected))
            (trim (View.definition actual))) in
  ViewDrift.mk
    (View.schema expected ++ "." ++ View.name expected)
    definitionChanged
    (if definitionChanged then val (View.definition actual) else undefined)
    (if definitionChanged then val (View.definition expected) else undefined).

Definition nonEmpty {A : Type} (l : list A) : bool := (0 <? List.length l)%nat.

Definition hasTableChanges (tableDrift : TableDrift.t) : bool :=
  nonEmpty (TableDrift.missingColumns tableDrift)
  || nonEmpty (TableDrift.extraColumns tableDrift)
  || nonEmpty (TableDrift.modifiedColumns tableDrift)
  || nonEmpty (TableDrift.missingConstraints tableDrift)
  || nonEmpty (TableDrift.extraConstraints tableDrift).

Definition generateSummary (hasChanges : bool) (missingTables extraTables : list string)
    (modifiedTables : list TableDrift.t) : string :=
  if negb hasChanges
  then "No schema drift detected. Database schema matches migrations."
  else
    let parts :=
      ((if nonEmpty missingTables
        then [(ofNat (List.length missingTables)
               ++ " table(s) missing from database")%string]
        else [])
       ++ (if nonEmpty extraTables
           then [(ofNat (List.length extraTables)
                  ++ " extra table(s) in database")%string]
           else [])
       ++ (if nonEmpty modifiedTables
           then [(ofNat (List.length modifiedTables)
                  ++ " table(s) have structural changes")%string]
           else []))%list
    in "Schema drift detected: " ++ join ", " parts ++ ".".

Definition tableKey (t : Table.t) : string :=
  Table.schema t ++ "." ++ Table.name t.
Definition indexKey (i : Index.t) : string :=
  Index.schemaName i ++ "." ++ Index.tableName i ++ "." ++ Index.name i.
Definition viewKey (v : View.t) : string :=
  View.schema v ++ "." ++ View.name v.
Definition triggerKey (t : Trigger.t) : string :=
  Trigger.schema t ++ "." ++ Trigger.tableName t ++ "." ++ Trigger.name t.
Definition policyKey (p : RLSPolicy.t) : string :=
  RLSPolicy.schema p ++ "." ++ RLSPolicy.tableName p ++ "."
  ++ RLSPolicy.policyName p.

Definition compareSchemas (expected actual : DatabaseSchema.t) : SchemaDrift.t :=
  let expectedTableMap :=
    JsMap.ofEntries (map (fun t => (tableKey t, t)) (DatabaseSchema.tables expected)) in
  let actualTableMap :=
    JsMap.ofEntries (map (fun t => (tableKey t, t)) (DatabaseSchema.tables actual)) in
  let missingTables := keysNotIn expectedTableMap actualTableMap in
  let modifiedTables :=
    flat_map
      (fun e =>
         match JsMap.get actualTableMap (fst e) with
         | Some actualTable =>
             let tableDrift := compareTable (snd e) actualTable in
             if hasTableChanges tableDrift then [tableDrift] else []
         | None => []
         end)
      expectedTableMap in
  let extraTables := keysNotIn actualTableMap expectedTableMap in
  let expectedIndexMap :=
    JsMap.ofEntries (map (fun i => (indexKey i, i)) (DatabaseSchema.indexes expected)) in
  let actualIndexMap :=
    JsMap.ofEntries (map (fun i => (indexKey i, i)) (DatabaseSchema.indexes actual)) in
  let missingIndexes := keysNotIn expectedIndexMap actualIndexMap in
  let extraIndexes := keysNotIn actualIndexMap expectedIndexMap in
  let expectedViewMap :=
    JsMap.ofEntries (map (fun v => (viewKey v, v)) (DatabaseSchema.views expected)) in
  let actualViewMap :=
    JsMap.ofEntries (map (fun v => (viewKey v, v)) (DatabaseSchema.views actual)) in
  let missingViews := keysNotIn expectedViewMap actualViewMap in
  let modifiedViews :=
    flat_map
      (fun e =>
         match JsMap.get actualViewMap (fst e) with
         | Some actualView =>
             let viewDrift := compareView (snd e) actualView in
             if ViewDrift.definitionChanged viewDrift then [viewDrift] else []
         | None => []
         end)
      expectedViewMap in
  let extraViews := keysNotIn actualViewMap expectedViewMap in
  let expectedTriggerMap :=
    JsMap.ofEntries
      (map (fun t => (triggerKey t, t)) (DatabaseSchema.triggers expected)) in
  let actualTriggerMap :=
    JsMap.ofEntries
      (map (fun t => (triggerKey t, t)) (DatabaseSchema.triggers actual)) in
  let missingTriggers := keysNotIn expectedTriggerMap actualTriggerMap in
  let extraTriggers := keysNotIn actualTriggerMap expectedTriggerMap in
  let expectedRLSMap :=
    JsMap.ofEntries
      (map (fun p => (policyKey p, p)) (DatabaseSchema.rlsPolicies expected)) in
  let actualRLSMap :=
    JsMap.ofEntries
      (map (fun p => (policyKey p, p)) (DatabaseSchema.rlsPolicies actual)) in
  let missingRLSPolicies := keysNotIn expectedRLSMap actualRLSMap in
  let extraRLSPolicies := keysNotIn actualRLSMap expectedRLSMap in
  let hasChanges :=
    nonEmpty missingTables || nonEmpty extraTables || nonEmpty modifiedTables
    || nonEmpty missingIndexes || nonEmpty extraIndexes
    || nonEmpty missingViews || nonEmpty extraViews || nonEmpty modifiedViews
    || nonEmpty missingTriggers || nonEmpty extraTriggers
    || nonEmpty missingRLSPolicies || nonEmpty extraRLSPolicies in
  SchemaDrift.mk hasChanges missingTables extraTables modifiedTables
    missingIndexes extraIndexes missingViews extraViews modifiedViews
    missingTriggers extraTriggers missingRLSPolicies extraRLSPolicies
    (generateSummary hasChanges missingTables extraTables modifiedTables).

(** *** Replay of migrations *)

Inductive OperationType : Type :=
| CREATE_TABLE | DROP_TABLE | ADD_COLUMN | DROP_COLUMN
| CREATE_INDEX | DROP_INDEX | CREATE_VIEW | DROP_VIEW
| CREATE_TRIGGER | DROP_TRIGGER | CREATE_POLICY | DROP_POLICY.

Module Operation.
Record t : Type := mk { type : OperationType; sql : string }.
End Operation.

(** The statements of a migration: split at [;], trimmed, empty ones
    dropped. *)
Definition statements (sql : string) : list string :=
  filter (fun s => (0 <? String.length s)%nat) (map trim (split ";" sql)).

Definition classify (statement : string) : list Operation.t :=
  let upperStatement := toUpperCase statement in
  if startsWith upperStatement "CREATE TABLE"
  then [Operation.mk CREATE_TABLE statement]
  else if startsWith upperStatement "DROP TABLE"
  then [Operation.mk DROP_TABLE statement]
  else if startsWith upperStatement "ALTER TABLE"
          && includes upperStatement "ADD COLUMN"
  then [Operation.mk ADD_COLUMN statement]
  else if startsWith upperStatement "ALTER TABLE"
          && includes upperStatement "DROP COLUMN"
  then [Operation.mk DROP_COLUMN statement]
  else if startsWith upperStatement "CREATE INDEX"
          || startsWith upperStatement "CREATE UNIQUE INDEX"
  then [Operation.mk CREATE_INDEX statement]
  else if startsWith upperStatement "DROP INDEX"
  then [Operation.mk DROP_INDEX statement]
  else [].

Definition parseMigrationOperations (sql : string) : list Operation.t :=
  flat_map classify (statements sql).

(** The regular expressions of the [apply*] methods, all with flag [i]. *)

(* /CREATE TABLE\s+(?:IF NOT EXISTS\s+)?(?:(\w+)\.)?(\w+)/i *)
Definition reCreateTable : regex :=
  seqs [lit "CREATE TABLE"; ws1; Opt (Seq (lit "IF NOT EXISTS") ws1);
        qualifier 1; Grp 2 word1].

(* /DROP TABLE\s+(?:IF EXISTS\s+)?(?:(\w+)\.)?(\w+)/i *)
Definition reDropTable : regex :=
  seqs [lit "DROP TABLE"; ws1; Opt (Seq (lit "IF EXISTS") ws1);
        qualifier 1; Grp 2 word1].

(* /ALTER TABLE\s+(?:(\w+)\.)?(\w+)\s+ADD COLUMN\s+(\w+)/i *)
Definition reAddColumn : regex :=
  seqs [lit "ALTER TABLE"; ws1; qualifier 1; Grp 2 word1; ws1;
        lit "ADD COLUMN"; ws1; Grp 3 word1].

(* /ALTER TABLE\s+(?:(\w+)\.)?(\w+)\s+DROP COLUMN\s+(\w+)/i *)
Definition reDropColumn : regex :=
  seqs [lit "ALTER TABLE"; ws1; qualifier 1; Grp 2 word1; ws1;
        lit "DROP COLUMN"; ws1; Grp 3 word1].

(* /CREATE\s+(?:UNIQUE\s+)?INDEX\s+(?:CONCURRENTLY\s+)?(\w+)\s+ON\s+(?:(\w+)\.)?(\w+)/i *)
Definition reCreateIndex : regex :=
  seqs [lit "CREATE"; ws1; Opt (Seq (lit "UNIQUE") ws1); lit "INDEX"; ws1;
        Opt (Seq (lit "CONCURRENTLY") ws1); Grp 1 word1; ws1; lit "ON"; ws1;
        qualifier 2; Grp 3 word1].

(* /DROP INDEX\s+(?:CONCURRENTLY\s+)?(?:IF EXISTS\s+)?(\w+)/i *)
Definition reDropIndex : regex :=
  seqs [lit "DROP INDEX"; ws1; Opt (Seq (lit "CONCURRENTLY") ws1);
        Opt (Seq (lit "IF EXISTS") ws1); Grp 1 word1].

(* /CREATE\s+(?:OR\s+REPLACE\s+)?VIEW\s+(?:(\w+)\.)?(\w+)\s+AS/i *)
Definition reCreateView : regex :=
  seqs [lit "CREATE"; ws1; Opt (seqs [lit "OR"; ws1; lit "REPLACE"; ws1]);
        lit "VIEW"; ws1; qualifier 1; Grp 2 word1; ws1; lit "AS"].

(* /DROP VIEW\s+(?:IF EXISTS\s+)?(?:(\w+)\.)?(\w+)/i *)
Definition reDropView : regex :=
  seqs [lit "DROP VIEW"; ws1; Opt (Seq (lit "IF EXISTS") ws1);
        qualifier 1; Grp 2 word1].

(* /CREATE TRIGGER\s+(\w+)/i *)
Definition reCreateTrigger : regex :=
  seqs [lit "CREATE TRIGGER"; ws1; Grp 1 word1].

(* /DROP TRIGGER\s+(\w+)/i *)
Definition reDropTrigger : regex :=
  seqs [lit "DROP TRIGGER"; ws1; Grp 1 word1].

(* /CREATE POLICY\s+(\w+)\s+ON\s+(?:(\w+)\.)?(\w+)/i *)
Definition reCreatePolicy : regex :=
  seqs [lit "CREATE POLICY"; ws1; Grp 1 word1; ws1; lit "ON"; ws1;
        qualifier 2; Grp 3 word1].

(* /DROP POLICY\s+(\w+)\s+ON\s+(?:(\w+)\.)?(\w+)/i *)
Definition reDropPolicy : regex :=
  seqs [lit "DROP POLICY"; ws1; Grp 1 word1; ws1; lit "ON"; ws1;
        qualifier 2; Grp 3 word1].

(** [t.schema === schemaName && t.name === tableName]. *)
Definition isTable (schemaName tableName : string) (t : Table.t) : bool :=
  String.eqb (Table.schema t) schemaName && String.eqb (Table.name t) tableName.

(** The tables after [f] has changed, in place, the object returned by
    [tables.find(isTable schemaName tableName)]: the first such table. *)
Fixpoint updateFound (schemaName tableName : string) (f : Table.t -> Table.t)
    (tables : list Table.t) : list Table.t :=
  match tables with
  | [] => []
  | t :: rest =>
      if isTable schemaName tableName t then f t :: rest
      else t :: updateFound schemaName tableName f rest
  end.

Definition applyCreateTable (schema : DatabaseSchema.t) (sql : string)
  : DatabaseSchema.t :=
  match jsMatch true reCreateTable sql with
  | Some m =>
      let schemaName := groupOr 1 m "public" in
      let tableName := groupOf 2 m in
      let table := Table.mk schemaName tableName [] [] [] in
      DatabaseSchema.setTables schema (DatabaseSchema.tables schema ++ [table])%list
  | None => schema
  end.

Definition applyDropTable (schema : DatabaseSchema.t) (sql : string)
  : DatabaseSchema.t :=
  match jsMatch true reDropTable sql with
  | Some m =>
      let schemaName := groupOr 1 m "public" in
      let tableName := groupOf 2 m in
      DatabaseSchema.setTables schema
        (filter (fun t => negb (isTable schemaName tableName t))
           (DatabaseSchema.tables schema))
  | None => schema
  end.

Definition applyAddColumn (schema : DatabaseSchema.t) (sql : string)
  : DatabaseSchema.t :=
  match jsMatch true reAddColumn sql with
  | Some m =>
      let schemaName := groupOr 1 m "public" in
      let tableName := groupOf 2 m in
      let columnName := groupOf 3 m in
      match find (isTable schemaName tableName) (DatabaseSchema.tables schema) with
      | Some _ =>
          DatabaseSchema.setTables schema
            (updateFound schemaName tableName
               (fun table =>
                  let column :=
                    Column.mk columnName "text" true undefined false
                      (List.length (Table.columns table) + 1)
                      undefined undefined undefined in
                  Table.mk (Table.schema table) (Table.name table)
                    (Table.columns table ++ [column])%list
                    (Table.constraints table) (Table.indexes table))
               (DatabaseSchema.tables schema))
      | None => schema
      end
  | None => schema
  end.

Definition applyDropColumn (schema : DatabaseSchema.t) (sql : string)
  : DatabaseSchema.t :=
  match jsMatch true reDropColumn sql with
  | Some m =>
      let schemaName := groupOr 1 m "public" in
      let tableName := groupOf 2 m in
      let columnName := groupOf 3 m in
      match find (isTable schemaName tableName) (DatabaseSchema.tables schema) with
      | Some _ =>
          DatabaseSchema.setTables schema
            (updateFound schemaName tableName
               (fun table =>
                  Table.mk (Table.schema table) (Table.name table)
                    (filter (fun c => negb (String.eqb (Column.name c) columnName))
                       (Table.columns table))
                    (Table.constraints table) (Table.indexes table))
               (DatabaseSchema.tables schema))
      | None => schema
      end
  | None => schema
  end.

Definition applyCreateIndex (schema : DatabaseSchema.t) (sql : string)
  : DatabaseSchema.t :=
  match jsMatch true reCreateIndex sql with
  | Some m =>
      let indexName := groupOf 1 m in
      let schemaName := groupOr 2 m "public" in
      let tableName := groupOf 3 m in
      let index :=
        Index.mk indexName tableName schemaName []
          (includes (toUpperCase sql) "UNIQUE") false "btree"
          (includes (toUpperCase sql) "CONCURRENTLY") in
      DatabaseSchema.setIndexes schema (DatabaseSchema.indexes schema ++ [index])%list
  | None => schema
  end.

Definition applyDropIndex (schema : DatabaseSchema.t) (sql : string)
  : DatabaseSchema.t :=
  match jsMatch true reDropIndex sql with
  | Some m =>
      let indexName := groupOf 1 m in
      DatabaseSchema.setIndexes schema
        (filter (fun i => negb (String.eqb (Index.name i) indexName))
           (DatabaseSchema.indexes schema))
  | None => schema
  end.

Definition isView (schemaName viewName : string) (v : View.t) : bool :=
  String.eqb (View.schema v) schemaName && String.eqb (View.name v) viewName.

Definition applyCreateView (schema : DatabaseSchema.t) (sql : string)
  : DatabaseSchema.t :=
  match jsMatch true reCreateView sql with
  | Some m =>
      let schemaName := groupOr 1 m "public" in
      let viewName := groupOf 2 m in
      let views :=
        filter (fun v => negb (isView schemaName viewName v))
          (DatabaseSchema.views schema) in
      let view := View.mk schemaName viewName sql [] "" [] false false in
      DatabaseSchema.setViews schema (views ++ [view])%list
  | None => schema
  end.

Definition applyDropView (schema : DatabaseSchema.t) (sql : string)
  : DatabaseSchema.t :=
  match jsMatch true reDropView sql with
  | Some m =>
      let schemaName := groupOr 1 m "public" in
      let viewName := groupOf 2 m in
      DatabaseSchema.setViews schema
        (filter (fun v => negb (isView schemaName viewName v))
           (DatabaseSchema.views schema))
  | None => schema
  end.

Definition applyCreateTrigger (schema : DatabaseSchema.t) (sql : string)
  : DatabaseSchema.t :=
  match jsMatch true reCreateTrigger sql with
  | Some m =>
      let triggerName := groupOf 1 m in
      let trigger :=
        Trigger.mk "public" triggerName "" "BEFORE" [] "ROW" "" "" sql false true in
      DatabaseSchema.setTriggers schema
        (DatabaseSchema.triggers schema ++ [trigger])%list
  | None => schema
  end.

Definition applyDropTrigger (schema : DatabaseSchema.t) (sql : string)
  : DatabaseSchema.t :=
  match jsMatch true reDropTrigger sql with
  | Some m =>
      let triggerName := groupOf 1 m in
      DatabaseSchema.setTriggers schema
        (filter (fun t => negb (String.eqb (Trigger.name t) triggerName))
           (DatabaseSchema.triggers schema))
  | None => schema
  end.

Definition applyCreatePolicy (schema : DatabaseSchema.t) (sql : string)
  : DatabaseSchema.t :=
  match jsMatch true reCreatePolicy sql with
  | Some m =>
      let policyName := groupOf 1 m in
      let schemaName := groupOr 2 m "public" in
      let tableName := groupOf 3 m in
      let policy := RLSPolicy.mk schemaName tableName policyName true [] "ALL" in
      DatabaseSchema.setRlsPolicies schema
        (DatabaseSchema.rlsPolicies schema ++ [policy])%list
  | None => schema
  end.

Definition applyDropPolicy (schema : DatabaseSchema.t) (sql : string)
  : DatabaseSchema.t :=
  match jsMatch true reDropPolicy sql with
  | Some m =>
      let policyName := groupOf 1 m in
      let schemaName := groupOr 2 m "public" in
      let tableName := groupOf 3 m in
      DatabaseSchema.setRlsPolicies schema
        (filter
           (fun p =>
              negb (String.eqb (RLSPolicy.schema p) schemaName
                    && String.eqb (RLSPolicy.tableName p) tableName
                    && String.eqb (RLSPolicy.policyName p) policyName))
           (DatabaseSchema.rlsPolicies schema))
  | None => schema
  end.

Definition applyOperation (schema : DatabaseSchema.t) (operation : Operation.t)
  : DatabaseSchema.t :=
  match Operation.type operation with
  | CREATE_TABLE => applyCreateTable schema (Operation.sql operation)
  | DROP_TABLE => applyDropTable schema (Operation.sql operation)
  | ADD_COLUMN => applyAddColumn schema (Operation.sql operation)
  | DROP_COLUMN => applyDropColumn schema (Operation.sql operation)
  | CREATE_INDEX => applyCreateIndex schema (Operation.sql operation)
  | DROP_INDEX => applyDropIndex schema (Operation.sql operation)
  | CREATE_VIEW => applyCreateView schema (Operation.sql operation)
  | DROP_VIEW => applyDropView schema (Operation.sql operation)
  | CREATE_TRIGGER => applyCreateTrigger schema (Operation.sql operation)
  | DROP_TRIGGER => applyDropTrigger schema (Operation.sql operation)
  | CREATE_POLICY => applyCreatePolicy schema (Operation.sql operation)
  | DROP_POLICY => applyDropPolicy schema (Operation.sql operation)
  end.

Definition applyMigrationToSchema (schema : DatabaseSchema.t)
    (migration : Migration.t) : DatabaseSchema.t :=
  fold_left applyOperation
    (parseMigrationOperations (Migration.upSql migration)) schema.

Definition emptySchema : DatabaseSchema.t :=
  DatabaseSchema.mk [] [] [] [] [] [] [] [].

Definition buildExpectedSchemaFromMigrations (migrations : list Migration.t)
  : DatabaseSchema.t :=
  fold_left applyMigrationToSchema migrations emptySchema.

Definition compareSchemasWithMigrations (currentSchema : DatabaseSchema.t)
    (migrations : list Migration.t) : SchemaDrift.t :=
  compareSchemas (buildExpectedSchemaFromMigrations migrations) currentSchema.

End SchemaAnalyzer.

(* ================================================================= *)
(** ** Sorting, the file system and plain objects *)

(** [Array.prototype.sort] with a comparator: the sort is stable.  [le a b]
    stands for [compare(a, b) <= 0]. *)
Module JsSort.
Section Sort.
Context {A : Type} (le : A -> A -> bool).

Fixpoint insert (x : A) (l : list A) : list A :=
  match l with
  | [] => [x]
  | y :: l' => if le x y then x :: l else y :: insert x l'
  end.

Fixpoint sort (l : list A) : list A :=
  match l with
  | [] => []
  | x :: l' => insert x (sort l')
  end.
End Sort.
End JsSort.

Module Fs.

(** A rejected promise of [fs]: the error object with its [code]. *)
Record error : Type := mkError { code : string }.

Inductive result (A : Type) : Type :=
| Ok (a : A)
| Throw (e : error).
Arguments Ok {A} a.
Arguments Throw {A} e.

Definition bind {A B : Type} (r : result A) (f : A -> result B) : result B :=
  match r with
  | Ok a => f a
  | Throw e => Throw e
  end.

(** A loop that awaits [f] on each element in turn and stops at the first
    rejection. *)
Fixpoint forEach {A B : Type} (f : A -> result B) (l : list A) : result (list B) :=
  match l with
  | [] => Ok []
  | x :: l' =>
      bind (f x) (fun y => bind (forEach f l') (fun ys => Ok (y :: ys)))
  end.

(** The two calls made on the file system. *)
Record t : Type := mk {
  readdir : string -> result (list string);
  readFile : string -> result string }.

(** [path.join(dir, name)] for a directory and an entry of its listing. *)
Definition join (dir name : string) : string := dir ++ "/" ++ name.

End Fs.

(** The fields of a [Date] in local time, as its getters return them. *)
Module JsDate.
Record t : Type := mk {
  getFullYear : Z;
  getMonth : nat;
  getDate : nat;
  getHours : nat;
  getMinutes : nat;
  getSeconds : nat }.
End JsDate.

(** A plain object used as a counter table: own properties with string
    names.  Names are looked up among the own properties only; the names used
    by the parser are runs of digits, which no prototype defines. *)
Module JsObject.

Definition t : Type := list (string * nat).

Fixpoint get (o : t) (k : string) : option nat :=
  match o with
  | [] => None
  | (k', v) :: o' => if String.eqb k' k then Some v else get o' k
  end.

Fixpoint set (o : t) (k : string) (v : nat) : t :=
  match o with
  | [] => [(k, v)]
  | (k', v') :: o' =>
      if String.eqb k' k then (k', v) :: o' else (k', v') :: set o' k v
  end.

Fixpoint digitsValue (acc : N) (s : string) : option N :=
  match s with
  | "" => Some acc
  | String c s' =>
      if isDigit c
      then digitsValue (acc * 10 + N.of_nat (code c - 48)) s'
      else None
  end.

(** The value of a property name that is an array index: a canonical
    decimal numeral below 2^32 - 1. *)
Definition arrayIndex (k : string) : option N :=
  match k with
  | "" => None
  | String c rest =>
      if Ascii.eqb c "0" && negb (String.eqb rest "") then None
      else match digitsValue 0 k with
           | Some n => if (n <? 4294967295)%N then Some n else None
           | None => None
           end
  end.

Definition isArrayIndex (k : string) : bool :=
  match arrayIndex k with Some _ => true | None => false end.

Definition indexValue (k : string) : N :=
  match arrayIndex k with Some n => n | None => 0%N end.

(** [Object.keys(o)]: array indices in ascending numeric order, then the
    other names in insertion order. *)
Definition keys (o : t) : list string :=
  let names := map fst o in
  (JsSort.sort (fun a b => (indexValue a <=? indexValue b)%N)
     (filter isArrayIndex names)
   ++ filter (fun k => negb (isArrayIndex k)) names)%list.

End JsObject.

(* ================================================================= *)
(** ** [MigrationParser] ([services/migration-parser.ts]) *)

Module ParsedMigration.
Record t : Type := mk {
  version : string;
  name : string;
  upSql : string;
  downSql : string;
  hasValidStructure : bool;
  errors : list string }.
End ParsedMigration.

Module MigrationFile.
Record t : Type := mk {
  filename : string;
  content : string;
  parsed : ParsedMigration.t }.
End MigrationFile.

Inductive MigrationErrorType : Type :=
| PARSE_ERROR | DUPLICATE_VERSION | MISSING_DOWN | INVALID_VERSION.

Module MigrationError.
Record t : Type := mk {
  filename : string;
  type : MigrationErrorType;
  message : string }.
End MigrationError.

Module MigrationAnalysis.
Record t : Type := mk {
  totalFiles : nat;
  validMigrations : nat;
  invalidMigrations : nat;
  missingDownMigrations : nat;
  duplicateVersions : list string;
  migrationChain : list Migration.t;
  errors : list MigrationError.t }.
End MigrationAnalysis.

Module AppliedMigration.
Record t : Type := mk {
  version : string;
  appliedAt : Z }.
End AppliedMigration.

(** Arrays of applied migrations live in a store and are passed by
    reference. *)
Module Heap.
Definition loc : Type := nat.
Definition t : Type := loc -> list AppliedMigration.t.
Definition read (h : t) (l : loc) : list AppliedMigration.t := h l.
Definition write (h : t) (l : loc) (v : list AppliedMigration.t) : t :=
  fun l' => if Nat.eqb l' l then v else h l'.
End Heap.

Module MigrationHistory.
Record t : Type := mk {
  appliedMigrations : Heap.loc;
  pendingMigrations : list Migration.t;
  totalMigrations : nat;
  lastAppliedVersion : jsopt string;
  migrationChain : list Migration.t }.
End MigrationHistory.

Module MigrationParser.

(* /^(\d+)/ *)
Definition reVersion : regex := seqs [Bol; Grp 1 (Plus isDigit)].

(* /^\d+_(.+)\.sql$/ *)
Definition reName : regex :=
  seqs [Bol; Plus isDigit; Chr "_"; Grp 1 (Plus isDot); Chr "."; lit "sql"; Eol].

Definition extractVersion (filename : string) : option string :=
  match jsMatch false reVersion filename with
  | Some m => Some (groupOf 1 m)
  | None => None
  end.

(** [s.replace(/_/g, ' ')]. *)
Fixpoint underscoresToSpaces (s : string) : string :=
  match s with
  | "" => ""
  | String c s' =>
      String (if Ascii.eqb c "_" then " "%char else c) (underscoresToSpaces s')
  end.

Definition extractName (filename : string) : option string :=
  match jsMatch false reName filename with
  | Some m => Some (underscoresToSpaces (groupOf 1 m))
  | None => None
  end.

Inductive section : Type := up | down | none.

Definition markerUp : string := "-- migrate:up".
Definition markerDown : string := "-- migrate:down".

Definition newline : string := String LF "".

(** One turn of the loop over the lines: the state is [upSql], [downSql]
    and [currentSection]. *)
Definition sectionStep (st : string * string * section) (line : string)
  : string * string * section :=
  let '(upSql, downSql, currentSection) := st in
  let trimmed := trim line in
  if startsWith trimmed markerUp then (upSql, downSql, up)
  else if startsWith trimmed markerDown then (upSql, downSql, down)
  else match currentSection with
       | up => (upSql ++ line ++ newline, downSql, currentSection)
       | down => (upSql, downSql ++ line ++ newline, currentSection)
       | none => st
       end.

(** Returns the pair [(upSql, downSql)]. *)
Definition parseMigrationSections (content : string) : string * string :=
  let lines := split LF content in
  let '(upSql, downSql, _) := fold_left sectionStep lines ("", "", none) in
  (trim upSql, trim downSql).

Definition parseMigrationContent (filename content : string) : ParsedMigration.t :=
  let version := extractVersion filename in
  let name := extractName filename in
  let errors1 :=
    match version with
    | Some (String _ _) => []
    | _ => ["Invalid filename format: unable to extract version"]
    end in
  let '(upSql, downSql) := parseMigrationSections content in
  let errors2 :=
    if String.eqb (trim upSql) ""
    then ["Missing or empty migrate:up section"] else [] in
  let errors3 :=
    if String.eqb (trim downSql) ""
    then ["Missing or empty migrate:down section"] else [] in
  let errors := (errors1 ++ errors2 ++ errors3)%list in
  ParsedMigration.mk
    (match version with Some v => v | None => "" end)
    (match name with Some n => n | None => "" end)
    upSql downSql
    (Nat.eqb (List.length errors) 0)
    errors.

(** [a.parsed.version.localeCompare(b.parsed.version) <= 0]. *)
Definition versionLe (a b : MigrationFile.t) : bool :=
  match localeCompare (ParsedMigration.version (MigrationFile.parsed a))
          (ParsedMigration.version (MigrationFile.parsed b)) with
  | Gt => false
  | _ => true
  end.

Section WithDirectory.
Variable fs : Fs.t.
Variable migrationsDir : string.

Definition parseMigrationFiles : Fs.result (list MigrationFile.t) :=
  let attempt :=
    Fs.bind (Fs.readdir fs migrationsDir) (fun files =>
    let migrationFiles := filter (fun file => endsWith file ".sql") files in
    Fs.bind
      (Fs.forEach
         (fun filename =>
            let filePath := Fs.join migrationsDir filename in
            Fs.bind (Fs.readFile fs filePath) (fun content =>
            let parsed := parseMigrationContent filename content in
            Fs.Ok (MigrationFile.mk filename content parsed)))
         migrationFiles)
      (fun parsedFiles => Fs.Ok (JsSort.sort versionLe parsedFiles))) in
  match attempt with
  | Fs.Ok r => Fs.Ok r
  | Fs.Throw error =>
      if String.eqb (Fs.code error) "ENOENT" then Fs.Ok [] else Fs.Throw error
  end.

Definition toMigration (file : MigrationFile.t) : Migration.t :=
  let parsed := MigrationFile.parsed file in
  Migration.mk (ParsedMigration.version parsed) (ParsedMigration.name parsed)
    (MigrationFile.filename file) (ParsedMigration.upSql parsed)
    (ParsedMigration.downSql parsed) undefined.

(** The state of the loop of [analyzeMigrations]: the analysis so far and
    [versionCounts]. *)
Definition analyzeStep (st : MigrationAnalysis.t * JsObject.t)
    (file : MigrationFile.t) : MigrationAnalysis.t * JsObject.t :=
  let '(analysis, versionCounts) := st in
  let parsed := MigrationFile.parsed file in
  let valid := ParsedMigration.hasValidStructure parsed in
  let versionCounts' :=
    if negb (String.eqb (ParsedMigration.version parsed) "")
    then JsObject.set versionCounts (ParsedMigration.version parsed)
           (match JsObject.get versionCounts (ParsedMigration.version parsed) with
            | Some n => n
            | None => 0
            end + 1)
    else versionCounts in
  (MigrationAnalysis.mk
     (MigrationAnalysis.totalFiles analysis)
     (if valid then MigrationAnalysis.validMigrations analysis + 1
      else MigrationAnalysis.validMigrations analysis)
     (if valid then MigrationAnalysis.invalidMigrations analysis
      else MigrationAnalysis.invalidMigrations analysis + 1)
     (if String.eqb (trim (ParsedMigration.downSql parsed)) ""
      then MigrationAnalysis.missingDownMigrations analysis + 1
      else MigrationAnalysis.missingDownMigrations analysis)
     (MigrationAnalysis.duplicateVersions analysis)
     (if valid
      then (MigrationAnalysis.migrationChain analysis ++ [toMigration file])%list
      else MigrationAnalysis.migrationChain analysis)
     (if valid then MigrationAnalysis.errors analysis
      else (MigrationAnalysis.errors analysis
            ++ map (fun error =>
                      MigrationError.mk (MigrationFile.filename file)
                        PARSE_ERROR error)
                (ParsedMigration.errors parsed))%list),
   versionCounts').

Definition duplicateError (version : string) : MigrationError.t :=
  MigrationError.mk "" DUPLICATE_VERSION
    ("Version " ++ version ++ " appears in multiple migration files").

Definition analyzeFiles (files : list MigrationFile.t) : MigrationAnalysis.t :=
  let analysis0 := MigrationAnalysis.mk (List.length files) 0 0 0 [] [] [] in
  let '(analysis, versionCounts) := fold_left analyzeStep files (analysis0, []) in
  let duplicateVersions :=
    filter
      (fun version =>
         match JsObject.get versionCounts version with
         | Some n => (1 <? n)%nat
         | None => false
         end)
      (JsObject.keys versionCounts) in
  MigrationAnalysis.mk
    (MigrationAnalysis.totalFiles analysis)
    (MigrationAnalysis.validMigrations analysis)
    (MigrationAnalysis.invalidMigrations analysis)
    (MigrationAnalysis.missingDownMigrations analysis)
    duplicateVersions
    (MigrationAnalysis.migrationChain analysis)
    (MigrationAnalysis.errors analysis ++ map duplicateError duplicateVersions)%list.

Definition analyzeMigrations : Fs.result MigrationAnalysis.t :=
  Fs.bind parseMigrationFiles (fun files => Fs.Ok (analyzeFiles files)).

(** [b.appliedAt.getTime() - a.appliedAt.getTime() <= 0]. *)
Definition appliedLe (a b : AppliedMigration.t) : bool :=
  (AppliedMigration.appliedAt b - AppliedMigration.appliedAt a <=? 0)%Z.

Definition hasVersion (version : string) (m : AppliedMigration.t) : bool :=
  String.eqb (AppliedMigration.version m) version.

(** The argument [appliedMigrations] is a reference into the store; the
    result is the outcome of the call with the store it leaves behind. *)
Definition getMigrationHistory (appliedMigrations : Heap.loc) (h : Heap.t)
  : Fs.result MigrationHistory.t * Heap.t :=
  match parseMigrationFiles with
  | Fs.Throw e => (Fs.Throw e, h)
  | Fs.Ok files =>
      let applied0 := Heap.read h appliedMigrations in
      let appliedVersions := map AppliedMigration.version applied0 in
      let pendingMigrations :=
        flat_map
          (fun file =>
             if ParsedMigration.hasValidStructure (MigrationFile.parsed file)
             then
               if negb (existsb
                          (String.eqb
                             (ParsedMigration.version (MigrationFile.parsed file)))
                          appliedVersions)
               then [toMigration file] else []
             else [])
          files in
      let '(lastAppliedVersion, h1) :=
        if (0 <? List.length applied0)%nat
        then
          let sortedApplied := JsSort.sort appliedLe applied0 in
          (match sortedApplied with
           | first :: _ => val (AppliedMigration.version first)
           | [] => undefined
           end,
           Heap.write h appliedMigrations sortedApplied)
        else (undefined, h) in
      let applied1 := Heap.read h1 appliedMigrations in
      let migrationChain :=
        flat_map
          (fun file =>
             if ParsedMigration.hasValidStructure (MigrationFile.parsed file)
             then
               let migration := toMigration file in
               match find (hasVersion
                             (ParsedMigration.version (MigrationFile.parsed file)))
                       applied1 with
               | Some applied =>
                   [Migration.mk (Migration.version migration)
                      (Migration.name migration) (Migration.filename migration)
                      (Migration.upSql migration) (Migration.downSql migration)
                      (val (AppliedMigration.appliedAt applied))]
               | None => [migration]
               end
             else [])
          files in
      (Fs.Ok (MigrationHistory.mk appliedMigrations pendingMigrations
                (List.length files) lastAppliedVersion migrationChain),
       h1)
  end.

End WithDirectory.

Definition formatMigrationContent (upSql downSql : string) : string :=
  markerUp ++ newline ++ upSql ++ newline ++ newline
  ++ markerDown ++ newline ++ downSql ++ newline.

(** [now] is the value of [new Date()]. *)
Definition generateMigrationTimestamp (now : JsDate.t) : string :=
  let year := JsDate.getFullYear now in
  let month := padStart 2 "0" (ofNat (JsDate.getMonth now + 1)) in
  let day := padStart 2 "0" (ofNat (JsDate.getDate now)) in
  let hours := padStart 2 "0" (ofNat (JsDate.getHours now)) in
  let minutes := padStart 2 "0" (ofNat (JsDate.getMinutes now)) in
  let seconds := padStart 2 "0" (ofNat (JsDate.getSeconds now)) in
  ofZ year ++ month ++ day ++ hours ++ minutes ++ seconds.

(** [s.replace(/[^a-z0-9]/g, '_')]. *)
Fixpoint replaceUnsafe (s : string) : string :=
  match s with
  | "" => ""
  | String c s' =>
      String (if isLower c || isDigit c then c else "_"%char) (replaceUnsafe s')
  end.

Definition generateMigrationFilename (now : JsDate.t) (name : string) : string :=
  let timestamp := generateMigrationTimestamp now in
  let safeName := replaceUnsafe (toLowerCase name) in
  timestamp ++ "_" ++ safeName ++ ".sql".

End MigrationParser.

(* ================================================================= *)
(** ** The comparison tool ([tools/compare-schema.ts]) *)

Module CompareDetails.
Record t : Type := mk {
  tables : nat;
  indexes : nat;
  enums : nat;
  functions : nat;
  extensions : nat;
  totalMigrations : nat;
  migrationVersions : list string }.
End CompareDetails.

Module CompareResult.
Record t : Type := mk {
  drift : SchemaDrift.t;
  appliedMigrations : nat;
  pendingMigrations : nat;
  lastAppliedVersion : jsopt string;
  details : option CompareDetails.t }.
End CompareResult.

(** The object [getSchema] resolves to.  It is declared [any]: each array
    the tool reads is there, or the object has null or nothing under that
    name.  The elements are objects of the query, which builds them with the
    fields the comparison reads. *)
Module SchemaAnswer.
Record t : Type := mk {
  tables : jsopt (list Table.t);
  views : jsopt (list View.t);
  enums : jsopt (list string);
  functions : jsopt (list string);
  extensions : jsopt (list string);
  indexes : jsopt (list Index.t);
  triggers : jsopt (list Trigger.t);
  rlsPolicies : jsopt (list RLSPolicy.t) }.
End SchemaAnswer.

Module CompareSchema.
Import SchemaAnalyzer MigrationParser.

(** What the tool catches and reports under [success: false]: a rejection
    of the database service or of the file system, or the TypeError of
    reading [property] of [null] ([ofNull] true) or of [undefined]. *)
Inductive caught : Type :=
| rejected (e : Fs.error)
| typeError (ofNull : bool) (property : string).

(** The object the tool returns: [success: true] with the data, or
    [success: false] with the error. *)
Inductive outcome (A : Type) : Type :=
| success (data : A)
| failure (error : caught).
Arguments success {A} data.
Arguments failure {A} error.

Definition andThen {A B : Type} (r : outcome A) (f : A -> outcome B) : outcome B :=
  match r with
  | success a => f a
  | failure e => failure e
  end.

(** [a.map(...)] or [a.length] for a field [a] of the object: the array, or
    the TypeError of reading the property of null or undefined. *)
Definition reading {A : Type} (property : string) (a : jsopt (list A))
  : outcome (list A) :=
  match a with
  | val l => success l
  | null => failure (typeError true property)
  | undefined => failure (typeError false property)
  end.

(** The select list of the query of [getSchema]: [tables] is the aggregate
    of the tables, null when there is none; every other array is coalesced
    to the empty array; no top-level [indexes] is built, the indexes being
    inside their tables. *)
Definition getSchemaObject (tables : list Table.t) (views : list View.t)
    (enums functions extensions : list string) (triggers : list Trigger.t)
    (rlsPolicies : list RLSPolicy.t) : SchemaAnswer.t :=
  SchemaAnswer.mk
    (match tables with [] => null | _ => val tables end)
    (val views) (val enums) (val functions) (val extensions)
    undefined
    (val triggers) (val rlsPolicies).

(** [compareSchemas(expected, actual)] for the object of the database: the
    comparison evaluates [actual.tables.map], [actual.indexes.map],
    [actual.views.map], [actual.triggers.map] and [actual.rlsPolicies.map]
    in this order and computes without effect between them, so it throws at
    the first of them that is not there and otherwise returns what it
    returns on the five arrays. *)
Definition compareSchemasAny (expected : DatabaseSchema.t)
    (actual : SchemaAnswer.t) : outcome SchemaDrift.t :=
  andThen (reading "map" (SchemaAnswer.tables actual)) (fun tables =>
  andThen (reading "map" (SchemaAnswer.indexes actual)) (fun indexes =>
  andThen (reading "map" (SchemaAnswer.views actual)) (fun views =>
  andThen (reading "map" (SchemaAnswer.triggers actual)) (fun triggers =>
  andThen (reading "map" (SchemaAnswer.rlsPolicies actual)) (fun rlsPolicies =>
  success
    (compareSchemas expected
       (DatabaseSchema.mk tables views [] [] [] indexes triggers rlsPolicies))))))).

Definition compareSchemasWithMigrationsAny (currentSchema : SchemaAnswer.t)
    (migrations : list Migration.t) : outcome SchemaDrift.t :=
  let expectedSchema := buildExpectedSchemaFromMigrations migrations in
  compareSchemasAny expectedSchema currentSchema.

(** [a.version.localeCompare(b.version) <= 0]. *)
Definition migrationLe (a b : Migration.t) : bool :=
  match localeCompare (Migration.version a) (Migration.version b) with
  | Gt => false
  | _ => true
  end.

(** The counts of [details.currentSchema], read in the order of the object
    literal. *)
Definition currentSchemaDetails (currentSchema : SchemaAnswer.t)
    (appliedMigrationList : list Migration.t) : outcome CompareDetails.t :=
  andThen (reading "length" (SchemaAnswer.tables currentSchema)) (fun tables =>
  andThen (reading "length" (SchemaAnswer.indexes currentSchema)) (fun indexes =>
  andThen (reading "length" (SchemaAnswer.enums currentSchema)) (fun enums =>
  andThen (reading "length" (SchemaAnswer.functions currentSchema)) (fun functions =>
  andThen (reading "length" (SchemaAnswer.extensions currentSchema)) (fun extensions =>
  success
    (CompareDetails.mk (List.length tables) (List.length indexes)
       (List.length enums) (List.length functions) (List.length extensions)
       (List.length appliedMigrationList)
       (map Migration.version appliedMigrationList))))))).

(** The two answers of the database are arguments: [getSchema], the
    settled promise of the schema, and the array [appliedMigrations] of the
    store ([getAppliedMigrations] catches its own failures and resolves to an
    array).  Whatever is thrown inside the [try] ends in [success: false]. *)
Definition compareSchemaMigrations (includeDetails : bool) (fs : Fs.t)
    (migrationsDir : string) (getSchema : Fs.result SchemaAnswer.t)
    (appliedMigrations : Heap.loc) (h : Heap.t)
  : outcome CompareResult.t * Heap.t :=
  match getSchema with
  | Fs.Throw e => (failure (rejected e), h)
  | Fs.Ok currentSchema =>
      match getMigrationHistory fs migrationsDir appliedMigrations h with
      | (Fs.Throw e, h1) => (failure (rejected e), h1)
      | (Fs.Ok migrationHistory, h1) =>
          let applied := Heap.read h1 appliedMigrations in
          let appliedMigrationList :=
            JsSort.sort migrationLe
              (filter
                 (fun m =>
                    existsb
                      (fun am =>
                         String.eqb (AppliedMigration.version am)
                           (Migration.version m))
                      applied)
                 (MigrationHistory.migrationChain migrationHistory)) in
          (andThen
             (compareSchemasWithMigrationsAny currentSchema appliedMigrationList)
             (fun schemaDrift =>
                andThen
                  (if includeDetails
                   then andThen
                          (currentSchemaDetails currentSchema appliedMigrationList)
                          (fun d => success (Some d))
                   else success None)
                  (fun details =>
                     success
                       (CompareResult.mk schemaDrift (List.length applied)
                          (List.length
                             (MigrationHistory.pendingMigrations migrationHistory))
                          (MigrationHistory.lastAppliedVersion migrationHistory)
                          details))),
           h1)
      end
  end.

End CompareSchema.

(* ================================================================= *)
(** ** Sample inputs and notions used in the statements *)

Module Support.
Import SchemaAnalyzer MigrationParser.

Definition migration (version upSql : string) : Migration.t :=
  Migration.mk version "" "" upSql "" undefined.

(** The two operations of the order-sensitivity property. *)
Definition createFoo : Migration.t := migration "1" "CREATE TABLE foo".
Definition addBar : Migration.t := migration "2" "ALTER TABLE foo ADD COLUMN bar".

Definition createViewV : Migration.t :=
  migration "20240101000000" "CREATE VIEW v AS SELECT 1".

Definition hasColumn (columnName : string) (t : Table.t) : bool :=
  existsb (fun c => String.eqb (Column.name c) columnName) (Table.columns t).

(** The operation kinds for which [parseMigrationOperations] has a branch. *)
Definition classified (type : OperationType) : bool :=
  match type with
  | CREATE_TABLE | DROP_TABLE | ADD_COLUMN | DROP_COLUMN
  | CREATE_INDEX | DROP_INDEX => true
  | _ => false
  end.

(** The part of a model that holds views, triggers and policies. *)
Definition rest (s : DatabaseSchema.t) :=
  (DatabaseSchema.views s, DatabaseSchema.triggers s, DatabaseSchema.rlsPolicies s).

(** A model whose only content is the index i on public.u. *)
Definition oneIndex : DatabaseSchema.t :=
  applyCreateIndex emptySchema "CREATE INDEX i ON u (b)".

(** A directory [migrations] with five entries; every file holds the same
    two sections. *)
Definition sampleFs : Fs.t :=
  Fs.mk
    (fun dir =>
       if String.eqb dir "migrations"
       then Fs.Ok ["20240103000000_b.sql"; "notes.sql"; "20240101000000_a.sql";
                   "x.txt"; "20240101000000_c.sql"]
       else Fs.Throw (Fs.mkError "ENOENT"))
    (fun _ => Fs.Ok (formatMigrationContent "CREATE TABLE a;" "DROP TABLE a;")).

(** A file system on which no directory can be listed: permission denied. *)
Definition deniedFs : Fs.t :=
  Fs.mk (fun _ => Fs.Throw (Fs.mkError "EACCES"))
        (fun _ => Fs.Throw (Fs.mkError "EACCES")).

Definition versionOf (file : MigrationFile.t) : string :=
  ParsedMigration.version (MigrationFile.parsed file).

Definition isValid (file : MigrationFile.t) : bool :=
  ParsedMigration.hasValidStructure (MigrationFile.parsed file).

(** Number of files that carry the version [v]. *)
Definition countVersion (v : string) (files : list MigrationFile.t) : nat :=
  List.length (filter (fun f => String.eqb (versionOf f) v) files).

(** The count registered for [k], zero when there is none. *)
Definition countOf (o : JsObject.t) (k : string) : nat :=
  match JsObject.get o k with Some n => n | None => 0 end.

(** The record built for a directory entry and the text read from it. *)
Definition loaded (filename content : string) : MigrationFile.t :=
  MigrationFile.mk filename content (parseMigrationContent filename content).

Definition isLoaded (file : MigrationFile.t) : Prop :=
  file = loaded (MigrationFile.filename file) (MigrationFile.content file)
  /\ endsWith (MigrationFile.filename file) ".sql" = true.

(** [r] repeated [n] times. *)
Fixpoint times (n : nat) (r : regex) : regex :=
  match n with
  | 0 => Eps
  | S n' => Seq r (times n' r)
  end.

(** The file name pattern as the specification words it:
    /^\d{14}_.+\.sql$/ *)
Definition specFilename : regex :=
  seqs [Bol; times 14 (Cls isDigit); Chr "_"; Plus isDot; Chr "."; lit "sql"; Eol].

Definition matchesSpecFilename (filename : string) : bool :=
  match jsMatch false specFilename filename with Some _ => true | None => false end.

(** The lines of a section as the section loop accumulates them: each line
    followed by a line feed. *)
Fixpoint unlines (lines : list string) : string :=
  match lines with
  | [] => ""
  | l :: rest => l ++ String LF (unlines rest)
  end.

(** A non-empty run of word characters: an unqualified SQL name. *)
Definition isName (n : string) : bool :=
  allOf isWord n && negb (String.eqb n "").



(** An up section with a line that is the down marker. *)
Definition upWithMarker : string :=
  "x" ++ newline ++ markerDown ++ newline ++ "y".

Definition hasSqlSuffix (file : string) : bool := endsWith file ".sql".

Definition noVersionError : string :=
  "Invalid filename format: unable to extract version".

(** A string of exactly fourteen decimal digits. *)
Definition isVersion14 (v : string) : bool :=
  Nat.eqb (String.length v) 14 && allOf isDigit v.

(** A store whose array 0 lists two applied migrations, oldest first. *)
Definition sampleHeap : Heap.t :=
  fun _ => [AppliedMigration.mk "20240101000000" 5%Z;
            AppliedMigration.mk "20240103000000" 9%Z].


(** [p] is a prefix of [s] up to the case of letters, as the matcher of an
    expression with flag [i] compares characters. *)
Fixpoint startsWithFold (s p : string) : bool :=
  match p, s with
  | "", _ => true
  | String a p', String b s' => sameChar true a b && startsWithFold s' p'
  | String _ _, "" => false
  end.

(** What may follow a name: nothing, or a character that is neither a word
    character nor a dot. *)
Definition endsName (tail : string) : bool :=
  match tail with
  | "" => true
  | String c _ => negb (isWord c) && negb (Ascii.eqb c ".")
  end.

(** What may follow the last part of a qualified name: nothing, or a
    character that is not a word character. *)
Definition endsWord (tail : string) : bool :=
  match tail with
  | "" => true
  | String c _ => negb (isWord c)
  end.

(** A statement that [statements] returns as it is: not empty, without
    semicolon, without white space at either end. *)
Definition isStatement (sql : string) : bool :=
  allOf (fun c => negb (Ascii.eqb c ";")) sql
  && negb (String.eqb sql "")
  && String.eqb (trim sql) sql.

(** An optionally qualified name, as the expressions of the handlers read
    it: [(?:(\w+)\.)?(\w+)] with the groups 1 and 2. *)
Definition reObject : regex := seqs [qualifier 1; Grp 2 word1].

(** The shape shared by the expressions for CREATE TABLE, DROP TABLE and
    DROP VIEW: a keyword, white space, an optional clause and a name. *)
Definition keywordObject (keyword clause : string) : regex :=
  Seq (lit keyword) (Seq ws1 (Seq (Opt (Seq (lit clause) ws1)) reObject)).

(** What may follow the name in a statement: text without semicolon that
    does not end in white space and does not continue the name. *)
Definition isTail (tail : string) : bool :=
  endsName tail
  && allOf (fun c => negb (Ascii.eqb c ";")) tail
  && String.eqb (trimEnd tail) tail.

(** *** Index statements as they are written *)







Definition schemaOf (q : option string) : string :=
  match q with
  | None => "public"
  | Some s => s
  end.





(** The record that [applyCreateIndex] builds for the statement [sql] with
    the index name [n] on the table [t] of the schema of [q]. *)
Definition indexOf (sql n : string) (q : option string) (t : string) : Index.t :=
  Index.mk n t (schemaOf q) []
    (includes (toUpperCase sql) "UNIQUE") false "btree"
    (includes (toUpperCase sql) "CONCURRENTLY").



(** The record that [applyCreateTable] builds. *)
Definition newTable (schemaName tableName : string) : Table.t :=
  Table.mk schemaName tableName [] [] [].

(** The shape shared by the expressions for ADD COLUMN and DROP COLUMN. *)
Definition alterColumn (keyword : string) : regex :=
  seqs [lit "ALTER TABLE"; ws1; qualifier 1; Grp 2 word1; ws1; lit keyword; ws1;
        Grp 3 word1].

(** The column that [applyAddColumn] builds. *)
Definition placeholderColumn (columnName : string) (position : nat) : Column.t :=
  Column.mk columnName "text" true undefined false position
    undefined undefined undefined.

(** The table after [applyAddColumn] has pushed a column to it. *)
Definition withColumn (columnName : string) (table : Table.t) : Table.t :=
  Table.mk (Table.schema table) (Table.name table)
    (Table.columns table
     ++ [placeholderColumn columnName (List.length (Table.columns table) + 1)])%list
    (Table.constraints table) (Table.indexes table).

(** The table after [applyDropColumn] has filtered its columns. *)
Definition withoutColumn (columnName : string) (table : Table.t) : Table.t :=
  Table.mk (Table.schema table) (Table.name table)
    (filter (fun c => negb (String.eqb (Column.name c) columnName))
       (Table.columns table))
    (Table.constraints table) (Table.indexes table).

(** The first characters of the statements that the classifier knows:
    ALTER, CREATE and DROP in either case. *)
Definition opensStatement (c : ascii) : bool :=
  existsb (Ascii.eqb c) ["a"; "A"; "c"; "C"; "d"; "D"]%char.

(** The model without the collection that operations of the kind [type]
    work on. *)
Definition withoutFamily (type : OperationType) (s : DatabaseSchema.t)
  : DatabaseSchema.t :=
  match type with
  | CREATE_TABLE | DROP_TABLE | ADD_COLUMN | DROP_COLUMN =>
      DatabaseSchema.setTables s []
  | CREATE_INDEX | DROP_INDEX => DatabaseSchema.setIndexes s []
  | CREATE_VIEW | DROP_VIEW => DatabaseSchema.setViews s []
  | CREATE_TRIGGER | DROP_TRIGGER => DatabaseSchema.setTriggers s []
  | CREATE_POLICY | DROP_POLICY => DatabaseSchema.setRlsPolicies s []
  end.

(** The number of entries in that collection. *)
Definition familySize (type : OperationType) (s : DatabaseSchema.t) : nat :=
  match type with
  | CREATE_TABLE | DROP_TABLE | ADD_COLUMN | DROP_COLUMN =>
      List.length (DatabaseSchema.tables s)
  | CREATE_INDEX | DROP_INDEX => List.length (DatabaseSchema.indexes s)
  | CREATE_VIEW | DROP_VIEW => List.length (DatabaseSchema.views s)
  | CREATE_TRIGGER | DROP_TRIGGER => List.length (DatabaseSchema.triggers s)
  | CREATE_POLICY | DROP_POLICY => List.length (DatabaseSchema.rlsPolicies s)
  end.

(** The kinds whose handlers only remove entries. *)
Definition removes (type : OperationType) : bool :=
  match type with
  | DROP_TABLE | DROP_INDEX | DROP_VIEW | DROP_TRIGGER | DROP_POLICY => true
  | _ => false
  end.

(** The down section of the record is blank. *)
Definition hasBlankDown (file : MigrationFile.t) : bool :=
  String.eqb (trim (ParsedMigration.downSql (MigrationFile.parsed file))) "".

(** The PARSE_ERROR entries of a file: one for each of its errors. *)
Definition parseErrorsOf (file : MigrationFile.t) : list MigrationError.t :=
  map (fun error => MigrationError.mk (MigrationFile.filename file) PARSE_ERROR error)
    (ParsedMigration.errors (MigrationFile.parsed file)).

(** A migration of a chain that carries no [appliedAt]. *)
Definition isPending (m : Migration.t) : bool :=
  match Migration.appliedAt m with undefined => true | _ => false end.


(** What a file contributes to the chain of a history, given the applied
    list sorted, and to its pending migrations, given the applied list. *)
Definition chainEntry (sorted : list AppliedMigration.t) (file : MigrationFile.t)
  : list Migration.t :=
  if isValid file
  then match find (hasVersion (versionOf file)) sorted with
       | Some a =>
           [Migration.mk (versionOf file)
              (ParsedMigration.name (MigrationFile.parsed file))
              (MigrationFile.filename file)
              (ParsedMigration.upSql (MigrationFile.parsed file))
              (ParsedMigration.downSql (MigrationFile.parsed file))
              (val (AppliedMigration.appliedAt a))]
       | None => [toMigration file]
       end
  else [].

Definition pendingEntry (applied : list AppliedMigration.t)
    (file : MigrationFile.t) : list Migration.t :=
  if isValid file
  then if negb (existsb (String.eqb (versionOf file))
                  (map AppliedMigration.version applied))
       then [toMigration file] else []
  else [].

(** The characters of a generated file name: [a-z0-9_]. *)
Definition isSafe (c : ascii) : bool :=
  isLower c || isDigit c || Ascii.eqb c "_".

(** A date of the years 1000 to 9999 whose fields are in their ranges. *)
Definition fourDigitYear (now : JsDate.t) : bool :=
  (1000 <=? JsDate.getFullYear now)%Z && (JsDate.getFullYear now <=? 9999)%Z
  && (JsDate.getMonth now <? 12)%nat && (JsDate.getDate now <? 32)%nat
  && (JsDate.getHours now <? 24)%nat && (JsDate.getMinutes now <? 60)%nat
  && (JsDate.getSeconds now <? 60)%nat.

(** Third of November 2026, 07:05:09. *)
Definition sampleDate : JsDate.t := JsDate.mk 2026 10 3 7 5 9.

(** A line that the section loop takes for the up marker, and one it takes
    for the down marker: a single line that starts, once trimmed, with the
    marker. *)
Definition isUpMarker (line : string) : bool :=
  allOf (fun c => negb (Ascii.eqb c LF)) line
  && startsWith (trim line) markerUp.

Definition isDownMarker (line : string) : bool :=
  allOf (fun c => negb (Ascii.eqb c LF)) line
  && startsWith (trim line) markerDown.

(** A text none of whose lines is a marker. *)
Definition markerFree (text : string) : bool :=
  negb (includes text markerUp) && negb (includes text markerDown).

Definition missingUpError : string := "Missing or empty migrate:up section".
Definition missingDownError : string := "Missing or empty migrate:down section".


(** A directory whose second file cannot be read any more. *)
Definition vanishingFs : Fs.t :=
  Fs.mk
    (fun _ => Fs.Ok ["1_a.sql"; "2_b.sql"; "3_c.sql"])
    (fun path =>
       if String.eqb path "migrations/2_b.sql"
       then Fs.Throw (Fs.mkError "ENOENT")
       else Fs.Ok (formatMigrationContent "CREATE TABLE a;" "DROP TABLE a;")).

(** A migration of a chain that carries an [appliedAt]. *)
Definition isApplied (m : Migration.t) : bool := negb (isPending m).

(** The order of version strings. *)
Definition versionOrder (a b : string) : bool :=
  match localeCompare a b with Gt => false | _ => true end.

(** A database with the table a of the sample files. *)
Definition sampleDatabase : DatabaseSchema.t :=
  DatabaseSchema.setTables emptySchema [Table.mk "public" "a" [] [] []].

(** An answer of the database that has every array of the declared type
    [DatabaseSchema]. *)
Definition answerOf (s : DatabaseSchema.t) : SchemaAnswer.t :=
  SchemaAnswer.mk
    (val (DatabaseSchema.tables s)) (val (DatabaseSchema.views s))
    (val (DatabaseSchema.enums s)) (val (DatabaseSchema.functions s))
    (val (DatabaseSchema.extensions s)) (val (DatabaseSchema.indexes s))
    (val (DatabaseSchema.triggers s)) (val (DatabaseSchema.rlsPolicies s)).

(** A database without tables. *)
Definition noTable (tables : list Table.t) : bool :=
  match tables with [] => true | _ => false end.

(** A model whose only content is the table public.users, without
    columns; the same model with an enum besides; and the table with the
    column email that the replay adds. *)
Definition usersSchema : DatabaseSchema.t :=
  DatabaseSchema.setTables emptySchema [newTable "public" "users"].

Definition usersSchemaWithEnum : DatabaseSchema.t :=
  DatabaseSchema.mk [newTable "public" "users"] [] ["mood"] [] [] [] [] [].

Definition usersWithEmail : DatabaseSchema.t :=
  DatabaseSchema.setTables emptySchema
    [withColumn "email" (newTable "public" "users")].

(** Two columns as the replay builds them, and a table with them in either
    order. *)
Definition columnA : Column.t := placeholderColumn "a" 1.
Definition columnB : Column.t := placeholderColumn "b" 2.
Definition tableAB : Table.t := Table.mk "public" "t" [columnA; columnB] [] [].
Definition tableBA : Table.t := Table.mk "public" "t" [columnB; columnA] [] [].

(** The column a as the database reports it: NULL for what it does not
    have. *)
Definition columnFromDb : Column.t :=
  Column.mk "a" "text" true null false 1 null null null.

(** A numeric field that holds NaN; a column, a table and a model with such
    a field. *)
Definition isNaN (a : jsopt jsnum) : bool :=
  match a with val NaN => true | _ => false end.

Definition hasNaN (c : Column.t) : bool :=
  isNaN (Column.characterMaximumLength c) || isNaN (Column.numericPrecision c)
  || isNaN (Column.numericScale c).

Definition tableHasNaN (t : Table.t) : bool := existsb hasNaN (Table.columns t).

Definition modelHasNaN (m : DatabaseSchema.t) : bool :=
  existsb tableHasNaN (DatabaseSchema.tables m).

(** A model with the table public.items and its column price of precision
    10 and scale 2; the same with NaN for the precision. *)
Definition pricedSchema : DatabaseSchema.t :=
  DatabaseSchema.setTables emptySchema
    [Table.mk "public" "items"
       [Column.mk "price" "numeric" true undefined false 1
          undefined (val (num 10)) (val (num 2))] [] []].

Definition nanSchema : DatabaseSchema.t :=
  DatabaseSchema.setTables emptySchema
    [Table.mk "public" "items"
       [Column.mk "price" "numeric" true undefined false 1
          undefined (val NaN) (val (num 2))] [] []].

(** A fragment that opens with a comment line. *)
Definition commentedCreate : string :=
  newline ++ "-- users" ++ newline ++ "CREATE TABLE users (id int)".

(** A file with a header line, whose down section comes first and whose
    marker lines carry more than the marker. *)
Definition downFirst : string :=
  "-- notes" ++ newline ++ "-- migrate:down (undo)" ++ newline
  ++ "DROP TABLE a;" ++ newline ++ "  -- migrate:up" ++ newline
  ++ "CREATE TABLE a;".

End Support.

(* ================================================================= *)
(** * Properties *)

(** ** Replay: order sensitivity *)

Module ReplayFacts.
Import SchemaAnalyzer Support.

(** An ADD COLUMN statement whose target table is not in the model leaves
    the model as it is. *)
Lemma applyAddColumn_absent (schema : DatabaseSchema.t) (sql : string) (m : caps) :
  jsMatch true reAddColumn sql = Some m ->
  find (isTable (groupOr 1 m "public") (groupOf 2 m))
    (DatabaseSchema.tables schema) = None ->
  applyAddColumn schema sql = schema.
Proof.
  intros Hm Hfind. unfold applyAddColumn.
  rewrite Hm. cbv zeta. rewrite Hfind. reflexivity.
Qed.

(** C1.  Replaying [CREATE TABLE foo] and then [ALTER TABLE foo ADD COLUMN
    bar] from the empty model gives the single table public.foo with a column
    named bar; replaying them in the other order gives the single table
    public.foo without any column named bar; and an ADD COLUMN statement
    whose target table is absent from the model leaves the model unchanged. *)
Theorem replay_order_sensitive :
  (exists t,
      DatabaseSchema.tables (buildExpectedSchemaFromMigrations [createFoo; addBar])
      = [t]
      /\ tableKey t = "public.foo" /\ hasColumn "bar" t = true)
  /\ (exists t,
         DatabaseSchema.tables
           (buildExpectedSchemaFromMigrations [addBar; createFoo]) = [t]
         /\ tableKey t = "public.foo" /\ hasColumn "bar" t = false)
  /\ (forall schema sql m,
         jsMatch true reAddColumn sql = Some m ->
         find (isTable (groupOr 1 m "public") (groupOf 2 m))
           (DatabaseSchema.tables schema) = None ->
         applyAddColumn schema sql = schema).
Proof.
  split; [|split].
  - eexists. split; [vm_compute; reflexivity|]. split; reflexivity.
  - eexists. split; [vm_compute; reflexivity|]. split; reflexivity.
  - exact applyAddColumn_absent.
Qed.

(** The no-op at work: ADD COLUMN bar applied to the empty model. *)
Lemma replay_order_sensitive_witness :
  applyAddColumn emptySchema (Migration.upSql addBar) = emptySchema.
Proof.
  apply (proj2 (proj2 replay_order_sensitive)) with (m := [(3, "bar"); (2, "foo")]).
  - vm_compute. reflexivity.
  - reflexivity.
Defined.

End ReplayFacts.

(** ** Replay: the statement kinds that reach the model *)

Module ClassifierFacts.
Import SchemaAnalyzer Support.

Lemma classify_classified (statement : string) :
  forallb (fun op => classified (Operation.type op)) (classify statement) = true.
Proof.
  unfold classify.
  repeat match goal with
         | |- context [if ?b then _ else _] => destruct b
         end; reflexivity.
Qed.

Lemma parseMigrationOperations_classified (sql : string) :
  forallb (fun op => classified (Operation.type op))
    (parseMigrationOperations sql) = true.
Proof.
  unfold parseMigrationOperations.
  induction (statements sql) as [|st sts IH]; [reflexivity|].
  simpl. rewrite forallb_app, classify_classified, IH. reflexivity.
Qed.

Lemma applyOperation_rest (s : DatabaseSchema.t) (op : Operation.t) :
  classified (Operation.type op) = true ->
  rest (applyOperation s op) = rest s.
Proof.
  destruct op as [ty sql]. unfold applyOperation. simpl.
  destruct ty; simpl; try discriminate; intros _.
  - unfold applyCreateTable. destruct (jsMatch _ _ _); reflexivity.
  - unfold applyDropTable. destruct (jsMatch _ _ _); reflexivity.
  - unfold applyAddColumn. destruct (jsMatch _ _ _); [|reflexivity].
    cbv zeta. destruct (find _ _); reflexivity.
  - unfold applyDropColumn. destruct (jsMatch _ _ _); [|reflexivity].
    cbv zeta. destruct (find _ _); reflexivity.
  - unfold applyCreateIndex. destruct (jsMatch _ _ _); reflexivity.
  - unfold applyDropIndex. destruct (jsMatch _ _ _); reflexivity.
Qed.

Lemma fold_applyOperation_rest (ops : list Operation.t) (s : DatabaseSchema.t) :
  forallb (fun op => classified (Operation.type op)) ops = true ->
  rest (fold_left applyOperation ops s) = rest s.
Proof.
  revert s. induction ops as [|op ops IH]; intros s H; [reflexivity|].
  simpl in *. apply andb_true_iff in H. destruct H as [H1 H2].
  rewrite IH by assumption. apply applyOperation_rest. assumption.
Qed.

Lemma applyMigrationToSchema_rest (s : DatabaseSchema.t) (m : Migration.t) :
  rest (applyMigrationToSchema s m) = rest s.
Proof.
  unfold applyMigrationToSchema.
  apply fold_applyOperation_rest, parseMigrationOperations_classified.
Qed.

Lemma fold_applyMigration_rest (ms : list Migration.t) (s : DatabaseSchema.t) :
  rest (fold_left applyMigrationToSchema ms s) = rest s.
Proof.
  revert s. induction ms as [|m ms IH]; intros s; [reflexivity|].
  simpl. rewrite IH. apply applyMigrationToSchema_rest.
Qed.

(** C2.  The classifier has no branch for views, triggers and policies: a
    CREATE VIEW statement yields no operation and its replay leaves the model
    empty, although the handler [applyCreateView], applied to the same
    statement, records the view public.v; whatever the migrations, the
    replayed model has no view, no trigger and no policy. *)
Theorem replay_drops_view_statements :
  parseMigrationOperations (Migration.upSql createViewV) = []
  /\ buildExpectedSchemaFromMigrations [createViewV] = emptySchema
  /\ map viewKey
       (DatabaseSchema.views
          (applyCreateView emptySchema (Migration.upSql createViewV)))
     = ["public.v"]
  /\ (forall sql,
         forallb (fun op => classified (Operation.type op))
           (parseMigrationOperations sql) = true)
  /\ (forall migrations,
         DatabaseSchema.views (buildExpectedSchemaFromMigrations migrations) = []
         /\ DatabaseSchema.triggers (buildExpectedSchemaFromMigrations migrations)
            = []
         /\ DatabaseSchema.rlsPolicies
              (buildExpectedSchemaFromMigrations migrations) = []).
Proof.
  split; [vm_compute; reflexivity|].
  split; [vm_compute; reflexivity|].
  split; [vm_compute; reflexivity|].
  split; [exact parseMigrationOperations_classified|].
  intros ms.
  pose proof (fold_applyMigration_rest ms emptySchema) as H.
  unfold rest in H. simpl in H.
  unfold buildExpectedSchemaFromMigrations.
  inversion H as [[Hv Ht Hp]]. rewrite Hv, Ht, Hp. auto.
Qed.

End ClassifierFacts.

(** ** The diff engine *)

Module DiffFacts.
Import SchemaAnalyzer Support.

Section MapFacts.
Context {V : Type}.
Implicit Types (m : JsMap.t V) (k : string) (v : V).

Lemma has_keys m k : JsMap.has m k = true <-> In k (JsMap.keys m).
Proof.
  induction m as [|[k' v'] m IH]; simpl.
  - split; [discriminate | tauto].
  - rewrite orb_true_iff, IH, String.eqb_eq. tauto.
Qed.

Lemma keys_set m k v :
  JsMap.keys (JsMap.set m k v)
  = if JsMap.has m k then JsMap.keys m else (JsMap.keys m ++ [k])%list.
Proof.
  induction m as [|[k' v'] m IH]; simpl; [reflexivity|].
  destruct (String.eqb k' k) eqn:E; simpl; [reflexivity|].
  unfold JsMap.keys in *. rewrite IH. destruct (JsMap.has m k); reflexivity.
Qed.

Lemma NoDup_keys_set m k v :
  NoDup (JsMap.keys m) -> NoDup (JsMap.keys (JsMap.set m k v)).
Proof.
  intros H. rewrite keys_set. destruct (JsMap.has m k) eqn:E; [assumption|].
  apply NoDup_app; [assumption | repeat constructor; simpl; tauto |].
  intros x Hx [<-|[]].
  apply has_keys in Hx. congruence.
Qed.

Lemma NoDup_keys_fold (entries : list (string * V)) m :
  NoDup (JsMap.keys m) ->
  NoDup (JsMap.keys (fold_left (fun m e => JsMap.set m (fst e) (snd e)) entries m)).
Proof.
  revert m. induction entries as [|e es IH]; intros m H; simpl; [assumption|].
  apply IH, NoDup_keys_set, H.
Qed.

Lemma NoDup_keys_ofEntries (entries : list (string * V)) :
  NoDup (JsMap.keys (JsMap.ofEntries entries)).
Proof. apply NoDup_keys_fold. constructor. Qed.

Lemma get_In m k v :
  NoDup (JsMap.keys m) -> In (k, v) m -> JsMap.get m k = Some v.
Proof.
  induction m as [|[k' v'] m IH]; simpl; [tauto|].
  intros Hnd [Heq|Hin].
  - inversion Heq; subst. rewrite String.eqb_refl. reflexivity.
  - inversion Hnd as [|? ? Hnotin Hnd']; subst.
    destruct (String.eqb k' k) eqn:E.
    + apply String.eqb_eq in E. subst. exfalso. apply Hnotin.
      change (In (fst (k, v)) (map fst m)). apply in_map, Hin.
    + apply IH; assumption.
Qed.

Lemma keysNotIn_self m : keysNotIn m m = [].
Proof.
  unfold keysNotIn.
  assert (H : forall l, (forall k, In k l -> JsMap.has m k = true) ->
                        filter (fun k => negb (JsMap.has m k)) l = []).
  { induction l as [|k l IH]; intros Hl; [reflexivity|].
    simpl. rewrite (Hl k) by (left; reflexivity). simpl.
    apply IH. intros k' Hk'. apply Hl. right. assumption. }
  apply H. intros k Hk. apply has_keys, Hk.
Qed.

Lemma set_In m k v (x : string * V) :
  In x (JsMap.set m k v) -> In x m \/ x = (k, v).
Proof.
  induction m as [|[k' v'] m IH]; simpl.
  - intros [<-|[]]. auto.
  - destruct (String.eqb k' k) eqn:E; simpl.
    + apply String.eqb_eq in E. subst k'. intros [<-|H]; auto.
    + intros [<-|H]; [auto|]. destruct (IH H); auto.
Qed.

(** Every entry of the map is one of the pairs it was built from. *)
Lemma ofEntries_In (entries : list (string * V)) (x : string * V) :
  In x (JsMap.ofEntries entries) -> In x entries.
Proof.
  unfold JsMap.ofEntries.
  assert (G : forall l m, In x (fold_left (fun m e => JsMap.set m (fst e) (snd e)) l m) ->
                          In x m \/ In x l).
  { induction l as [|[k v] l IH]; intros m H; simpl in *; [auto|].
    destruct (IH _ H) as [H'|H']; [|auto].
    destruct (set_In _ _ _ _ H'); auto. }
  intros H. destruct (G _ _ H) as [[]|H']. exact H'.
Qed.

(** The loop over the entries of a map compared with itself pushes nothing
    when comparing a value of the map with itself reports no change. *)
Lemma modified_self {D : Type} m (drift : V -> V -> D) (changed : D -> bool) :
  NoDup (JsMap.keys m) ->
  (forall k v, In (k, v) m -> changed (drift v v) = false) ->
  flat_map
    (fun e =>
       match JsMap.get m (fst e) with
       | Some a => if changed (drift (snd e) a) then [drift (snd e) a] else []
       | None => []
       end) m = [].
Proof.
  intros Hnd Hsame.
  assert (H : forall l, (forall e, In e l -> In e m) ->
    flat_map
      (fun e =>
         match JsMap.get m (fst e) with
         | Some a => if changed (drift (snd e) a) then [drift (snd e) a] else []
         | None => []
         end) l = []).
  { induction l as [|[k v] l IH]; intros Hl; [reflexivity|].
    simpl. rewrite (get_In m k v Hnd) by (apply Hl; left; reflexivity).
    rewrite (Hsame k v) by (apply Hl; left; reflexivity). simpl. apply IH. intros e He. apply Hl. right. assumption. }
  apply H. auto.
Qed.
End MapFacts.

Lemma jsopt_neq_refl {A : Type} (eqb : A -> A -> bool) (a : jsopt A) :
  (forall x, eqb x x = true) -> jsopt_neq eqb a a = false.
Proof. intros H. destruct a; simpl; [reflexivity|reflexivity|]. rewrite H. reflexivity. Qed.

(** A numeric field differs from itself exactly when it holds NaN. *)
Lemma jsopt_neq_number_self (a : jsopt jsnum) : jsopt_neq jsnum_eqb a a = isNaN a.
Proof.
  destruct a as [| |[z|]]; simpl; try reflexivity.
  rewrite Z.eqb_refl. reflexivity.
Qed.

Lemma compareColumn_self (c : Column.t) :
  hasNaN c = false -> ColumnDrift.changes (compareColumn c c) = [].
Proof.
  unfold hasNaN. intros H.
  apply orb_false_iff in H. destruct H as [H H3].
  apply orb_false_iff in H. destruct H as [H1 H2].
  unfold compareColumn. simpl.
  rewrite String.eqb_refl, Bool.eqb_reflx.
  rewrite (jsopt_neq_refl String.eqb) by apply String.eqb_refl.
  rewrite !jsopt_neq_number_self, H1, H2, H3.
  reflexivity.
Qed.

Lemma existsb_false {A : Type} (p : A -> bool) (l : list A) (x : A) :
  existsb p l = false -> In x l -> p x = false.
Proof.
  intros H Hx. destruct (p x) eqn:E; [|reflexivity].
  assert (existsb p l = true) by (apply existsb_exists; exists x; auto).
  congruence.
Qed.

Lemma compareTable_self (t : Table.t) :
  tableHasNaN t = false -> hasTableChanges (compareTable t t) = false.
Proof.
  intros Ht. unfold compareTable, hasTableChanges. simpl.
  rewrite !keysNotIn_self.
  rewrite (modified_self _ compareColumn
             (fun d => (0 <? List.length (ColumnDrift.changes d))%nat)).
  - reflexivity.
  - apply NoDup_keys_ofEntries.
  - intros k c Hin. apply ofEntries_In, in_map_iff in Hin.
    destruct Hin as [c' [[= _ ->] Hc]].
    rewrite compareColumn_self; [reflexivity|].
    apply (existsb_false _ _ _ Ht Hc).
Qed.

Lemma compareView_self (v : View.t) :
  ViewDrift.definitionChanged (compareView v v) = false.
Proof. unfold compareView. simpl. rewrite String.eqb_refl. reflexivity. Qed.

(** C3, as the code has it.  Comparing a model with itself reports no drift
    when no maximum length, precision or scale of its columns is NaN: every
    missing, extra and modified list is empty, [hasChanges] is false and the
    summary is the no-drift sentence.  The comparison of numbers is [!==],
    under which NaN differs from itself. *)
Theorem compareSchemas_self (m : DatabaseSchema.t) :
  modelHasNaN m = false ->
  compareSchemas m m =
  SchemaDrift.mk false [] [] [] [] [] [] [] [] [] [] [] []
    "No schema drift detected. Database schema matches migrations.".
Proof.
  intros Hm. unfold compareSchemas.
  rewrite !keysNotIn_self.
  rewrite (modified_self _ compareTable hasTableChanges (NoDup_keys_ofEntries _)).
  2:{ intros k t Hin. apply ofEntries_In, in_map_iff in Hin.
      destruct Hin as [t' [[= _ ->] Ht]].
      apply compareTable_self, (existsb_false _ _ _ Hm Ht). }
  rewrite (modified_self _ compareView ViewDrift.definitionChanged
             (NoDup_keys_ofEntries _) (fun _ v _ => compareView_self v)).
  reflexivity.
Qed.

(** A model whose numbers are integers. *)
Lemma compareSchemas_self_witness :
  compareSchemas pricedSchema pricedSchema =
  SchemaDrift.mk false [] [] [] [] [] [] [] [] [] [] [] []
    "No schema drift detected. Database schema matches migrations.".
Proof. apply (compareSchemas_self pricedSchema). reflexivity. Defined.

(** A model with a column whose precision is NaN differs from itself: the
    table is reported as modified, for a change of [numericPrecision] from
    "NaN" to "NaN". *)
Lemma compareSchemas_self_counterexample :
  SchemaDrift.hasChanges (compareSchemas nanSchema nanSchema) = true
  /\ SchemaDrift.modifiedTables (compareSchemas nanSchema nanSchema)
     = [TableDrift.mk "public.items" [] []
          [ColumnDrift.mk "price" [ColumnChange.mk "numericPrecision" "NaN" "NaN"]]
          [] []]
  /\ SchemaDrift.summary (compareSchemas nanSchema nanSchema)
     = "Schema drift detected: 1 table(s) have structural changes.".
Proof. repeat split; vm_compute; reflexivity. Qed.

Lemma nonEmpty_nil {A : Type} (l : list A) : l = [] -> nonEmpty l = false.
Proof. intros ->. reflexivity. Qed.

Lemma nonEmpty_true {A : Type} (l : list A) : l <> [] -> nonEmpty l = true.
Proof. destruct l; [congruence | reflexivity]. Qed.

Lemma SchemaDrift_hasChanges (e a : DatabaseSchema.t) :
  let d := compareSchemas e a in
  SchemaDrift.hasChanges d =
  nonEmpty (SchemaDrift.missingTables d) || nonEmpty (SchemaDrift.extraTables d)
  || nonEmpty (SchemaDrift.modifiedTables d)
  || nonEmpty (SchemaDrift.missingIndexes d) || nonEmpty (SchemaDrift.extraIndexes d)
  || nonEmpty (SchemaDrift.missingViews d) || nonEmpty (SchemaDrift.extraViews d)
  || nonEmpty (SchemaDrift.modifiedViews d)
  || nonEmpty (SchemaDrift.missingTriggers d) || nonEmpty (SchemaDrift.extraTriggers d)
  || nonEmpty (SchemaDrift.missingRLSPolicies d)
  || nonEmpty (SchemaDrift.extraRLSPolicies d).
Proof. reflexivity. Qed.

Lemma SchemaDrift_summary (e a : DatabaseSchema.t) :
  let d := compareSchemas e a in
  SchemaDrift.summary d =
  generateSummary (SchemaDrift.hasChanges d) (SchemaDrift.missingTables d)
    (SchemaDrift.extraTables d) (SchemaDrift.modifiedTables d).
Proof. reflexivity. Qed.

(** C10.  When the table lists of the report are empty and some index, view,
    trigger or policy list is not, [hasChanges] is true and the summary is
    the sentence with nothing between the colon and the full stop. *)
Theorem summary_names_tables_only (expected actual : DatabaseSchema.t) :
  let d := compareSchemas expected actual in
  SchemaDrift.missingTables d = [] ->
  SchemaDrift.extraTables d = [] ->
  SchemaDrift.modifiedTables d = [] ->
  SchemaDrift.missingIndexes d <> [] \/ SchemaDrift.extraIndexes d <> []
  \/ SchemaDrift.missingViews d <> [] \/ SchemaDrift.extraViews d <> []
  \/ SchemaDrift.modifiedViews d <> []
  \/ SchemaDrift.missingTriggers d <> [] \/ SchemaDrift.extraTriggers d <> []
  \/ SchemaDrift.missingRLSPolicies d <> []
  \/ SchemaDrift.extraRLSPolicies d <> [] ->
  SchemaDrift.hasChanges d = true
  /\ SchemaDrift.summary d = "Schema drift detected: .".
Proof.
  intros d Hm He Hmod Hother.
  assert (Hc : SchemaDrift.hasChanges d = true).
  { pose proof (SchemaDrift_hasChanges expected actual) as E.
    cbv zeta in E. fold d in E. rewrite E.
    rewrite (nonEmpty_nil _ Hm), (nonEmpty_nil _ He), (nonEmpty_nil _ Hmod).
    repeat match goal with
           | H : _ \/ _ |- _ => destruct H as [H|H]
           end;
      match goal with
      | H : _ <> [] |- _ => rewrite (nonEmpty_true _ H)
      end; rewrite ?orb_true_r; reflexivity. }
  split; [assumption|].
  pose proof (SchemaDrift_summary expected actual) as E.
  cbv zeta in E. fold d in E. rewrite E.
  rewrite Hc, Hm, He, Hmod. reflexivity.
Qed.

(** An index that only the database has: the summary names nothing. *)
Lemma summary_names_tables_only_witness :
  SchemaDrift.hasChanges (compareSchemas emptySchema oneIndex) = true
  /\ SchemaDrift.summary (compareSchemas emptySchema oneIndex)
     = "Schema drift detected: .".
Proof.
  apply (summary_names_tables_only emptySchema oneIndex).
  - reflexivity.
  - reflexivity.
  - reflexivity.
  - right. left. vm_compute. discriminate.
Defined.

End DiffFacts.

(** ** Sorting *)

Module SortFacts.
Section Sort.
Context {A : Type} (le : A -> A -> bool).

Lemma insert_perm (x : A) (l : list A) : Permutation (JsSort.insert le x l) (x :: l).
Proof.
  induction l as [|y l IH]; simpl; [reflexivity|].
  destruct (le x y); [reflexivity|].
  rewrite IH. apply perm_swap.
Qed.

Lemma sort_perm (l : list A) : Permutation (JsSort.sort le l) l.
Proof.
  induction l as [|x l IH]; simpl; [reflexivity|].
  rewrite insert_perm, IH. reflexivity.
Qed.

Hypothesis le_total : forall a b, le a b = false -> le b a = true.

Lemma insert_sorted (x : A) (l : list A) :
  Sorted (fun a b => le a b = true) l ->
  Sorted (fun a b => le a b = true) (JsSort.insert le x l).
Proof.
  induction l as [|y l IH]; intros Hs; simpl.
  - repeat constructor.
  - destruct (le x y) eqn:E.
    + constructor; [assumption | constructor; assumption].
    + inversion Hs as [|? ? Hs' Hhd]; subst.
      constructor; [apply IH, Hs'|].
      destruct l as [|z l]; simpl.
      * constructor. apply le_total, E.
      * destruct (le x z); constructor.
        -- apply le_total, E.
        -- inversion Hhd; assumption.
Qed.

Lemma sort_sorted (l : list A) : Sorted (fun a b => le a b = true) (JsSort.sort le l).
Proof.
  induction l as [|x l IH]; simpl; [constructor | apply insert_sorted, IH].
Qed.

(** A sorted list is left as it is. *)
Lemma sort_id (l : list A) :
  Sorted (fun a b => le a b = true) l -> JsSort.sort le l = l.
Proof.
  induction l as [|x l IH]; intros Hs; [reflexivity|].
  inversion Hs as [|? ? Hs' Hhd]; subst. simpl. rewrite IH by assumption.
  destruct l as [|y l]; [reflexivity|].
  inversion Hhd as [|? ? Hxy]; subst. simpl. rewrite Hxy. reflexivity.
Qed.
End Sort.
End SortFacts.

(** ** The migration history *)

Module HistoryFacts.
Import MigrationParser Support.






End HistoryFacts.

(** ** Loading the directory *)

Module LoaderFacts.
Import MigrationParser Support.

(** C8.  When listing the directory fails, the loader returns the empty
    list if the failure is ENOENT (the directory does not exist) and fails
    with the same error otherwise. *)
Theorem parseMigrationFiles_readdir_failure
    (fs : Fs.t) (dir : string) (e : Fs.error) :
  Fs.readdir fs dir = Fs.Throw e ->
  (Fs.code e = "ENOENT" -> parseMigrationFiles fs dir = Fs.Ok [])
  /\ (Fs.code e <> "ENOENT" -> parseMigrationFiles fs dir = Fs.Throw e).
Proof.
  intros Hdir. unfold parseMigrationFiles. rewrite Hdir. simpl.
  split; intros Hcode.
  - rewrite Hcode. reflexivity.
  - apply String.eqb_neq in Hcode. rewrite Hcode. reflexivity.
Qed.

(** The same handler receives the failures of [readFile]: when the first
    file to be read fails, the loader returns the empty list for ENOENT and
    fails with the same error otherwise. *)
Lemma parseMigrationFiles_readFile_failure
    (fs : Fs.t) (dir : string) (names : list string) (f : string)
    (others : list string) (e : Fs.error) :
  Fs.readdir fs dir = Fs.Ok names ->
  filter hasSqlSuffix names = f :: others ->
  Fs.readFile fs (Fs.join dir f) = Fs.Throw e ->
  parseMigrationFiles fs dir
  = if String.eqb (Fs.code e) "ENOENT" then Fs.Ok [] else Fs.Throw e.
Proof.
  intros Hdir Hnames Hread. unfold parseMigrationFiles. rewrite Hdir. simpl.
  fold hasSqlSuffix. rewrite Hnames. simpl. rewrite Hread. reflexivity.
Qed.

(** A directory that does not exist, and one that may not be read. *)
Lemma parseMigrationFiles_readdir_failure_witness :
  parseMigrationFiles sampleFs "nowhere" = Fs.Ok []
  /\ parseMigrationFiles deniedFs "migrations" = Fs.Throw (Fs.mkError "EACCES").
Proof.
  split.
  - apply (parseMigrationFiles_readdir_failure sampleFs "nowhere"
             (Fs.mkError "ENOENT")); reflexivity.
  - apply (parseMigrationFiles_readdir_failure deniedFs "migrations"
             (Fs.mkError "EACCES")); [reflexivity | discriminate].
Defined.

End LoaderFacts.

(** ** The regular expression matcher *)

Module RegexFacts.

Lemma substring_prefix (a b : string) : substring 0 (String.length a) (a ++ b) = a.
Proof. induction a as [|c a IH]; simpl; [destruct b; reflexivity | rewrite IH; reflexivity]. Qed.

Lemma leadingRun_afterRun (p : ascii -> bool) (s : string) :
  leadingRun p s ++ afterRun p s = s.
Proof.
  induction s as [|c s IH]; simpl; [reflexivity|].
  destruct (p c); simpl; [rewrite IH|]; reflexivity.
Qed.

Lemma leadingRun_all (p : ascii -> bool) (s : string) :
  allOf p s = true -> leadingRun p s = s /\ afterRun p s = "".
Proof.
  induction s as [|c s IH]; simpl; [auto|].
  destruct (p c); simpl; [|discriminate].
  intros H. destruct (IH H) as [-> ->]. auto.
Qed.

(** The greedy star takes the whole leading run when the continuation
    accepts what follows it. *)
Lemma star_greedy (p : ascii -> bool) (s : string) (i : nat) (c : caps) (k : cont) :
  k (i + String.length (leadingRun p s)) (afterRun p s) c <> None ->
  star p i s c k = k (i + String.length (leadingRun p s)) (afterRun p s) c.
Proof.
  revert i. induction s as [|b s IH]; intros i Hk; simpl in *.
  - rewrite Nat.add_0_r in *. reflexivity.
  - destruct (p b); simpl in *.
    + rewrite Nat.add_succ_r in *. specialize (IH (S i)). simpl in IH.
      rewrite IH by assumption.
      destruct (k (S (i + String.length (leadingRun p s))) (afterRun p s) c);
        [reflexivity | congruence].
    + rewrite Nat.add_0_r in *. reflexivity.
Qed.

Lemma star_stop (p : ascii -> bool) (b : ascii) (s : string) (i : nat) (c : caps)
    (k : cont) :
  p b = false -> star p i (String b s) c k = k i (String b s) c.
Proof. intros H. simpl. rewrite H. reflexivity. Qed.

Lemma sameChar_refl (ic : bool) (a : ascii) : sameChar ic a a = true.
Proof. unfold sameChar. destruct ic; apply Ascii.eqb_refl. Qed.

(** A literal followed by its own text. *)
Lemma run_lit (ic : bool) (l rest : string) (i : nat) (c : caps) (k : cont) :
  run ic (lit l) i (l ++ rest) c k = k (i + String.length l) rest c.
Proof.
  revert i. induction l as [|a l IH]; intros i; simpl.
  - rewrite Nat.add_0_r. reflexivity.
  - rewrite sameChar_refl, IH, Nat.add_succ_r. reflexivity.
Qed.

(** An expression anchored at the start matches at index 0 or nowhere. *)
Lemma search_Bol_later (ic : bool) (r : regex) (s : string) (i : nat) :
  search ic (Seq Bol r) (S i) s = None.
Proof.
  revert i. induction s as [|b s IH]; intros i; simpl; [reflexivity|].
  apply IH.
Qed.

Lemma search_Bol (ic : bool) (r : regex) (s : string) :
  search ic (Seq Bol r) 0 s = run ic r 0 s [] (accept).
Proof.
  destruct s as [|b s]; simpl.
  - destruct (run ic r 0 "" [] accept); reflexivity.
  - rewrite search_Bol_later. destruct (run ic r 0 (String b s) [] accept); reflexivity.
Qed.

Lemma isWord_not_space (b : ascii) : isWord b = true -> isWhiteSpace b = false.
Proof.
  destruct b as [[] [] [] [] [] [] [] []]; vm_compute; congruence.
Qed.

Lemma isDigit_isWord (b : ascii) : isDigit b = true -> isWord b = true.
Proof.
  destruct b as [[] [] [] [] [] [] [] []]; vm_compute; congruence.
Qed.

(** A literal followed by white space matches nowhere in a run of word
    characters that ends the input. *)
Lemma run_lit_space_word (ic : bool) (l n : string) (i : nat) (c : caps) (k : cont) :
  allOf isWord n = true ->
  run ic (lit l) i n c (fun i' s' c' => run ic ws1 i' s' c' k) = None.
Proof.
  revert n i. induction l as [|a l IH]; intros n i Hn; simpl.
  - destruct n as [|b n]; [reflexivity|].
    simpl in Hn. apply andb_true_iff in Hn. destruct Hn as [Hb _].
    rewrite (isWord_not_space b Hb). reflexivity.
  - destruct n as [|b n]; [reflexivity|].
    simpl in Hn. apply andb_true_iff in Hn. destruct Hn as [_ Hn].
    destruct (sameChar ic a b); [apply IH; assumption | reflexivity].
Qed.

(** [\w+] on a run of word characters that ends the input, with a
    continuation that accepts there. *)
Lemma run_word_all (ic : bool) (n : string) (i : nat) (c : caps) (k : cont) :
  allOf isWord n = true -> n <> "" ->
  k (i + String.length n) "" c <> None ->
  run ic word1 i n c k = k (i + String.length n) "" c.
Proof.
  intros Hn Hne Hk. destruct n as [|b n]; [congruence|].
  simpl in Hn. apply andb_true_iff in Hn. destruct Hn as [Hb Hn].
  simpl. rewrite Hb.
  destruct (leadingRun_all isWord n Hn) as [Hrun Hafter].
  simpl String.length in *. rewrite Nat.add_succ_r in *.
  rewrite star_greedy; rewrite Hrun, Hafter; simpl; [reflexivity | exact Hk].
Qed.

End RegexFacts.

(** ** Versions and duplicates *)

Module VersionFacts.
Import MigrationParser Support RegexFacts.

(** The version of a file name is its leading run of digits, when there is
    one. *)
Lemma extractVersion_spec (filename : string) :
  extractVersion filename =
  match filename with
  | String c _ => if isDigit c then Some (leadingRun isDigit filename) else None
  | "" => None
  end.
Proof.
  unfold extractVersion, jsMatch, reVersion, seqs. simpl fold_right.
  rewrite search_Bol. destruct filename as [|b s]; [reflexivity|].
  simpl. destruct (isDigit b) eqn:Hb; [|reflexivity].
  rewrite star_greedy by discriminate.
  unfold groupOf. simpl.
  rewrite <- (leadingRun_afterRun isDigit s) at 2.
  rewrite substring_prefix. reflexivity.
Qed.

Lemma extractVersion_nonempty (filename v : string) :
  extractVersion filename = Some v -> v <> "".
Proof.
  rewrite extractVersion_spec. destruct filename as [|b s]; [discriminate|].
  destruct (isDigit b) eqn:Hb; [|discriminate].
  simpl. rewrite Hb. intros [= <-]. discriminate.
Qed.

Lemma version_parseMigrationContent (filename content : string) :
  ParsedMigration.version (parseMigrationContent filename content)
  = leadingRun isDigit filename.
Proof.
  unfold parseMigrationContent.
  destruct (parseMigrationSections content) as [u d]. simpl.
  rewrite extractVersion_spec. destruct filename as [|b s]; [reflexivity|].
  simpl. destruct (isDigit b); reflexivity.
Qed.

Lemma versionOf_loaded (file : MigrationFile.t) (v : string) :
  isLoaded file ->
  extractVersion (MigrationFile.filename file) = Some v ->
  versionOf file = v.
Proof.
  intros [Hl _] Hv. unfold versionOf. rewrite Hl. unfold loaded. simpl.
  rewrite version_parseMigrationContent.
  rewrite extractVersion_spec in Hv.
  destruct (MigrationFile.filename file) as [|b s]; [discriminate|].
  destruct (isDigit b); [|discriminate]. congruence.
Qed.

(** *** The counter table *)

Lemma get_set_same (o : JsObject.t) (k : string) (n : nat) :
  JsObject.get (JsObject.set o k n) k = Some n.
Proof.
  induction o as [|[k' n'] o IH]; simpl.
  - rewrite String.eqb_refl. reflexivity.
  - destruct (String.eqb k' k) eqn:E; simpl; rewrite E; [reflexivity | exact IH].
Qed.

Lemma get_set_other (o : JsObject.t) (k k' : string) (n : nat) :
  k <> k' -> JsObject.get (JsObject.set o k n) k' = JsObject.get o k'.
Proof.
  intros Hk. induction o as [|[k0 n0] o IH]; simpl.
  - apply String.eqb_neq in Hk. rewrite Hk. reflexivity.
  - destruct (String.eqb k0 k) eqn:E; simpl.
    + apply String.eqb_eq in E. subst k0.
      apply String.eqb_neq in Hk. rewrite Hk. reflexivity.
    + rewrite IH. reflexivity.
Qed.

Lemma get_names (o : JsObject.t) (k : string) (n : nat) :
  JsObject.get o k = Some n -> In k (map fst o).
Proof.
  induction o as [|[k' n'] o IH]; simpl; [discriminate|].
  destruct (String.eqb k' k) eqn:E.
  - apply String.eqb_eq in E. auto.
  - auto.
Qed.

Lemma keys_names (o : JsObject.t) (k : string) :
  In k (JsObject.keys o) <-> In k (map fst o).
Proof.
  unfold JsObject.keys. rewrite in_app_iff.
  split.
  - intros [H|H].
    + apply (Permutation_in _ (SortFacts.sort_perm _ _)) in H.
      apply filter_In in H. tauto.
    + apply filter_In in H. tauto.
  - intros H. destruct (JsObject.isArrayIndex k) eqn:E.
    + left. apply (Permutation_in _ (Permutation_sym (SortFacts.sort_perm _ _))).
      apply filter_In. auto.
    + right. apply filter_In. rewrite E. auto.
Qed.

Lemma analyzeStep_counts (st : MigrationAnalysis.t * JsObject.t)
    (file : MigrationFile.t) (v : string) :
  v <> "" ->
  countOf (snd (analyzeStep st file)) v
  = countOf (snd st) v + (if String.eqb (versionOf file) v then 1 else 0).
Proof.
  intros Hv. destruct st as [a o]. unfold analyzeStep. simpl.
  fold (versionOf file).
  destruct (String.eqb (versionOf file) v) eqn:E.
  - apply String.eqb_eq in E. rewrite E.
    apply String.eqb_neq in Hv. rewrite Hv. simpl.
    unfold countOf. rewrite get_set_same. reflexivity.
  - destruct (String.eqb (versionOf file) "") eqn:E0; simpl; [lia|].
    unfold countOf. rewrite get_set_other by (apply String.eqb_neq; exact E). lia.
Qed.

Lemma fold_analyzeStep_counts (files : list MigrationFile.t)
    (st : MigrationAnalysis.t * JsObject.t) (v : string) :
  v <> "" ->
  countOf (snd (fold_left analyzeStep files st)) v
  = countOf (snd st) v + countVersion v files.
Proof.
  intros Hv. revert st. induction files as [|f files IH]; intros st.
  - unfold countVersion. simpl. lia.
  - simpl fold_left. rewrite IH, analyzeStep_counts by assumption.
    unfold countVersion. simpl.
    destruct (String.eqb (versionOf f) v); simpl; lia.
Qed.

Lemma fold_analyzeStep_fields (files : list MigrationFile.t)
    (st : MigrationAnalysis.t * JsObject.t) :
  MigrationAnalysis.totalFiles (fst (fold_left analyzeStep files st))
  = MigrationAnalysis.totalFiles (fst st)
  /\ MigrationAnalysis.migrationChain (fst (fold_left analyzeStep files st))
     = (MigrationAnalysis.migrationChain (fst st)
        ++ map toMigration (filter isValid files))%list.
Proof.
  revert st. induction files as [|f files IH]; intros st; simpl.
  - rewrite app_nil_r. auto.
  - destruct (IH (analyzeStep st f)) as [H1 H2]. rewrite H1, H2.
    destruct st as [a o]. unfold analyzeStep. simpl. fold (isValid f).
    destruct (isValid f); simpl; [rewrite <- app_assoc|]; auto.
Qed.

Lemma two_positions {A : Type} (P : A -> bool) (l : list A) (i j : nat) (a b : A) :
  nth_error l i = Some a -> nth_error l j = Some b -> i <> j ->
  P a = true -> P b = true -> 2 <= List.length (filter P l).
Proof.
  assert (one : forall l i a, nth_error l i = Some a -> P a = true ->
                              1 <= List.length (filter P l)).
  { clear. induction l as [|x l IH]; intros [|i] a H Ha; simpl in *;
      try discriminate.
    - injection H as ->. rewrite Ha. simpl. lia.
    - specialize (IH _ _ H Ha). destruct (P x); simpl; lia. }
  revert i j. induction l as [|x l IH]; intros [|i] [|j] Hi Hj Hij Ha Hb;
    simpl in *; try discriminate; try congruence.
  - injection Hi as ->. rewrite Ha. simpl. specialize (one _ _ _ Hj Hb). lia.
  - injection Hj as ->. rewrite Hb. simpl. specialize (one _ _ _ Hi Ha). lia.
  - assert (i <> j) by congruence.
    specialize (IH _ _ Hi Hj H Ha Hb). destruct (P x); simpl; lia.
Qed.

End VersionFacts.

(** ** What the loader returns *)

Module LoadedFacts.
Import MigrationParser Support RegexFacts VersionFacts.

Lemma forEach_Forall2 {A B : Type} (f : A -> Fs.result B) (l : list A) (ys : list B) :
  Fs.forEach f l = Fs.Ok ys -> Forall2 (fun x y => f x = Fs.Ok y) l ys.
Proof.
  revert ys. induction l as [|x l IH]; intros ys H; simpl in H.
  - injection H as <-. constructor.
  - destruct (f x) as [y|e] eqn:Hx; simpl in H; [|discriminate].
    destruct (Fs.forEach f l) as [ys'|e]; simpl in H; [|discriminate].
    injection H as <-. constructor; [assumption | apply IH; reflexivity].
Qed.

Lemma forEach_total {A B : Type} (f : A -> Fs.result B) (l : list A) :
  (forall x, In x l -> exists y, f x = Fs.Ok y) ->
  exists ys, Fs.forEach f l = Fs.Ok ys.
Proof.
  induction l as [|x l IH]; intros H; simpl.
  - eexists. reflexivity.
  - destruct (H x (or_introl eq_refl)) as [y Hy]. rewrite Hy. simpl.
    destruct IH as [ys Hys]; [intros; apply H; right; assumption|].
    rewrite Hys. simpl. eexists. reflexivity.
Qed.

(** The body of the loop of [parseMigrationFiles]. *)
Lemma load_one (fs : Fs.t) (dir filename : string) (file : MigrationFile.t) :
  Fs.bind (Fs.readFile fs (Fs.join dir filename))
    (fun content =>
       Fs.Ok (MigrationFile.mk filename content
                (parseMigrationContent filename content))) = Fs.Ok file ->
  file = loaded filename (MigrationFile.content file)
  /\ MigrationFile.filename file = filename.
Proof.
  destruct (Fs.readFile fs (Fs.join dir filename)) as [content|e]; simpl;
    [|discriminate].
  intros [= <-]. split; reflexivity.
Qed.

Lemma Forall2_loaded (fs : Fs.t) (dir : string) (names : list string)
    (files : list MigrationFile.t) :
  Forall2
    (fun filename file =>
       Fs.bind (Fs.readFile fs (Fs.join dir filename))
         (fun content =>
            Fs.Ok (MigrationFile.mk filename content
                     (parseMigrationContent filename content))) = Fs.Ok file)
    names files ->
  map MigrationFile.filename files = names
  /\ Forall (fun file => file = loaded (MigrationFile.filename file)
                                  (MigrationFile.content file)) files.
Proof.
  induction 1 as [|x y l l' Hxy _ [IH1 IH2]]; simpl; [auto|].
  destruct (load_one _ _ _ _ Hxy) as [H1 H2].
  split; [congruence|]. constructor; [congruence | assumption].
Qed.

(** Every record returned by the loader was built from an entry with the
    suffix [.sql] and the text of that file. *)
Lemma parseMigrationFiles_loaded (fs : Fs.t) (dir : string)
    (files : list MigrationFile.t) :
  parseMigrationFiles fs dir = Fs.Ok files -> Forall isLoaded files.
Proof.
  unfold parseMigrationFiles.
  destruct (Fs.readdir fs dir) as [names|e]; simpl.
  2:{ destruct (String.eqb (Fs.code e) "ENOENT"); [|discriminate].
      intros [= <-]. constructor. }
  destruct (Fs.forEach _ _) as [loadedFiles|e] eqn:Hload; simpl.
  2:{ destruct (String.eqb (Fs.code e) "ENOENT"); [|discriminate].
      intros [= <-]. constructor. }
  intros [= <-].
  apply forEach_Forall2, Forall2_loaded in Hload. destruct Hload as [Hnames Hl].
  apply Forall_forall. intros file Hin.
  apply (Permutation_in _ (SortFacts.sort_perm _ _)) in Hin.
  split.
  - rewrite Forall_forall in Hl. apply Hl, Hin.
  - assert (Hf : In (MigrationFile.filename file)
                   (filter (fun f => endsWith f ".sql") names)).
    { rewrite <- Hnames. apply in_map, Hin. }
    apply filter_In in Hf. tauto.
Qed.

Lemma versionLe_total (a b : MigrationFile.t) :
  versionLe a b = false -> versionLe b a = true.
Proof.
  unfold versionLe, localeCompare.
  rewrite (String.compare_antisym
             (ParsedMigration.version (MigrationFile.parsed a))).
  destruct (String.compare (ParsedMigration.version (MigrationFile.parsed b))
              (ParsedMigration.version (MigrationFile.parsed a)));
    simpl; congruence.
Qed.

(** When every entry with the suffix can be read, the loader returns one
    record for each of them, in the order of their versions. *)
Lemma parseMigrationFiles_complete (fs : Fs.t) (dir : string) (names : list string) :
  Fs.readdir fs dir = Fs.Ok names ->
  (forall f, In f names -> hasSqlSuffix f = true ->
             exists content, Fs.readFile fs (Fs.join dir f) = Fs.Ok content) ->
  exists files,
    parseMigrationFiles fs dir = Fs.Ok files
    /\ Permutation (map MigrationFile.filename files) (filter hasSqlSuffix names)
    /\ Sorted (fun a b => versionLe a b = true) files.
Proof.
  intros Hdir Hread. unfold parseMigrationFiles. rewrite Hdir. simpl.
  match goal with
  | |- context [Fs.forEach ?f ?l] =>
      destruct (forEach_total f l) as [loadedFiles Hload]
  end.
  { intros x Hx. apply filter_In in Hx. destruct Hx as [Hx Hs].
    destruct (Hread x Hx Hs) as [content Hc]. rewrite Hc. simpl.
    eexists. reflexivity. }
  rewrite Hload. simpl. eexists. split; [reflexivity|].
  split; [|apply SortFacts.sort_sorted, versionLe_total].
  apply forEach_Forall2, Forall2_loaded in Hload. destruct Hload as [Hnames _].
  unfold hasSqlSuffix. rewrite <- Hnames.
  apply Permutation_map, SortFacts.sort_perm.
Qed.

Lemma noVersion_error (filename content : string) :
  leadingRun isDigit filename = "" ->
  In noVersionError (ParsedMigration.errors (parseMigrationContent filename content))
  /\ ParsedMigration.hasValidStructure (parseMigrationContent filename content)
     = false.
Proof.
  intros H. unfold parseMigrationContent.
  destruct (parseMigrationSections content) as [u d]. simpl.
  rewrite extractVersion_spec.
  destruct filename as [|b s]; [split; [left|]; reflexivity|].
  simpl in H. destruct (isDigit b); [discriminate|].
  split; [left|]; reflexivity.
Qed.

(** C7, as the code has it.  The loader keeps every directory entry whose
    name ends in [.sql], whatever the rest of the name: when each of those
    files can be read, the records returned are exactly those entries,
    sorted by version.  The version of a record is the leading run of decimal digits of
    its file name, of any length; it is empty when the name does not start
    with a digit, and the record then carries the error "Invalid filename
    format: unable to extract version". *)
Theorem loader_keeps_every_sql_file (fs : Fs.t) (dir : string) (names : list string) :
  Fs.readdir fs dir = Fs.Ok names ->
  (forall f, In f names -> hasSqlSuffix f = true ->
             exists content, Fs.readFile fs (Fs.join dir f) = Fs.Ok content) ->
  exists files,
    parseMigrationFiles fs dir = Fs.Ok files
    /\ Permutation (map MigrationFile.filename files) (filter hasSqlSuffix names)
    /\ Sorted (fun a b => versionLe a b = true) files
    /\ Forall
         (fun file =>
            versionOf file = leadingRun isDigit (MigrationFile.filename file)
            /\ (versionOf file = "" ->
                In noVersionError
                   (ParsedMigration.errors (MigrationFile.parsed file))
                /\ isValid file = false))
         files.
Proof.
  intros Hdir Hread.
  destruct (parseMigrationFiles_complete fs dir names Hdir Hread)
    as [files [Hf [Hp Hs]]].
  exists files. split; [assumption|]. split; [assumption|].
  split; [assumption|].
  pose proof (parseMigrationFiles_loaded fs dir files Hf) as Hl.
  rewrite Forall_forall in *. intros file Hin.
  destruct (Hl file Hin) as [Hfile _].
  assert (Hv : versionOf file = leadingRun isDigit (MigrationFile.filename file)).
  { unfold versionOf. rewrite Hfile at 1. apply version_parseMigrationContent. }
  split; [assumption|].
  intros Hempty. rewrite Hv in Hempty.
  unfold isValid. rewrite Hfile. unfold loaded. simpl.
  apply noVersion_error, Hempty.
Qed.

(** The sample directory: three of its four [.sql] entries are loaded in
    version order after [notes.sql], whose version is empty. *)
Lemma loader_keeps_every_sql_file_witness :
  exists files,
    parseMigrationFiles sampleFs "migrations" = Fs.Ok files
    /\ Permutation (map MigrationFile.filename files)
         ["20240103000000_b.sql"; "notes.sql"; "20240101000000_a.sql";
          "20240101000000_c.sql"]
    /\ Sorted (fun a b => versionLe a b = true) files
    /\ Forall
         (fun file =>
            versionOf file = leadingRun isDigit (MigrationFile.filename file)
            /\ (versionOf file = "" ->
                In noVersionError
                   (ParsedMigration.errors (MigrationFile.parsed file))
                /\ isValid file = false))
         files.
Proof.
  apply (loader_keeps_every_sql_file sampleFs "migrations"
           ["20240103000000_b.sql"; "notes.sql"; "20240101000000_a.sql";
            "x.txt"; "20240101000000_c.sql"]).
  - reflexivity.
  - intros f _ _. eexists. reflexivity.
Defined.

(** The file [notes.sql] does not match the pattern of the specification,
    yet the loader returns a record for it, and the version of that record
    is not a string of fourteen digits. *)
Lemma loader_pattern_counterexample :
  exists files file,
    parseMigrationFiles sampleFs "migrations" = Fs.Ok files
    /\ In file files
    /\ MigrationFile.filename file = "notes.sql"
    /\ hasSqlSuffix "notes.sql" = true
    /\ matchesSpecFilename "notes.sql" = false
    /\ isVersion14 (versionOf file) = false.
Proof.
  eexists. eexists. split; [vm_compute; reflexivity|].
  split; [left; reflexivity|].
  repeat split; reflexivity.
Qed.

End LoadedFacts.

(** ** Duplicate versions *)

Module DuplicateFacts.
Import MigrationParser Support VersionFacts LoadedFacts.

(** A version carried by two files of the list is reported. *)
Lemma analyzeFiles_duplicate (files : list MigrationFile.t) (v : string) :
  v <> "" -> 2 <= countVersion v files ->
  In v (MigrationAnalysis.duplicateVersions (analyzeFiles files))
  /\ In (duplicateError v) (MigrationAnalysis.errors (analyzeFiles files)).
Proof.
  intros Hv Hcount. unfold analyzeFiles.
  pose proof (fold_analyzeStep_counts files
                (MigrationAnalysis.mk (List.length files) 0 0 0 [] [] [], [])
                v Hv) as Hc.
  destruct (fold_left analyzeStep files _) as [analysis versionCounts].
  simpl in *. unfold countOf in Hc.
  assert (Hdup : In v
            (filter
               (fun version =>
                  match JsObject.get versionCounts version with
                  | Some n => (1 <? n)%nat
                  | None => false
                  end)
               (JsObject.keys versionCounts))).
  { apply filter_In.
    destruct (JsObject.get versionCounts v) as [n|] eqn:Hget; [|simpl in Hc; lia].
    split.
    - apply keys_names. eapply get_names, Hget.
    - apply Nat.ltb_lt. simpl in Hc. lia. }
  split; [assumption|].
  apply in_or_app. right. apply in_map, Hdup.
Qed.

Lemma analyzeFiles_fields (files : list MigrationFile.t) :
  MigrationAnalysis.totalFiles (analyzeFiles files) = List.length files
  /\ MigrationAnalysis.migrationChain (analyzeFiles files)
     = map toMigration (filter isValid files).
Proof.
  unfold analyzeFiles.
  pose proof (fold_analyzeStep_fields files
                (MigrationAnalysis.mk (List.length files) 0 0 0 [] [] [], []))
    as [H1 H2].
  destruct (fold_left analyzeStep files _) as [analysis versionCounts].
  simpl in *. auto.
Qed.

(** C5.  When two of the loaded files have the same version, the analysis
    lists that version among the duplicates and has a DUPLICATE_VERSION
    error for it; the analysis still counts every loaded file and its chain
    holds every structurally valid one, the two colliding files included. *)
Theorem duplicate_version_reported
    (fs : Fs.t) (dir : string) (files : list MigrationFile.t)
    (i j : nat) (a b : MigrationFile.t) (v : string) :
  parseMigrationFiles fs dir = Fs.Ok files ->
  nth_error files i = Some a ->
  nth_error files j = Some b ->
  i <> j ->
  extractVersion (MigrationFile.filename a) = Some v ->
  extractVersion (MigrationFile.filename b) = Some v ->
  exists analysis,
    analyzeMigrations fs dir = Fs.Ok analysis
    /\ In v (MigrationAnalysis.duplicateVersions analysis)
    /\ In (MigrationError.mk "" DUPLICATE_VERSION
             ("Version " ++ v ++ " appears in multiple migration files"))
          (MigrationAnalysis.errors analysis)
    /\ MigrationAnalysis.totalFiles analysis = List.length files
    /\ MigrationAnalysis.migrationChain analysis
       = map toMigration (filter isValid files)
    /\ versionOf a = v /\ versionOf b = v.
Proof.
  intros Hfiles Ha Hb Hij Hva Hvb.
  pose proof (parseMigrationFiles_loaded fs dir files Hfiles) as Hl.
  rewrite Forall_forall in Hl.
  assert (Hla : versionOf a = v)
    by (apply versionOf_loaded; [apply Hl; eapply nth_error_In, Ha | exact Hva]).
  assert (Hlb : versionOf b = v)
    by (apply versionOf_loaded; [apply Hl; eapply nth_error_In, Hb | exact Hvb]).
  assert (Hne : v <> "") by (eapply extractVersion_nonempty, Hva).
  assert (Hcount : 2 <= countVersion v files).
  { unfold countVersion.
    apply (two_positions _ files i j a b Ha Hb Hij); apply String.eqb_eq;
      assumption. }
  exists (analyzeFiles files).
  unfold analyzeMigrations. rewrite Hfiles. simpl.
  destruct (analyzeFiles_duplicate files v Hne Hcount) as [Hd He].
  destruct (analyzeFiles_fields files) as [Ht Hc].
  repeat split; assumption.
Qed.

(** The sample directory has two files of version 20240101000000. *)
Lemma duplicate_version_reported_witness :
  exists analysis,
    analyzeMigrations sampleFs "migrations" = Fs.Ok analysis
    /\ In "20240101000000" (MigrationAnalysis.duplicateVersions analysis)
    /\ In (MigrationError.mk "" DUPLICATE_VERSION
             "Version 20240101000000 appears in multiple migration files")
          (MigrationAnalysis.errors analysis)
    /\ MigrationAnalysis.totalFiles analysis = 4
    /\ map Migration.filename (MigrationAnalysis.migrationChain analysis)
       = ["20240101000000_a.sql"; "20240101000000_c.sql"; "20240103000000_b.sql"].
Proof.
  destruct (duplicate_version_reported sampleFs "migrations"
              (JsSort.sort versionLe
                 (map (fun f => loaded f
                                  (formatMigrationContent "CREATE TABLE a;"
                                     "DROP TABLE a;"))
                    ["20240103000000_b.sql"; "notes.sql"; "20240101000000_a.sql";
                     "20240101000000_c.sql"]))
              1 2
              (loaded "20240101000000_a.sql"
                 (formatMigrationContent "CREATE TABLE a;" "DROP TABLE a;"))
              (loaded "20240101000000_c.sql"
                 (formatMigrationContent "CREATE TABLE a;" "DROP TABLE a;"))
              "20240101000000")
    as [analysis [H1 [H2 [H3 [H4 [H5 _]]]]]].
  - vm_compute. reflexivity.
  - vm_compute. reflexivity.
  - vm_compute. reflexivity.
  - discriminate.
  - vm_compute. reflexivity.
  - vm_compute. reflexivity.
  - exists analysis. rewrite H5.
    split; [exact H1|]. split; [exact H2|]. split; [exact H3|].
    split; [exact H4|]. vm_compute. reflexivity.
Defined.

End DuplicateFacts.

(** ** Strings: lines, trimming, occurrences *)

Module StringFacts.

Lemma append_assoc (a b c : string) : (a ++ b) ++ c = a ++ b ++ c.
Proof. induction a as [|x a IH]; simpl; [reflexivity | rewrite IH; reflexivity]. Qed.

Lemma append_nil_r (a : string) : a ++ "" = a.
Proof. induction a as [|x a IH]; simpl; [reflexivity | rewrite IH; reflexivity]. Qed.

Lemma split_nonempty (sep : ascii) (s : string) : split sep s <> [].
Proof.
  destruct s as [|c s]; simpl; [discriminate|].
  destruct (Ascii.eqb c sep); [discriminate|].
  destruct (split sep s); discriminate.
Qed.

(** Splitting at a separator that is there. *)
Lemma split_app (sep : ascii) (a b : string) :
  split sep (a ++ String sep b) = (split sep a ++ split sep b)%list.
Proof.
  induction a as [|c a IH]; simpl.
  - rewrite Ascii.eqb_refl. reflexivity.
  - destruct (Ascii.eqb c sep); [rewrite IH; reflexivity|].
    rewrite IH. pose proof (split_nonempty sep a) as Hne.
    destruct (split sep a); [congruence | reflexivity].
Qed.

(** Putting the line feeds back gives the text and one more line feed. *)
Lemma unlines_split (s : string) :
  Support.unlines (split LF s) = s ++ String LF "".
Proof.
  induction s as [|c s IH]; [reflexivity|].
  simpl split. destruct (Ascii.eqb c LF) eqn:E.
  - apply Ascii.eqb_eq in E. subst c.
    change (Support.unlines ("" :: split LF s))
      with (String LF (Support.unlines (split LF s))).
    rewrite IH. reflexivity.
  - pose proof (split_nonempty LF s) as Hne.
    destruct (split LF s) as [|h t]; [congruence|].
    change (Support.unlines (String c h :: t))
      with (String c (Support.unlines (h :: t))).
    rewrite IH. reflexivity.
Qed.

Lemma split_head (sep : ascii) (s h : string) (t : list string) :
  split sep s = h :: t -> exists b, s = h ++ b.
Proof.
  revert h t. induction s as [|c s IH]; intros h t; simpl.
  - intros [= <- <-]. exists "". reflexivity.
  - destruct (Ascii.eqb c sep).
    + intros [= <- <-]. exists (String c s). reflexivity.
    + destruct (split sep s) as [|h' t'] eqn:E.
      * intros [= <- <-]. exists s. reflexivity.
      * intros [= <- <-]. destruct (IH h' t' eq_refl) as [b ->].
        exists b. reflexivity.
Qed.

(** Every piece is a part of the text. *)
Lemma split_In (sep : ascii) (s l : string) :
  In l (split sep s) -> exists a b, s = a ++ l ++ b.
Proof.
  revert l. induction s as [|c s IH]; intros l; simpl.
  - intros [<-|[]]. exists "", "". reflexivity.
  - destruct (Ascii.eqb c sep).
    + intros [<-|H].
      * exists "", (String c s). reflexivity.
      * destruct (IH l H) as [a [b ->]]. exists (String c a), b. reflexivity.
    + pose proof (split_nonempty sep s) as Hne.
      destruct (split sep s) as [|h t] eqn:E; [congruence|].
      intros [<-|H].
      * destruct (split_head sep s h t E) as [b ->].
        exists "", b. reflexivity.
      * destruct (IH l (or_intror H)) as [a [b ->]].
        exists (String c a), b. reflexivity.
Qed.

Lemma startsWith_nil (s : string) : startsWith s "" = true.
Proof. destruct s; reflexivity. Qed.

Lemma startsWith_app (a b p : string) :
  startsWith a p = true -> startsWith (a ++ b) p = true.
Proof.
  revert a. induction p as [|x p IH]; intros a; [intros _; apply startsWith_nil|].
  destruct a as [|y a]; simpl; [discriminate|].
  rewrite !andb_true_iff. intros [H1 H2]. auto.
Qed.

Lemma includes_app_r (a s p : string) :
  includes s p = true -> includes (a ++ s) p = true.
Proof.
  intros H. induction a as [|x a IH]; simpl; [assumption|].
  rewrite IH. apply orb_true_r.
Qed.

Lemma includes_app_l (s b p : string) :
  includes s p = true -> includes (s ++ b) p = true.
Proof.
  induction s as [|x s IH].
  - intros H. destruct p; [|simpl in H; discriminate].
    simpl. destruct b; reflexivity.
  - simpl. rewrite !orb_true_iff. intros [H|H].
    + left. apply (startsWith_app (String x s) b p H).
    + right. apply IH, H.
Qed.

Lemma startsWith_includes (s p : string) :
  startsWith s p = true -> includes s p = true.
Proof. intros H. destruct s; simpl in *; rewrite H; reflexivity. Qed.

Lemma trimStart_suffix (s : string) : exists a, s = a ++ trimStart s.
Proof.
  induction s as [|c s [a IH]]; simpl.
  - exists "". reflexivity.
  - destruct (isWhiteSpace c).
    + exists (String c a). simpl. rewrite <- IH. reflexivity.
    + exists "". reflexivity.
Qed.

Lemma trimEnd_prefix (s : string) : exists b, s = trimEnd s ++ b.
Proof.
  induction s as [|c s [b IH]]; simpl.
  - exists "". reflexivity.
  - destruct (trimEnd s) as [|x r] eqn:E.
    + destruct (isWhiteSpace c).
      * exists (String c s). reflexivity.
      * exists b. simpl in *. rewrite <- IH. reflexivity.
    + exists b. simpl in *. rewrite <- IH. reflexivity.
Qed.

(** A line that starts, once trimmed, with [p] contains [p]. *)
Lemma trim_startsWith_includes (l p : string) :
  startsWith (trim l) p = true -> includes l p = true.
Proof.
  unfold trim. intros H.
  destruct (trimStart_suffix l) as [a Ha].
  destruct (trimEnd_prefix (trimStart l)) as [b Hb].
  rewrite Ha. apply includes_app_r. rewrite Hb.
  apply startsWith_includes, startsWith_app, H.
Qed.

(** No line of a text without [p] starts, once trimmed, with [p]. *)
Lemma lines_without (sep : ascii) (s p l : string) :
  includes s p = false -> In l (split sep s) -> startsWith (trim l) p = false.
Proof.
  intros Hs Hl. destruct (startsWith (trim l) p) eqn:E; [|reflexivity].
  apply trim_startsWith_includes in E.
  destruct (split_In sep s l Hl) as [a [b ->]].
  rewrite includes_app_r in Hs; [discriminate|].
  apply includes_app_l, E.
Qed.

(** *** Trimming *)

Lemma trimEnd_space (s w : string) :
  allOf isWhiteSpace w = true -> trimEnd (s ++ w) = trimEnd s.
Proof.
  intros Hw.
  assert (Hw0 : trimEnd w = "").
  { induction w as [|c w IH]; [reflexivity|].
    simpl in *. apply andb_true_iff in Hw. destruct Hw as [Hc Hw].
    rewrite (IH Hw), Hc. reflexivity. }
  induction s as [|c s IH]; simpl; [assumption|].
  rewrite IH. reflexivity.
Qed.

Lemma trimStart_space (s w : string) :
  allOf isWhiteSpace w = true ->
  trimStart (s ++ w) = trimStart s ++ w \/ (trimStart (s ++ w) = "" /\ trimStart s = "").
Proof.
  intros Hw. induction s as [|c s IH]; simpl.
  - right. split; [|reflexivity].
    induction w as [|c w IHw]; [reflexivity|].
    simpl in *. apply andb_true_iff in Hw. destruct Hw as [Hc Hw].
    rewrite Hc. apply IHw, Hw.
  - destruct (isWhiteSpace c); [exact IH | left; reflexivity].
Qed.

(** White space added at the end does not survive trimming. *)
Lemma trim_space (s w : string) :
  allOf isWhiteSpace w = true -> trim (s ++ w) = trim s.
Proof.
  intros Hw. unfold trim.
  destruct (trimStart_space s w Hw) as [H|[H1 H2]].
  - rewrite H. apply trimEnd_space, Hw.
  - rewrite H1, H2. reflexivity.
Qed.

(** *** Occurrences *)

Lemma startsWith_before (sep : ascii) (x b p : string) :
  includes p (String sep "") = false ->
  startsWith (x ++ String sep b) p = startsWith x p.
Proof.
  revert x. induction p as [|c p IH]; intros x Hp.
  - rewrite !startsWith_nil. reflexivity.
  - simpl in Hp. rewrite startsWith_nil, andb_true_r in Hp.
    apply orb_false_iff in Hp. destruct Hp as [Hc Hp].
    destruct x as [|d x]; simpl.
    + rewrite Ascii.eqb_sym, Hc. reflexivity.
    + rewrite IH by assumption. reflexivity.
Qed.

(** A pattern without the separator occurs in a text as often as in its
    two sides. *)
Lemma occurrences_app (sep : ascii) (a b p : string) :
  p <> "" -> includes p (String sep "") = false ->
  occurrences p (a ++ String sep b) = occurrences p a + occurrences p b.
Proof.
  intros Hne Hp. induction a as [|c a IH].
  - simpl append.
    change (occurrences p (String sep b))
      with ((if startsWith ("" ++ String sep b) p then 1 else 0) + occurrences p b).
    rewrite startsWith_before by assumption.
    destruct p; [congruence | reflexivity].
  - change (occurrences p (String c a ++ String sep b))
      with ((if startsWith (String c a ++ String sep b) p then 1 else 0)
            + occurrences p (a ++ String sep b)).
    rewrite startsWith_before by assumption. rewrite IH.
    change (occurrences p (String c a))
      with ((if startsWith (String c a) p then 1 else 0) + occurrences p a).
    lia.
Qed.

Lemma occurrences_none (p s : string) :
  includes s p = false -> occurrences p s = 0.
Proof.
  induction s as [|c s IH]; simpl; intros H; apply orb_false_iff in H;
    destruct H as [H1 H2]; rewrite H1; [reflexivity | rewrite IH; auto].
Qed.

End StringFacts.

(** ** Formatting and parsing the two sections *)

Module RoundTripFacts.
Import MigrationParser Support StringFacts.

Lemma sectionStep_plain (u d line : string) (sec : section) :
  startsWith (trim line) markerUp = false ->
  startsWith (trim line) markerDown = false ->
  sectionStep (u, d, sec) line =
  match sec with
  | up => (u ++ line ++ newline, d, sec)
  | down => (u, d ++ line ++ newline, sec)
  | none => (u, d, sec)
  end.
Proof. intros H1 H2. unfold sectionStep. rewrite H1, H2. reflexivity. Qed.

Lemma fold_section_up (lines : list string) (u d : string) :
  (forall l, In l lines ->
             startsWith (trim l) markerUp = false
             /\ startsWith (trim l) markerDown = false) ->
  fold_left sectionStep lines (u, d, up) = (u ++ unlines lines, d, up).
Proof.
  revert u. induction lines as [|l lines IH]; intros u H; cbn [fold_left unlines].
  - rewrite append_nil_r. reflexivity.
  - destruct (H l (or_introl eq_refl)) as [H1 H2].
    rewrite (sectionStep_plain u d l up H1 H2).
    rewrite IH by (intros; apply H; right; assumption).
    rewrite !append_assoc. reflexivity.
Qed.

Lemma fold_section_down (lines : list string) (u d : string) :
  (forall l, In l lines ->
             startsWith (trim l) markerUp = false
             /\ startsWith (trim l) markerDown = false) ->
  fold_left sectionStep lines (u, d, down) = (u, d ++ unlines lines, down).
Proof.
  revert d. induction lines as [|l lines IH]; intros d H; cbn [fold_left unlines].
  - rewrite append_nil_r. reflexivity.
  - destruct (H l (or_introl eq_refl)) as [H1 H2].
    rewrite (sectionStep_plain u d l down H1 H2).
    rewrite IH by (intros; apply H; right; assumption).
    rewrite !append_assoc. reflexivity.
Qed.

Lemma format_shape (upSql downSql : string) :
  formatMigrationContent upSql downSql
  = markerUp
    ++ String LF
         (upSql
          ++ String LF
               ("" ++ String LF (markerDown ++ String LF (downSql ++ String LF "")))).
Proof. reflexivity. Qed.

Lemma format_lines (upSql downSql : string) :
  split LF (formatMigrationContent upSql downSql)
  = ([markerUp] ++ split LF upSql ++ [""] ++ [markerDown]
     ++ split LF downSql ++ [""])%list.
Proof. rewrite format_shape, !split_app. reflexivity. Qed.

Lemma format_parse (upSql downSql : string) :
  includes upSql markerUp = false -> includes upSql markerDown = false ->
  includes downSql markerUp = false -> includes downSql markerDown = false ->
  parseMigrationSections (formatMigrationContent upSql downSql)
  = (trim upSql, trim downSql).
Proof.
  intros Huu Hud Hdu Hdd. unfold parseMigrationSections.
  rewrite format_lines, !fold_left_app.
  change (fold_left sectionStep [markerUp] ("", "", none)) with ("", "", up).
  rewrite fold_section_up
    by (intros l Hl; split; (eapply lines_without; [|exact Hl]; assumption)).
  change (fold_left sectionStep [""] ("" ++ unlines (split LF upSql), "", up))
    with (("" ++ unlines (split LF upSql)) ++ "" ++ newline, "", up).
  match goal with
  | |- context [fold_left sectionStep [markerDown] (?u, ?d, ?sec)] =>
      change (fold_left sectionStep [markerDown] (u, d, sec)) with (u, d, down)
  end.
  rewrite fold_section_down
    by (intros l Hl; split; (eapply lines_without; [|exact Hl]; assumption)).
  match goal with
  | |- context [fold_left sectionStep [""] (?u, ?d, down)] =>
      change (fold_left sectionStep [""] (u, d, down))
        with (u, d ++ "" ++ newline, down)
  end.
  rewrite !unlines_split. simpl append.
  rewrite !append_assoc.
  rewrite !trim_space by reflexivity. reflexivity.
Qed.

Lemma format_occurrences (upSql downSql p : string) :
  p <> "" -> includes p (String LF "") = false ->
  occurrences p (formatMigrationContent upSql downSql)
  = occurrences p markerUp + (occurrences p upSql
      + (occurrences p "" + (occurrences p markerDown
           + (occurrences p downSql + occurrences p "")))).
Proof.
  intros Hne Hp. rewrite format_shape.
  rewrite !(occurrences_app LF) by assumption. reflexivity.
Qed.

(** C4, as the code has it.  For sections that contain neither marker,
    parsing the formatted text gives back both sections trimmed, and the
    formatted text has exactly one occurrence of each marker. *)
Theorem format_parse_round_trip (upSql downSql : string) :
  includes upSql markerUp = false ->
  includes upSql markerDown = false ->
  includes downSql markerUp = false ->
  includes downSql markerDown = false ->
  parseMigrationSections (formatMigrationContent upSql downSql)
  = (trim upSql, trim downSql)
  /\ occurrences markerUp (formatMigrationContent upSql downSql) = 1
  /\ occurrences markerDown (formatMigrationContent upSql downSql) = 1.
Proof.
  intros Huu Hud Hdu Hdd.
  split; [apply format_parse; assumption|].
  rewrite !format_occurrences by (try discriminate; reflexivity).
  rewrite (occurrences_none markerUp upSql Huu),
    (occurrences_none markerUp downSql Hdu),
    (occurrences_none markerDown upSql Hud),
    (occurrences_none markerDown downSql Hdd).
  split; reflexivity.
Qed.

(** A table created and dropped. *)
Lemma format_parse_round_trip_witness :
  parseMigrationSections
    (formatMigrationContent "  CREATE TABLE a;" "DROP TABLE a;  ")
  = ("CREATE TABLE a;", "DROP TABLE a;")
  /\ occurrences markerUp
       (formatMigrationContent "  CREATE TABLE a;" "DROP TABLE a;  ") = 1
  /\ occurrences markerDown
       (formatMigrationContent "  CREATE TABLE a;" "DROP TABLE a;  ") = 1.
Proof.
  apply (format_parse_round_trip "  CREATE TABLE a;" "DROP TABLE a;  ");
    reflexivity.
Defined.

(** An up section with a line that is the down marker: what follows that
    line is parsed into the down section, and the formatted text has the
    down marker twice. *)
Lemma format_parse_counterexample :
  parseMigrationSections (formatMigrationContent upWithMarker "z")
  = ("x", "y" ++ newline ++ newline ++ "z")
  /\ parseMigrationSections (formatMigrationContent upWithMarker "z")
     <> (trim upWithMarker, trim "z")
  /\ occurrences markerDown (formatMigrationContent upWithMarker "z") = 2.
Proof.
  split; [vm_compute; reflexivity|].
  split; [vm_compute; discriminate | vm_compute; reflexivity].
Qed.

End RoundTripFacts.

(** ** Steps of the matcher *)

Module IndexFacts.
Import SchemaAnalyzer Support RegexFacts StringFacts.

Lemma run_Seq (ic : bool) (r1 r2 : regex) (i : nat) (s : string) (c : caps)
    (k : cont) :
  run ic (Seq r1 r2) i s c k
  = run ic r1 i s c (fun i' s' c' => run ic r2 i' s' c' k).
Proof. reflexivity. Qed.

Lemma run_Opt_fail (ic : bool) (r : regex) (i : nat) (s : string) (c : caps)
    (k : cont) :
  run ic r i s c k = None -> run ic (Opt r) i s c k = k i s c.
Proof. intros H. simpl. rewrite H. reflexivity. Qed.

Lemma run_Plus_cons (ic : bool) (p : ascii -> bool) (b : ascii) (s : string)
    (i : nat) (c : caps) (k : cont) :
  p b = true -> run ic (Plus p) i (String b s) c k = star p (S i) s c k.
Proof. intros H. simpl. rewrite H. reflexivity. Qed.

Lemma run_Grp (ic : bool) (n : nat) (r : regex) (i : nat) (s : string) (c : caps)
    (k : cont) :
  run ic (Grp n r) i s c k
  = run ic r i s c (fun i' s' c' => k i' s' ((n, substring 0 (i' - i) s) :: c')).
Proof. reflexivity. Qed.

Lemma isName_spec (n : string) :
  isName n = true <-> allOf isWord n = true /\ n <> "".
Proof.
  unfold isName. rewrite andb_true_iff, negb_true_iff, String.eqb_neq. tauto.
Qed.

Lemma isWord_not_semicolon (b : ascii) :
  isWord b = true -> Ascii.eqb b ";" = false.
Proof.
  destruct b as [[] [] [] [] [] [] [] []]; vm_compute; congruence.
Qed.

Lemma split_word (n : string) : allOf isWord n = true -> split ";" n = [n].
Proof.
  induction n as [|b n IH]; simpl; [reflexivity|].
  intros H. apply andb_true_iff in H. destruct H as [Hb Hn].
  rewrite (isWord_not_semicolon b Hb), (IH Hn). reflexivity.
Qed.

Lemma trimEnd_word (n : string) : allOf isWord n = true -> trimEnd n = n.
Proof.
  induction n as [|b n IH]; simpl; [reflexivity|].
  intros H. apply andb_true_iff in H. destruct H as [Hb Hn].
  rewrite (IH Hn). destruct n; [|reflexivity].
  rewrite (isWord_not_space b Hb). reflexivity.
Qed.

Lemma allOf_String p b s : allOf p (String b s) = true -> p b = true /\ allOf p s = true.
Proof. simpl. apply andb_true_iff. Qed.

Lemma isWord_not_dot (b : ascii) : isWord b = true -> sameChar true "." b = false.
Proof. destruct b as [[] [] [] [] [] [] [] []]; vm_compute; congruence. Qed.

(** [\w+] gives up on a run of word characters when the continuation
    refuses every run of word characters. *)
Lemma star_word_fail (t : string) (i : nat) (c : caps) (k : cont) :
  allOf isWord t = true ->
  (forall i' s', allOf isWord s' = true -> k i' s' c = None) ->
  star isWord i t c k = None.
Proof.
  revert i. induction t as [|b t IH]; intros i Ht Hk; simpl.
  - apply Hk. reflexivity.
  - destruct (allOf_String _ _ _ Ht) as [Hb Ht'].
    rewrite Hb, (IH (S i) Ht' Hk). simpl. apply Hk, Ht.
Qed.

Lemma run_Chr_cons (ic : bool) (a b : ascii) (s : string) (i : nat) (c : caps)
    (k : cont) :
  run ic (Chr a) i (String b s) c k = if sameChar ic a b then k (S i) s c else None.
Proof. reflexivity. Qed.

(** The optional qualifier finds no dot in a run of word characters. *)
Lemma qualifier_word (g : nat) (t : string) (i : nat) (c : caps) (k : cont) :
  allOf isWord t = true ->
  run true (qualifier g) i t c k = k i t c.
Proof.
  intros Ht. unfold qualifier. apply run_Opt_fail.
  rewrite run_Seq, run_Grp. unfold word1.
  destruct t as [|b t]; [reflexivity|].
  destruct (allOf_String _ _ _ Ht) as [Hb Ht'].
  rewrite run_Plus_cons by assumption.
  apply star_word_fail; [assumption|].
  intros i' s' Hs'. destruct s' as [|b' s']; [reflexivity|].
  destruct (allOf_String _ _ _ Hs') as [Hb' _].
  rewrite run_Chr_cons, (isWord_not_dot b' Hb'). reflexivity.
Qed.

(** [\s+] on one space followed by a word character. *)
Lemma run_space_word (b : ascii) (s : string) (i : nat) (c : caps) (k : cont) :
  isWord b = true ->
  run true ws1 i (String " " (String b s)) c k = k (S i) (String b s) c.
Proof.
  intros Hb. unfold ws1. rewrite run_Plus_cons by reflexivity.
  apply star_stop, isWord_not_space, Hb.
Qed.


Lemma allOf_app (p : ascii -> bool) (a b : string) :
  allOf p (a ++ b) = allOf p a && allOf p b.
Proof.
  induction a as [|c a IH]; simpl; [reflexivity|].
  rewrite IH, andb_assoc. reflexivity.
Qed.

Lemma allOf_word_no_semicolon (n : string) :
  allOf isWord n = true -> allOf (fun c => negb (Ascii.eqb c ";")) n = true.
Proof.
  induction n as [|b n IH]; simpl; [reflexivity|].
  intros H. apply andb_true_iff in H. destruct H as [Hb Hn].
  rewrite (isWord_not_semicolon b Hb), (IH Hn). reflexivity.
Qed.

Lemma split_single (s : string) :
  allOf (fun c => negb (Ascii.eqb c ";")) s = true -> split ";" s = [s].
Proof.
  induction s as [|b s IH]; simpl; [reflexivity|].
  intros H. apply andb_true_iff in H. destruct H as [Hb Hs].
  apply negb_true_iff in Hb. rewrite Hb, (IH Hs). reflexivity.
Qed.

End IndexFacts.

(** ** The diff engine: what a report says *)

Module DiffMore.
Import SchemaAnalyzer Support DiffFacts.

Section MapMore.
Context {V : Type}.
Implicit Types (m : JsMap.t V) (k : string) (v : V).

Lemma keys_fold_In (entries : list (string * V)) m k :
  In k (JsMap.keys (fold_left (fun m e => JsMap.set m (fst e) (snd e)) entries m))
  <-> In k (JsMap.keys m) \/ In k (map fst entries).
Proof.
  revert m. induction entries as [|e es IH]; intros m; simpl; [tauto|].
  rewrite IH, keys_set.
  destruct (JsMap.has m (fst e)) eqn:E.
  - apply has_keys in E. split; [tauto|]. intros [H|[<-|H]]; auto.
  - rewrite in_app_iff. simpl. tauto.
Qed.

Lemma keys_ofEntries_In (entries : list (string * V)) k :
  In k (JsMap.keys (JsMap.ofEntries entries)) <-> In k (map fst entries).
Proof. unfold JsMap.ofEntries. rewrite keys_fold_In. simpl. tauto. Qed.

Lemma has_ofEntries (entries : list (string * V)) k :
  JsMap.has (JsMap.ofEntries entries) k = true <-> In k (map fst entries).
Proof. rewrite has_keys. apply keys_ofEntries_In. Qed.

Lemma get_has m k v : JsMap.get m k = Some v -> JsMap.has m k = true.
Proof.
  induction m as [|[k' v'] m IH]; simpl; [discriminate|].
  destruct (String.eqb k' k); [reflexivity | exact IH].
Qed.

(** With distinct keys the map holds the entries as they come. *)
Lemma fold_set_NoDup (entries : list (string * V)) m :
  NoDup (JsMap.keys m ++ map fst entries) ->
  fold_left (fun m e => JsMap.set m (fst e) (snd e)) entries m
  = (m ++ entries)%list.
Proof.
  revert m. induction entries as [|[k v] es IH]; intros m H; simpl.
  - rewrite app_nil_r. reflexivity.
  - assert (Hset : JsMap.set m k v = (m ++ [(k, v)])%list).
    { clear IH. induction m as [|[k' v'] m IHm]; simpl; [reflexivity|].
      simpl in H. inversion H as [|? ? Hn Hd]; subst.
      destruct (String.eqb k' k) eqn:E.
      - apply String.eqb_eq in E. subst. exfalso. apply Hn.
        apply in_or_app. right. left. reflexivity.
      - rewrite IHm by assumption. reflexivity. }
    rewrite Hset, IH.
    + rewrite <- app_assoc. reflexivity.
    + unfold JsMap.keys in *. rewrite map_app, <- app_assoc. exact H.
Qed.

Lemma ofEntries_NoDup (entries : list (string * V)) :
  NoDup (map fst entries) -> JsMap.ofEntries entries = entries.
Proof. intros H. unfold JsMap.ofEntries. rewrite fold_set_NoDup; auto. Qed.
End MapMore.

Lemma keysNotIn_In {V W : Type} (a : list (string * V)) (b : list (string * W))
    (k : string) :
  In k (keysNotIn (JsMap.ofEntries a) (JsMap.ofEntries b))
  <-> In k (map fst a) /\ ~ In k (map fst b).
Proof.
  unfold keysNotIn. rewrite filter_In, keys_ofEntries_In, negb_true_iff.
  split; intros [H1 H2]; (split; [assumption|]).
  - intros Hin. apply has_ofEntries in Hin. congruence.
  - destruct (JsMap.has (JsMap.ofEntries b) k) eqn:E; [|reflexivity].
    exfalso. apply H2, has_ofEntries, E.
Qed.

Lemma keysNotIn_NoDup {V W : Type} (a : list (string * V)) (b : JsMap.t W) :
  NoDup (keysNotIn (JsMap.ofEntries a) b).
Proof. unfold keysNotIn. apply NoDup_filter, NoDup_keys_ofEntries. Qed.

Lemma map_fst_entries {A V : Type} (key : A -> string) (f : A -> V) (l : list A) :
  map fst (map (fun x => (key x, f x)) l) = map key l.
Proof. rewrite map_map. reflexivity. Qed.

Lemma keysNotIn_nil_l {V W : Type} (b : JsMap.t W) : keysNotIn (@nil (string * V)) b = [].
Proof. reflexivity. Qed.

Lemma nonEmpty_false {A : Type} (l : list A) : nonEmpty l = false -> l = [].
Proof. destruct l; [reflexivity | discriminate]. Qed.

Lemma same_keys (a b : list string) :
  (forall k, ~ (In k a /\ ~ In k b)) -> forall k, In k a -> In k b.
Proof.
  intros H k Ha. destruct (in_dec string_dec k b) as [Hb|Hb]; [assumption|].
  exfalso. apply (H k). auto.
Qed.

Lemma keysNotIn_nil_In {A B : Type} (ka : A -> string) (kb : B -> string)
    (la : list A) (lb : list B) :
  keysNotIn (JsMap.ofEntries (map (fun x => (ka x, x)) la))
    (JsMap.ofEntries (map (fun x => (kb x, x)) lb)) = [] ->
  forall k, In k (map ka la) -> In k (map kb lb).
Proof.
  intros H. apply same_keys. intros k Hk.
  rewrite <- (map_fst_entries ka (fun x => x) la),
    <- (map_fst_entries kb (fun x => x) lb) in Hk.
  apply keysNotIn_In in Hk. rewrite H in Hk. exact Hk.
Qed.

(** X1.  The missing and extra lists of a comparison are exact: a key is
    reported missing exactly when some table (index, view, trigger, policy)
    of the expected model has it and none of the actual model has, and extra
    in the symmetric case.  No list names a key twice, also when a model
    repeats keys. *)
Theorem compareSchemas_keys (expected actual : DatabaseSchema.t) :
  let d := compareSchemas expected actual in
  (forall k,
      (In k (SchemaDrift.missingTables d)
       <-> In k (map tableKey (DatabaseSchema.tables expected))
           /\ ~ In k (map tableKey (DatabaseSchema.tables actual)))
      /\ (In k (SchemaDrift.extraTables d)
          <-> In k (map tableKey (DatabaseSchema.tables actual))
              /\ ~ In k (map tableKey (DatabaseSchema.tables expected)))
      /\ (In k (SchemaDrift.missingIndexes d)
          <-> In k (map indexKey (DatabaseSchema.indexes expected))
              /\ ~ In k (map indexKey (DatabaseSchema.indexes actual)))
      /\ (In k (SchemaDrift.extraIndexes d)
          <-> In k (map indexKey (DatabaseSchema.indexes actual))
              /\ ~ In k (map indexKey (DatabaseSchema.indexes expected)))
      /\ (In k (SchemaDrift.missingViews d)
          <-> In k (map viewKey (DatabaseSchema.views expected))
              /\ ~ In k (map viewKey (DatabaseSchema.views actual)))
      /\ (In k (SchemaDrift.extraViews d)
          <-> In k (map viewKey (DatabaseSchema.views actual))
              /\ ~ In k (map viewKey (DatabaseSchema.views expected)))
      /\ (In k (SchemaDrift.missingTriggers d)
          <-> In k (map triggerKey (DatabaseSchema.triggers expected))
              /\ ~ In k (map triggerKey (DatabaseSchema.triggers actual)))
      /\ (In k (SchemaDrift.extraTriggers d)
          <-> In k (map triggerKey (DatabaseSchema.triggers actual))
              /\ ~ In k (map triggerKey (DatabaseSchema.triggers expected)))
      /\ (In k (SchemaDrift.missingRLSPolicies d)
          <-> In k (map policyKey (DatabaseSchema.rlsPolicies expected))
              /\ ~ In k (map policyKey (DatabaseSchema.rlsPolicies actual)))
      /\ (In k (SchemaDrift.extraRLSPolicies d)
          <-> In k (map policyKey (DatabaseSchema.rlsPolicies actual))
              /\ ~ In k (map policyKey (DatabaseSchema.rlsPolicies expected))))
  /\ NoDup (SchemaDrift.missingTables d) /\ NoDup (SchemaDrift.extraTables d)
  /\ NoDup (SchemaDrift.missingIndexes d) /\ NoDup (SchemaDrift.extraIndexes d)
  /\ NoDup (SchemaDrift.missingViews d) /\ NoDup (SchemaDrift.extraViews d)
  /\ NoDup (SchemaDrift.missingTriggers d) /\ NoDup (SchemaDrift.extraTriggers d)
  /\ NoDup (SchemaDrift.missingRLSPolicies d)
  /\ NoDup (SchemaDrift.extraRLSPolicies d).
Proof.
  cbv zeta. unfold compareSchemas.
  cbn [SchemaDrift.missingTables SchemaDrift.extraTables
       SchemaDrift.missingIndexes SchemaDrift.extraIndexes
       SchemaDrift.missingViews SchemaDrift.extraViews
       SchemaDrift.missingTriggers SchemaDrift.extraTriggers
       SchemaDrift.missingRLSPolicies SchemaDrift.extraRLSPolicies].
  split.
  - intros k. rewrite !keysNotIn_In, !map_fst_entries. tauto.
  - repeat split; apply keysNotIn_NoDup.
Qed.

(** X2.  A comparison that reports no change is between models with the
    same table, index, view, trigger and policy keys. *)
Theorem no_changes_same_keys (expected actual : DatabaseSchema.t) :
  SchemaDrift.hasChanges (compareSchemas expected actual) = false ->
  forall k,
    (In k (map tableKey (DatabaseSchema.tables expected))
     <-> In k (map tableKey (DatabaseSchema.tables actual)))
    /\ (In k (map indexKey (DatabaseSchema.indexes expected))
        <-> In k (map indexKey (DatabaseSchema.indexes actual)))
    /\ (In k (map viewKey (DatabaseSchema.views expected))
        <-> In k (map viewKey (DatabaseSchema.views actual)))
    /\ (In k (map triggerKey (DatabaseSchema.triggers expected))
        <-> In k (map triggerKey (DatabaseSchema.triggers actual)))
    /\ (In k (map policyKey (DatabaseSchema.rlsPolicies expected))
        <-> In k (map policyKey (DatabaseSchema.rlsPolicies actual))).
Proof.
  intros H.
  pose proof (SchemaDrift_hasChanges expected actual) as E. cbv zeta in E.
  rewrite E in H. clear E.
  repeat (apply orb_false_iff in H; destruct H as [H ?]).
  repeat match goal with
         | X : nonEmpty _ = false |- _ => apply nonEmpty_false in X
         end.
  intros k.
  split; [split|split; [split|split; [split|split; [split|split]]]].
  - exact (keysNotIn_nil_In tableKey tableKey _ _ H k).
  - exact (keysNotIn_nil_In tableKey tableKey _ _ H10 k).
  - exact (keysNotIn_nil_In indexKey indexKey _ _ H8 k).
  - exact (keysNotIn_nil_In indexKey indexKey _ _ H7 k).
  - exact (keysNotIn_nil_In viewKey viewKey _ _ H6 k).
  - exact (keysNotIn_nil_In viewKey viewKey _ _ H5 k).
  - exact (keysNotIn_nil_In triggerKey triggerKey _ _ H3 k).
  - exact (keysNotIn_nil_In triggerKey triggerKey _ _ H2 k).
  - exact (keysNotIn_nil_In policyKey policyKey _ _ H1 k).
  - exact (keysNotIn_nil_In policyKey policyKey _ _ H0 k).
Qed.

(** The enums of a model are not compared. *)
Lemma no_changes_same_keys_witness :
  SchemaDrift.hasChanges (compareSchemas usersSchema usersSchemaWithEnum) = false
  /\ (In "public.users" (map tableKey (DatabaseSchema.tables usersSchema))
      <-> In "public.users"
            (map tableKey (DatabaseSchema.tables usersSchemaWithEnum))).
Proof.
  split; [reflexivity|].
  exact (proj1 (no_changes_same_keys usersSchema usersSchemaWithEnum eq_refl
                  "public.users")).
Defined.


Lemma jsopt_neq_false {A : Type} (eqb : A -> A -> bool) (a b : jsopt A) :
  (forall x y, eqb x y = true <-> x = y) ->
  jsopt_neq eqb a b = false <-> a = b.
Proof.
  intros H. destruct a, b; simpl; split; try congruence; try reflexivity.
  - rewrite negb_false_iff, H. congruence.
  - intros [= ->]. rewrite negb_false_iff. apply H. reflexivity.
Qed.

(** Two numeric fields do not differ exactly when they are the same and do
    not hold NaN. *)
Lemma jsopt_neq_number_false (a b : jsopt jsnum) :
  jsopt_neq jsnum_eqb a b = false <-> a = b /\ isNaN a = false.
Proof.
  destruct a as [| |[x|]], b as [| |[y|]]; simpl; split;
    try (intros [H1 H2]); try congruence; try (split; reflexivity);
    try discriminate.
  - rewrite negb_false_iff, Z.eqb_eq. intros ->. split; reflexivity.
  - injection H1 as ->. rewrite Z.eqb_refl. reflexivity.
Qed.

Lemma single_nil {A : Type} (b : bool) (x : A) (rest : list A) :
  ((if b then [x] else []) ++ rest)%list = [] <-> b = false /\ rest = [].
Proof. destruct b; simpl; split; try discriminate; intuition congruence. Qed.

(** X3.  [compareColumn] reports nothing exactly when data type,
    nullability, default, maximum length, precision and scale agree and none
    of the three numbers is NaN: the name, the generated flag and the
    position are not compared.  It reports at most six changes, each for one
    of those six properties, under the name of the expected column. *)
Theorem compareColumn_changes (expected actual : Column.t) :
  (ColumnDrift.changes (compareColumn expected actual) = []
   <-> Column.dataType expected = Column.dataType actual
       /\ Column.isNullable expected = Column.isNullable actual
       /\ Column.defaultValue expected = Column.defaultValue actual
       /\ Column.characterMaximumLength expected
          = Column.characterMaximumLength actual
       /\ Column.numericPrecision expected = Column.numericPrecision actual
       /\ Column.numericScale expected = Column.numericScale actual
       /\ hasNaN expected = false)
  /\ List.length (ColumnDrift.changes (compareColumn expected actual)) <= 6
  /\ ColumnDrift.columnName (compareColumn expected actual) = Column.name expected
  /\ (forall change,
         In change (ColumnDrift.changes (compareColumn expected actual)) ->
         In (ColumnChange.property change)
            ["dataType"; "isNullable"; "defaultValue"; "characterMaximumLength";
             "numericPrecision"; "numericScale"]).
Proof.
  unfold compareColumn. cbn [ColumnDrift.changes ColumnDrift.columnName].
  split; [|split; [|split; [reflexivity|]]].
  - rewrite !single_nil.
    rewrite negb_false_iff, String.eqb_eq.
    rewrite negb_false_iff, Bool.eqb_true_iff.
    rewrite (jsopt_neq_false String.eqb) by apply String.eqb_eq.
    rewrite !jsopt_neq_number_false.
    match goal with
    | |- context [(if ?b then [?x] else []) = []] =>
        assert (Hl : (if b then [x] else []) = [] <-> b = false)
          by (destruct b; split; congruence)
    end.
    rewrite Hl, jsopt_neq_number_false. unfold hasNaN.
    rewrite !orb_false_iff. tauto.
  - repeat match goal with
           | |- context [if ?b then _ else _] => destruct b
           end; simpl; lia.
  - intros change.
    repeat match goal with
           | |- context [if ?b then _ else _] => destruct b
           end; simpl; intros H;
      repeat match goal with
             | H : _ \/ _ |- _ => destruct H as [H|H]
             | H : False |- _ => destruct H
             end; subst; simpl; tauto.
Qed.

(** X4.  A column without default in the expected model, as the replay
    builds it, against a column whose default the database gives as NULL is
    reported as a change of [defaultValue] whose two sides both read
    "null". *)
Theorem compareColumn_default_null (expected actual : Column.t) :
  Column.defaultValue expected = undefined ->
  Column.defaultValue actual = null ->
  In (ColumnChange.mk "defaultValue" "null" "null")
     (ColumnDrift.changes (compareColumn expected actual)).
Proof.
  intros He Ha. unfold compareColumn. cbn [ColumnDrift.changes].
  rewrite He, Ha. cbn [jsopt_neq strOrNull].
  apply in_or_app. right. apply in_or_app. right. left. reflexivity.
Qed.

Lemma compareColumn_default_null_witness :
  In (ColumnChange.mk "defaultValue" "null" "null")
     (ColumnDrift.changes (compareColumn columnA columnFromDb)).
Proof. apply (compareColumn_default_null columnA columnFromDb); reflexivity. Defined.


Lemma keysNotIn_subset {V W : Type} (a : JsMap.t V) (b : JsMap.t W) :
  (forall k, In k (JsMap.keys a) -> In k (JsMap.keys b)) -> keysNotIn a b = [].
Proof.
  intros H. unfold keysNotIn.
  induction (JsMap.keys a) as [|k l IH]; [reflexivity|].
  simpl. assert (Hk : JsMap.has b k = true) by (apply has_keys, H; left; reflexivity).
  rewrite Hk. simpl. apply IH. intros k' Hk'. apply H. right. assumption.
Qed.

Lemma modified_agree {V D : Type} (e a : JsMap.t V) (drift : V -> V -> D)
    (changed : D -> bool) :
  (forall k v, In (k, v) e -> JsMap.get a k = Some v) ->
  (forall k v, In (k, v) e -> changed (drift v v) = false) ->
  flat_map
    (fun x =>
       match JsMap.get a (fst x) with
       | Some y => if changed (drift (snd x) y) then [drift (snd x) y] else []
       | None => []
       end) e = [].
Proof.
  intros Hget Hsame. induction e as [|[k v] e IH]; [reflexivity|].
  simpl. rewrite (Hget k v) by (left; reflexivity).
  rewrite (Hsame k v) by (left; reflexivity). simpl.
  apply IH; intros k' v' H; [apply Hget | apply (Hsame k')]; right; assumption.
Qed.

Lemma NoDup_names_perm {A : Type} (f : A -> string) (l l' : list A) :
  Permutation l l' -> NoDup (map f l) -> NoDup (map f l').
Proof.
  intros Hp Hn. eapply Permutation_NoDup; [|exact Hn].
  apply Permutation_map, Hp.
Qed.

(** X5.  The order of the columns does not matter to [compareTable]: when
    the actual columns are a rearrangement of the expected ones, the column
    names are distinct, no maximum length, precision or scale is NaN and both
    tables have the same constraint names, the table is reported
    unchanged. *)
Theorem compareTable_order_irrelevant (expected actual : Table.t) :
  Permutation (Table.columns expected) (Table.columns actual) ->
  NoDup (map Column.name (Table.columns expected)) ->
  tableHasNaN expected = false ->
  (forall n, In n (map Constraint.name (Table.constraints expected))
             <-> In n (map Constraint.name (Table.constraints actual))) ->
  hasTableChanges (compareTable expected actual) = false.
Proof.
  intros Hp Hn Hnan Hc.
  pose proof (NoDup_names_perm Column.name _ _ Hp Hn) as Hn'.
  unfold compareTable, hasTableChanges.
  cbn [TableDrift.missingColumns TableDrift.extraColumns TableDrift.modifiedColumns
       TableDrift.missingConstraints TableDrift.extraConstraints].
  rewrite (keysNotIn_subset
             (JsMap.ofEntries (map (fun c => (Column.name c, c)) (Table.columns expected)))
             (JsMap.ofEntries (map (fun c => (Column.name c, c)) (Table.columns actual)))).
  2:{ intros k. rewrite !keys_ofEntries_In, !map_fst_entries.
      apply Permutation_in, Permutation_map, Hp. }
  rewrite (keysNotIn_subset
             (JsMap.ofEntries (map (fun c => (Column.name c, c)) (Table.columns actual)))
             (JsMap.ofEntries (map (fun c => (Column.name c, c)) (Table.columns expected)))).
  2:{ intros k. rewrite !keys_ofEntries_In, !map_fst_entries.
      apply Permutation_in, Permutation_map, Permutation_sym, Hp. }
  rewrite (keysNotIn_subset
             (JsMap.ofEntries
                (map (fun c => (Constraint.name c, c)) (Table.constraints expected)))
             (JsMap.ofEntries
                (map (fun c => (Constraint.name c, c)) (Table.constraints actual)))).
  2:{ intros k. rewrite !keys_ofEntries_In, !map_fst_entries. apply Hc. }
  rewrite (keysNotIn_subset
             (JsMap.ofEntries
                (map (fun c => (Constraint.name c, c)) (Table.constraints actual)))
             (JsMap.ofEntries
                (map (fun c => (Constraint.name c, c)) (Table.constraints expected)))).
  2:{ intros k. rewrite !keys_ofEntries_In, !map_fst_entries. apply Hc. }
  rewrite (modified_agree _ _ compareColumn
             (fun d => (0 <? List.length (ColumnDrift.changes d))%nat)).
  - reflexivity.
  - intros k v Hin.
    rewrite ofEntries_NoDup in Hin by (rewrite map_fst_entries; exact Hn).
    apply get_In; [apply NoDup_keys_ofEntries|].
    rewrite ofEntries_NoDup by (rewrite map_fst_entries; exact Hn').
    apply in_map_iff in Hin. destruct Hin as [c [Hc' Hin]].
    apply in_map_iff. exists c. split; [assumption|].
    eapply Permutation_in; eassumption.
  - intros k c Hin. apply ofEntries_In, in_map_iff in Hin.
    destruct Hin as [c' [[= _ ->] Hc']].
    rewrite compareColumn_self; [reflexivity|].
    apply (existsb_false _ _ _ Hnan Hc').
Qed.

Lemma compareTable_order_irrelevant_witness :
  hasTableChanges (compareTable tableAB tableBA) = false.
Proof.
  apply (compareTable_order_irrelevant tableAB tableBA).
  - apply perm_swap.
  - simpl. repeat constructor; simpl; intuition discriminate.
  - reflexivity.
  - intros n. simpl. tauto.
Defined.


Lemma SchemaDrift_modifiedTables (e a : DatabaseSchema.t) :
  SchemaDrift.modifiedTables (compareSchemas e a)
  = flat_map
      (fun x =>
         match JsMap.get
                 (JsMap.ofEntries
                    (map (fun t => (tableKey t, t)) (DatabaseSchema.tables a)))
                 (fst x) with
         | Some y =>
             if hasTableChanges (compareTable (snd x) y)
             then [compareTable (snd x) y] else []
         | None => []
         end)
      (JsMap.ofEntries (map (fun t => (tableKey t, t)) (DatabaseSchema.tables e))).
Proof. reflexivity. Qed.

(** X6.  Every entry of [modifiedTables] is the comparison of a table that
    both models have, and shows a change; when the keys of each model are
    distinct, every pair of tables with the same key whose comparison shows a
    change is listed. *)
Theorem modifiedTables_sound_complete (expected actual : DatabaseSchema.t) :
  (forall drift,
      In drift (SchemaDrift.modifiedTables (compareSchemas expected actual)) ->
      hasTableChanges drift = true
      /\ In (TableDrift.tableName drift)
            (map tableKey (DatabaseSchema.tables expected))
      /\ In (TableDrift.tableName drift)
            (map tableKey (DatabaseSchema.tables actual)))
  /\ (NoDup (map tableKey (DatabaseSchema.tables expected)) ->
      NoDup (map tableKey (DatabaseSchema.tables actual)) ->
      forall te ta,
        In te (DatabaseSchema.tables expected) ->
        In ta (DatabaseSchema.tables actual) ->
        tableKey te = tableKey ta ->
        hasTableChanges (compareTable te ta) = true ->
        In (compareTable te ta)
           (SchemaDrift.modifiedTables (compareSchemas expected actual))).
Proof.
  rewrite SchemaDrift_modifiedTables. split.
  - intros drift Hin. apply in_flat_map in Hin. destruct Hin as [[k te] [Hin Hd]].
    cbn [fst snd] in Hd.
    destruct (JsMap.get _ k) as [ta|] eqn:Hget; [|destruct Hd].
    destruct (hasTableChanges (compareTable te ta)) eqn:Hc; [|destruct Hd].
    destruct Hd as [<-|[]]. split; [assumption|].
    apply ofEntries_In, in_map_iff in Hin. destruct Hin as [t [[= <- ->] Hin]].
    apply get_has, has_ofEntries in Hget. rewrite map_fst_entries in Hget.
    change (TableDrift.tableName (compareTable te ta)) with (tableKey te).
    split; [apply in_map, Hin | exact Hget].
  - intros Hne Hna te ta Hte Hta Hkey Hc.
    apply in_flat_map. exists (tableKey te, te). split.
    + rewrite ofEntries_NoDup by (rewrite map_fst_entries; exact Hne).
      apply in_map_iff. exists te. auto.
    + cbn [fst snd].
      rewrite (get_In _ (tableKey te) ta).
      * rewrite Hc. left. reflexivity.
      * apply NoDup_keys_ofEntries.
      * rewrite ofEntries_NoDup by (rewrite map_fst_entries; exact Hna).
        apply in_map_iff. exists ta. split; [rewrite Hkey; reflexivity | assumption].
Qed.


Lemma keysNotIn_nil_r {V W : Type} (a : JsMap.t V) :
  keysNotIn a (@nil (string * W)) = JsMap.keys a.
Proof.
  unfold keysNotIn. induction (JsMap.keys a) as [|k l IH]; [reflexivity|].
  cbn [filter]. rewrite IH. reflexivity.
Qed.

Lemma ofEntries_nonempty {V : Type} (entries : list (string * V)) :
  entries <> [] -> JsMap.keys (JsMap.ofEntries entries) <> [].
Proof.
  destruct entries as [|e es]; [congruence|]. intros _ H.
  assert (Hin : In (fst e) (JsMap.keys (JsMap.ofEntries (e :: es))))
    by (apply keys_ofEntries_In; left; reflexivity).
  rewrite H in Hin. destruct Hin.
Qed.

(** X7.  Against an empty expected model (no migration replayed), a
    database with tables has nothing missing and nothing modified: every
    table is extra, and the summary counts the extra tables only. *)
Theorem compare_with_empty_expected (actual : DatabaseSchema.t) :
  DatabaseSchema.tables actual <> [] ->
  let d := compareSchemas emptySchema actual in
  SchemaDrift.missingTables d = [] /\ SchemaDrift.modifiedTables d = []
  /\ SchemaDrift.missingIndexes d = [] /\ SchemaDrift.missingViews d = []
  /\ SchemaDrift.modifiedViews d = [] /\ SchemaDrift.missingTriggers d = []
  /\ SchemaDrift.missingRLSPolicies d = []
  /\ SchemaDrift.extraTables d <> []
  /\ SchemaDrift.hasChanges d = true
  /\ SchemaDrift.summary d
     = "Schema drift detected: "
       ++ ofNat (List.length (SchemaDrift.extraTables d))
       ++ " extra table(s) in database.".
Proof.
  intros Hne d.
  assert (Hextra : SchemaDrift.extraTables d <> []).
  { unfold d, compareSchemas. cbn [SchemaDrift.extraTables].
    cbn [emptySchema DatabaseSchema.tables map JsMap.ofEntries fold_left].
    rewrite keysNotIn_nil_r. apply ofEntries_nonempty.
    destruct (DatabaseSchema.tables actual); [congruence | discriminate]. }
  assert (Hc : SchemaDrift.hasChanges d = true).
  { pose proof (SchemaDrift_hasChanges emptySchema actual) as E.
    cbv zeta in E. fold d in E. rewrite E, (nonEmpty_true _ Hextra).
    rewrite orb_true_r. reflexivity. }
  repeat (split; [reflexivity|]).
  split; [assumption|]. split; [assumption|].
  pose proof (SchemaDrift_summary emptySchema actual) as E.
  cbv zeta in E. fold d in E. rewrite E, Hc.
  change (SchemaDrift.missingTables d) with (@nil string).
  change (SchemaDrift.modifiedTables d) with (@nil TableDrift.t).
  unfold generateSummary. rewrite (nonEmpty_true _ Hextra).
  cbn [negb nonEmpty List.length Nat.ltb Nat.leb app join].
  rewrite StringFacts.append_assoc. reflexivity.
Qed.

Lemma compare_with_empty_expected_witness :
  SchemaDrift.summary (compareSchemas emptySchema usersSchema)
  = "Schema drift detected: 1 extra table(s) in database.".
Proof.
  destruct (compare_with_empty_expected usersSchema)
    as [_ [_ [_ [_ [_ [_ [_ [_ [_ H]]]]]]]]].
  - discriminate.
  - exact H.
Defined.

(** X8.  Against an empty database, an expected model with tables has
    nothing extra and nothing modified: every table is missing, and the
    summary counts the missing tables only. *)
Theorem compare_with_empty_actual (expected : DatabaseSchema.t) :
  DatabaseSchema.tables expected <> [] ->
  let d := compareSchemas expected emptySchema in
  SchemaDrift.extraTables d = [] /\ SchemaDrift.modifiedTables d = []
  /\ SchemaDrift.extraIndexes d = [] /\ SchemaDrift.extraViews d = []
  /\ SchemaDrift.modifiedViews d = [] /\ SchemaDrift.extraTriggers d = []
  /\ SchemaDrift.extraRLSPolicies d = []
  /\ SchemaDrift.missingTables d <> []
  /\ SchemaDrift.hasChanges d = true
  /\ SchemaDrift.summary d
     = "Schema drift detected: "
       ++ ofNat (List.length (SchemaDrift.missingTables d))
       ++ " table(s) missing from database.".
Proof.
  intros Hne d.
  assert (Hflat : forall {A D : Type} (f : A -> option D -> list D) (l : list A),
             (forall x, f x None = []) -> flat_map (fun x => f x None) l = []).
  { intros A D f l Hf. induction l as [|x l IH]; simpl; [reflexivity|].
    rewrite Hf, IH. reflexivity. }
  assert (Hmod : SchemaDrift.modifiedTables d = []).
  { unfold d. rewrite SchemaDrift_modifiedTables.
    cbn [emptySchema DatabaseSchema.tables map JsMap.ofEntries fold_left JsMap.get].
    induction (JsMap.ofEntries _) as [|x l IH]; [reflexivity | exact IH]. }
  assert (Hviews : SchemaDrift.modifiedViews d = []).
  { unfold d, compareSchemas. cbn [SchemaDrift.modifiedViews].
    cbn [emptySchema DatabaseSchema.views map JsMap.ofEntries fold_left JsMap.get].
    induction (JsMap.ofEntries _) as [|x l IH]; [reflexivity | exact IH]. }
  assert (Hmissing : SchemaDrift.missingTables d <> []).
  { unfold d, compareSchemas. cbn [SchemaDrift.missingTables].
    cbn [emptySchema DatabaseSchema.tables map JsMap.ofEntries fold_left].
    rewrite keysNotIn_nil_r. apply ofEntries_nonempty.
    destruct (DatabaseSchema.tables expected); [congruence | discriminate]. }
  assert (Hc : SchemaDrift.hasChanges d = true).
  { pose proof (SchemaDrift_hasChanges expected emptySchema) as E.
    cbv zeta in E. fold d in E. rewrite E, (nonEmpty_true _ Hmissing).
    reflexivity. }
  split; [reflexivity|]. split; [assumption|].
  split; [reflexivity|]. split; [reflexivity|]. split; [assumption|].
  split; [reflexivity|]. split; [reflexivity|].
  split; [assumption|]. split; [assumption|].
  pose proof (SchemaDrift_summary expected emptySchema) as E.
  cbv zeta in E. fold d in E. rewrite E, Hc, Hmod.
  change (SchemaDrift.extraTables d) with (@nil string).
  unfold generateSummary. rewrite (nonEmpty_true _ Hmissing).
  cbn [negb nonEmpty List.length Nat.ltb Nat.leb app join].
  rewrite StringFacts.append_assoc. reflexivity.
Qed.

Lemma compare_with_empty_actual_witness :
  SchemaDrift.summary (compareSchemas usersSchema emptySchema)
  = "Schema drift detected: 1 table(s) missing from database.".
Proof.
  destruct (compare_with_empty_actual usersSchema)
    as [_ [_ [_ [_ [_ [_ [_ [_ [_ H]]]]]]]]].
  - discriminate.
  - exact H.
Defined.

End DiffMore.

(** ** The matcher on names followed by more text *)

Module NameFacts.
Import SchemaAnalyzer Support RegexFacts StringFacts IndexFacts.

Lemma startsWithFold_nil (s : string) : startsWithFold s "" = true.
Proof. destruct s; reflexivity. Qed.

(** A literal that is not a prefix of the input, up to case, does not
    match. *)
Lemma run_lit_mismatch (l s : string) (i : nat) (c : caps) (k : cont) :
  startsWithFold s l = false -> run true (lit l) i s c k = None.
Proof.
  revert s i k. induction l as [|a l IH]; intros s i k H.
  - rewrite startsWithFold_nil in H. discriminate.
  - destruct s as [|b s]; [reflexivity|].
    cbn [lit]. rewrite run_Seq, run_Chr_cons.
    cbn [startsWithFold] in H.
    destruct (sameChar true a b); [apply IH, H | reflexivity].
Qed.

Lemma leadingRun_tail (n tail : string) :
  allOf isWord n = true -> endsWord tail = true ->
  leadingRun isWord (n ++ tail) = n /\ afterRun isWord (n ++ tail) = tail.
Proof.
  intros Hn Ht. induction n as [|b n IH].
  - destruct tail as [|x t]; [split; reflexivity|].
    simpl in *. apply negb_true_iff in Ht. rewrite Ht. split; reflexivity.
  - destruct (allOf_String _ _ _ Hn) as [Hb Hn'].
    simpl. rewrite Hb. destruct (IH Hn') as [-> ->]. split; reflexivity.
Qed.

(** [\w+] takes the whole name when the continuation accepts what follows
    it. *)
Lemma run_word_tail (n tail : string) (i : nat) (c : caps) (k : cont) :
  isName n = true -> endsWord tail = true ->
  k (i + String.length n) tail c <> None ->
  run true word1 i (n ++ tail) c k = k (i + String.length n) tail c.
Proof.
  intros Hname Ht Hk. apply isName_spec in Hname. destruct Hname as [Hn Hne].
  destruct n as [|b n]; [congruence|].
  destruct (allOf_String _ _ _ Hn) as [Hb Hn'].
  unfold word1. cbn [append]. rewrite run_Plus_cons by assumption.
  destruct (leadingRun_tail n tail Hn' Ht) as [Hrun Hafter].
  simpl String.length in *. rewrite Nat.add_succ_r in *.
  rewrite star_greedy; rewrite Hrun, Hafter; simpl; [reflexivity | exact Hk].
Qed.

(** [\w+] gives up when the continuation refuses every place at which it
    may stop. *)
Lemma star_word_tail_fail (n tail : string) (i : nat) (c : caps) (k : cont) :
  allOf isWord n = true -> endsWord tail = true ->
  (forall i' x, allOf isWord x = true -> k i' (x ++ tail) c = None) ->
  star isWord i (n ++ tail) c k = None.
Proof.
  intros Hn Ht Hk. revert i. induction n as [|b n IH]; intros i.
  - cbn [append]. destruct tail as [|x t]; [apply (Hk i ""); reflexivity|].
    simpl in Ht. apply negb_true_iff in Ht. simpl. rewrite Ht.
    apply (Hk i ""). reflexivity.
  - destruct (allOf_String _ _ _ Hn) as [Hb Hn'].
    cbn [append star]. rewrite Hb, (IH Hn' (S i)). simpl.
    apply (Hk i (String b n)). exact Hn.
Qed.

(** The optional qualifier finds no dot after an unqualified name. *)
Lemma qualifier_tail (g : nat) (n tail : string) (i : nat) (c : caps) (k : cont) :
  isName n = true -> endsName tail = true ->
  run true (qualifier g) i (n ++ tail) c k = k i (n ++ tail) c.
Proof.
  intros Hname Ht. apply isName_spec in Hname. destruct Hname as [Hn Hne].
  assert (Htw : endsWord tail = true).
  { destruct tail; [reflexivity|]. simpl in *.
    apply andb_true_iff in Ht. tauto. }
  unfold qualifier. apply run_Opt_fail.
  rewrite run_Seq, run_Grp. unfold word1.
  destruct n as [|b n]; [congruence|].
  destruct (allOf_String _ _ _ Hn) as [Hb Hn'].
  cbn [append]. rewrite run_Plus_cons by assumption.
  apply star_word_tail_fail; [assumption | assumption |].
  intros i' x Hx. destruct x as [|y x].
  - cbn [append]. destruct tail as [|z t]; [reflexivity|].
    rewrite run_Chr_cons. simpl in Ht. apply andb_true_iff in Ht.
    destruct Ht as [_ Hz]. apply negb_true_iff in Hz.
    replace (sameChar true "." z) with false; [reflexivity|].
    symmetry. clear - Hz.
    destruct z as [[] [] [] [] [] [] [] []]; vm_compute in *; congruence.
  - destruct (allOf_String _ _ _ Hx) as [Hy _].
    cbn [append]. rewrite run_Chr_cons, (isWord_not_dot y Hy). reflexivity.
Qed.

Lemma leadingRun_dot (s rest : string) :
  allOf isWord s = true ->
  leadingRun isWord (s ++ String "." rest) = s
  /\ afterRun isWord (s ++ String "." rest) = String "." rest.
Proof. intros Hs. apply leadingRun_tail; [assumption | reflexivity]. Qed.

(** The optional qualifier takes a name followed by a dot, when the
    continuation accepts what follows the dot. *)
Lemma qualifier_dot (g : nat) (s rest : string) (i : nat) (c : caps) (k : cont) :
  isName s = true ->
  k (S (i + String.length s)) rest ((g, s) :: c) <> None ->
  run true (qualifier g) i (s ++ String "." rest) c k
  = k (S (i + String.length s)) rest ((g, s) :: c).
Proof.
  intros Hname Hk.
  assert (H : run true (Seq (Grp g word1) (Chr ".")) i (s ++ String "." rest) c k
              = k (S (i + String.length s)) rest ((g, s) :: c)).
  { rewrite run_Seq, run_Grp.
    rewrite run_word_tail; [|assumption|reflexivity|].
    - rewrite run_Chr_cons. change (sameChar true "." ".") with true. cbv iota.
      rewrite Nat.add_comm, Nat.add_sub, substring_prefix, Nat.add_comm.
      reflexivity.
    - rewrite run_Chr_cons. change (sameChar true "." ".") with true. cbv iota.
      rewrite Nat.add_comm, Nat.add_sub, substring_prefix, Nat.add_comm.
      exact Hk. }
  unfold qualifier. cbn [run]. cbn [run] in H. rewrite H.
  destruct (k (S (i + String.length s)) rest ((g, s) :: c)); [reflexivity | congruence].
Qed.

End NameFacts.

Module TableFacts.
Import SchemaAnalyzer Support RegexFacts StringFacts IndexFacts NameFacts.

Lemma substring_all (s : string) : substring 0 (String.length s) s = s.
Proof.
  rewrite <- (append_nil_r s) at 2. apply substring_prefix.
Qed.

(** An unqualified name: group 2 only. *)
Lemma object_plain (n tail : string) (i : nat) (c : caps) :
  isName n = true -> endsName tail = true ->
  run true reObject i (n ++ tail) c accept = Some ((2, n) :: c).
Proof.
  intros Hn Ht.
  assert (Htw : endsWord tail = true).
  { destruct tail; [reflexivity|]. simpl in *. apply andb_true_iff in Ht. tauto. }
  unfold reObject, seqs. cbn [fold_right].
  rewrite run_Seq, qualifier_tail by assumption. cbv beta.
  rewrite run_Seq, run_Grp.
  rewrite run_word_tail; try assumption; cbv beta; cbn [run]; unfold accept;
    rewrite Nat.add_comm, Nat.add_sub, substring_prefix;
    [reflexivity | discriminate].
Qed.

(** A qualified name: groups 1 and 2. *)
Lemma object_qualified (s n tail : string) (i : nat) (c : caps) :
  isName s = true -> isName n = true -> endsWord tail = true ->
  run true reObject i (s ++ String "." (n ++ tail)) c accept
  = Some ((2, n) :: (1, s) :: c).
Proof.
  intros Hs Hn Ht.
  assert (H : forall j c',
             run true (Seq (Grp 2 word1) Eps) j (n ++ tail) c' accept
             = Some ((2, n) :: c')).
  { intros j c'. rewrite run_Seq, run_Grp.
    rewrite run_word_tail; try assumption; cbv beta; cbn [run]; unfold accept;
      rewrite Nat.add_comm, Nat.add_sub, substring_prefix;
      [reflexivity | discriminate]. }
  unfold reObject, seqs. cbn [fold_right].
  rewrite run_Seq, qualifier_dot; try assumption; cbv beta; rewrite H;
    [reflexivity | discriminate].
Qed.


Lemma search_hit (ic : bool) (r : regex) (s : string) (i : nat) (c : caps) :
  run ic r i s [] accept = Some c -> search ic r i s = Some c.
Proof. intros H. destruct s; simpl; rewrite H; reflexivity. Qed.

Lemma isName_cons (n : string) :
  isName n = true -> exists b r, n = String b r /\ isWord b = true.
Proof.
  intros H. apply isName_spec in H. destruct H as [Hn Hne].
  destruct n as [|b r]; [congruence|].
  destruct (allOf_String _ _ _ Hn) as [Hb _]. eauto.
Qed.

(** Keyword and name, without the clause. *)
Lemma keyword_plain (keyword clause n more : string) (result : caps) :
  isName n = true ->
  startsWithFold (n ++ more) clause = false ->
  (forall i, run true reObject i (n ++ more) [] accept = Some result) ->
  jsMatch true (keywordObject keyword clause) (keyword ++ String " " (n ++ more))
  = Some result.
Proof.
  intros Hn Hclause Hobj. apply search_hit.
  destruct (isName_cons n Hn) as [b [r [-> Hb]]].
  unfold keywordObject.
  rewrite run_Seq, run_lit. cbv beta.
  cbn [append]. rewrite run_Seq, run_space_word by assumption. cbv beta.
  rewrite run_Seq, run_Opt_fail
    by (rewrite run_Seq; apply run_lit_mismatch, Hclause).
  cbv beta. apply Hobj.
Qed.

Lemma run_Opt_hit (ic : bool) (r : regex) (i : nat) (s : string) (c x : caps)
    (k : cont) :
  run ic r i s c k = Some x -> run ic (Opt r) i s c k = Some x.
Proof. intros H. simpl. rewrite H. reflexivity. Qed.

(** Keyword, clause and name. *)
Lemma keyword_clause (keyword clause n more : string) (x : ascii) (result : caps) :
  isWord x = true ->
  isName n = true ->
  (forall i, run true reObject i (n ++ more) [] accept = Some result) ->
  jsMatch true (keywordObject keyword (String x clause))
    (keyword ++ String " " (String x clause ++ String " " (n ++ more)))
  = Some result.
Proof.
  intros Hx Hn Hobj. apply search_hit.
  destruct (isName_cons n Hn) as [b [r [-> Hb]]].
  unfold keywordObject.
  rewrite run_Seq, run_lit. cbv beta.
  rewrite run_Seq.
  change (String x clause ++ String " " (String b r ++ more))
    with (String x (clause ++ String " " (String b r ++ more))).
  rewrite run_space_word by assumption. cbv beta.
  rewrite run_Seq. apply run_Opt_hit.
  change (String x (clause ++ String " " (String b r ++ more)))
    with (String x clause ++ String " " (String b r ++ more)).
  rewrite run_Seq, run_lit. cbv beta.
  cbn [append]. rewrite run_space_word by assumption. apply Hobj.
Qed.

(** A clause that begins with two letters and a space is not a prefix of a
    name followed by a dot. *)
Lemma clause_not_qualified (a1 a2 : ascii) (l s rest : string) :
  isWord a2 = true ->
  isName s = true ->
  startsWithFold (s ++ String "." rest) (String a1 (String a2 (String " " l)))
  = false.
Proof.
  intros Ha2 Hs. apply isName_spec in Hs. destruct Hs as [Hs Hne].
  assert (Hdot : sameChar true a2 "." = false).
  { clear - Ha2. destruct a2 as [[] [] [] [] [] [] [] []]; vm_compute in *; congruence. }
  assert (Hsp : forall y, isWord y = true -> sameChar true " " y = false).
  { clear. intros y Hy.
    destruct y as [[] [] [] [] [] [] [] []]; vm_compute in *; congruence. }
  destruct s as [|y1 s]; [congruence|].
  destruct (allOf_String _ _ _ Hs) as [_ Hs1].
  cbn [append startsWithFold].
  destruct (sameChar true a1 y1); [cbn [andb]|reflexivity].
  destruct s as [|y2 s].
  - cbn [append startsWithFold]. rewrite Hdot. reflexivity.
  - destruct (allOf_String _ _ _ Hs1) as [_ Hs2].
    cbn [append startsWithFold].
    destruct (sameChar true a2 y2); [cbn [andb]|reflexivity].
    destruct s as [|y3 s].
    + reflexivity.
    + destruct (allOf_String _ _ _ Hs2) as [Hy3 _].
      cbn [append startsWithFold]. rewrite (Hsp y3 Hy3). reflexivity.
Qed.


(** *** From a statement to its handler *)

Lemma trimEnd_app_fixed (a t : string) :
  trimEnd t = t -> t <> "" -> trimEnd (a ++ t) = a ++ t.
Proof.
  intros Ht Hne. induction a as [|c a IH]; simpl; [exact Ht|].
  rewrite IH. destruct (a ++ t) eqn:E; [|reflexivity].
  destruct a; simpl in E; [congruence | discriminate].
Qed.

Lemma statements_single (sql : string) :
  isStatement sql = true -> statements sql = [sql].
Proof.
  unfold isStatement. rewrite !andb_true_iff, negb_true_iff.
  intros [[Hsemi Hne] Htrim]. apply String.eqb_eq in Htrim.
  unfold statements. rewrite (split_single sql Hsemi). cbn [map filter].
  rewrite Htrim. destruct sql; [discriminate | reflexivity].
Qed.

(** A statement that [classify] tags is handed to the handler of its tag. *)
Lemma replay_statement (schema : DatabaseSchema.t) (version sql : string)
    (type : OperationType) :
  isStatement sql = true ->
  classify sql = [Operation.mk type sql] ->
  applyMigrationToSchema schema (migration version sql)
  = applyOperation schema (Operation.mk type sql).
Proof.
  intros Hs Hc. unfold applyMigrationToSchema, migration. cbn [Migration.upSql].
  unfold parseMigrationOperations. rewrite (statements_single sql Hs).
  cbn [flat_map]. rewrite Hc. reflexivity.
Qed.

Lemma isTail_spec (tail : string) :
  isTail tail = true ->
  endsName tail = true /\ endsWord tail = true
  /\ allOf (fun c => negb (Ascii.eqb c ";")) tail = true
  /\ trimEnd tail = tail.
Proof.
  unfold isTail. rewrite !andb_true_iff, String.eqb_eq. intros [[H1 H2] H3].
  repeat split; try assumption.
  destruct tail; [reflexivity|]. simpl in *. apply andb_true_iff in H1. tauto.
Qed.

Lemma trimEnd_name_tail (n tail : string) :
  isName n = true -> trimEnd tail = tail ->
  trimEnd (n ++ tail) = n ++ tail /\ n ++ tail <> "".
Proof.
  intros Hn Ht. apply isName_spec in Hn. destruct Hn as [Hn Hne].
  split.
  - destruct tail as [|x t].
    + rewrite append_nil_r. apply trimEnd_word, Hn.
    + apply trimEnd_app_fixed; [assumption | discriminate].
  - destruct n; [congruence | discriminate].
Qed.

(** A statement made of a prefix, a name and a tail. *)
Lemma isStatement_name (p0 : ascii) (pre n tail : string) :
  isWhiteSpace p0 = false ->
  allOf (fun c => negb (Ascii.eqb c ";")) (String p0 pre) = true ->
  isName n = true -> isTail tail = true ->
  isStatement (String p0 pre ++ n ++ tail) = true.
Proof.
  intros Hp Hpre Hn Ht.
  destruct (isTail_spec tail Ht) as [_ [_ [Hsemi Htrim]]].
  destruct (trimEnd_name_tail n tail Hn Htrim) as [Hend Hne].
  pose proof Hn as Hn'. apply isName_spec in Hn'. destruct Hn' as [Hw _].
  unfold isStatement. rewrite !andb_true_iff. split; [split|].
  - rewrite !allOf_app, Hpre, (allOf_word_no_semicolon n Hw), Hsemi. reflexivity.
  - reflexivity.
  - apply String.eqb_eq. unfold trim. cbn [append trimStart]. rewrite Hp.
    change (String p0 (pre ++ n ++ tail)) with (String p0 pre ++ n ++ tail).
    apply trimEnd_app_fixed; assumption.
Qed.

(** A statement made of a prefix and a qualified name with a tail. *)
Lemma isStatement_qualified (p0 : ascii) (pre s n tail : string) :
  isWhiteSpace p0 = false ->
  allOf (fun c => negb (Ascii.eqb c ";")) (String p0 pre) = true ->
  isName s = true -> isName n = true -> isTail tail = true ->
  isStatement (String p0 pre ++ s ++ String "." (n ++ tail)) = true.
Proof.
  intros Hp Hpre Hs Hn Ht.
  replace (String p0 pre ++ s ++ String "." (n ++ tail))
    with (String p0 (pre ++ s ++ ".") ++ n ++ tail).
  - apply isStatement_name; try assumption.
    apply isName_spec in Hs. destruct Hs as [Hs _].
    change (String p0 (pre ++ s ++ ".")) with (String p0 pre ++ s ++ ".").
    rewrite !allOf_app, Hpre, (allOf_word_no_semicolon s Hs). reflexivity.
  - cbn [append]. rewrite !append_assoc. reflexivity.
Qed.

End TableFacts.

(** ** Replay of CREATE TABLE and DROP TABLE *)

Module TableReplay.
Import SchemaAnalyzer Support RegexFacts StringFacts IndexFacts NameFacts TableFacts.

Lemma endsName_endsWord (tail : string) : endsName tail = true -> endsWord tail = true.
Proof.
  destruct tail; [reflexivity|]. simpl. rewrite andb_true_iff. tauto.
Qed.

Lemma applyCreateTable_caps (schema : DatabaseSchema.t) (sql schemaName n : string)
    (m : caps) :
  jsMatch true reCreateTable sql = Some m ->
  groupOr 1 m "public" = schemaName -> groupOf 2 m = n ->
  applyCreateTable schema sql
  = DatabaseSchema.setTables schema
      (DatabaseSchema.tables schema ++ [newTable schemaName n])%list.
Proof.
  intros Hm H1 H2. unfold applyCreateTable. rewrite Hm. cbv zeta.
  rewrite H1, H2. reflexivity.
Qed.

Lemma applyDropTable_caps (schema : DatabaseSchema.t) (sql schemaName n : string)
    (m : caps) :
  jsMatch true reDropTable sql = Some m ->
  groupOr 1 m "public" = schemaName -> groupOf 2 m = n ->
  applyDropTable schema sql
  = DatabaseSchema.setTables schema
      (filter (fun t => negb (isTable schemaName n t)) (DatabaseSchema.tables schema)).
Proof.
  intros Hm H1 H2. unfold applyDropTable. rewrite Hm. cbv zeta.
  rewrite H1, H2. reflexivity.
Qed.

Lemma qualified_groups (s n : string) :
  isName s = true ->
  groupOr 1 [(2, n); (1, s)] "public" = s /\ groupOf 2 [(2, n); (1, s)] = n.
Proof.
  intros Hs. apply isName_spec in Hs. destruct Hs as [_ Hne].
  unfold groupOr, groupOf. cbn [group Nat.eqb].
  destruct s; [congruence|]. split; reflexivity.
Qed.

(** The statement with an unqualified name and no clause. *)
Lemma createTable_plain (schema : DatabaseSchema.t) (version n tail : string) :
  isName n = true -> isTail tail = true ->
  startsWithFold (n ++ tail) "IF NOT EXISTS" = false ->
  applyMigrationToSchema schema (migration version ("CREATE TABLE " ++ n ++ tail))
  = DatabaseSchema.setTables schema
      (DatabaseSchema.tables schema ++ [newTable "public" n])%list.
Proof.
  intros Hn Ht Hclause.
  destruct (isTail_spec tail Ht) as [Hen [Hew _]].
  rewrite (replay_statement schema version _ CREATE_TABLE).
  - unfold applyOperation. cbn [Operation.type Operation.sql].
    apply (applyCreateTable_caps schema _ "public" n [(2, n)]);
      [|reflexivity|reflexivity].
    apply (keyword_plain "CREATE TABLE" "IF NOT EXISTS" n tail); try assumption.
    intros i. apply object_plain; assumption.
  - apply (isStatement_name "C" "REATE TABLE " n tail); auto.
  - reflexivity.
Qed.

(** X9.  Replaying a migration whose up SQL is one CREATE TABLE statement,
    for names made of word characters and whatever text follows the name,
    appends an empty table record to the model: in the schema public for an
    unqualified name, in the named schema for a qualified one, with or without
    IF NOT EXISTS.  Nothing is checked against the tables already there. *)
Theorem createTable_replay
    (schema : DatabaseSchema.t) (version s n tail : string) :
  isName s = true -> isName n = true -> isTail tail = true ->
  startsWithFold (n ++ tail) "IF NOT EXISTS" = false ->
  let appended schemaName :=
    DatabaseSchema.setTables schema
      (DatabaseSchema.tables schema ++ [newTable schemaName n])%list in
  applyMigrationToSchema schema (migration version ("CREATE TABLE " ++ n ++ tail))
  = appended "public"
  /\ applyMigrationToSchema schema
       (migration version ("CREATE TABLE IF NOT EXISTS " ++ n ++ tail))
     = appended "public"
  /\ applyMigrationToSchema schema
       (migration version ("CREATE TABLE " ++ s ++ "." ++ n ++ tail))
     = appended s
  /\ applyMigrationToSchema schema
       (migration version ("CREATE TABLE IF NOT EXISTS " ++ s ++ "." ++ n ++ tail))
     = appended s.
Proof.
  intros Hs Hn Ht Hclause appended.
  destruct (isTail_spec tail Ht) as [Hen [Hew _]].
  destruct (qualified_groups s n Hs) as [Hg1 Hg2].
  split; [|split; [|split]].
  - apply createTable_plain; assumption.
  - rewrite (replay_statement schema version _ CREATE_TABLE).
    + unfold applyOperation. cbn [Operation.type Operation.sql].
      apply (applyCreateTable_caps schema _ "public" n [(2, n)]);
        [|reflexivity|reflexivity].
      apply (keyword_clause "CREATE TABLE" "F NOT EXISTS" n tail "I");
        try assumption; try reflexivity.
      intros i. apply object_plain; assumption.
    + apply (isStatement_name "C" "REATE TABLE IF NOT EXISTS " n tail); auto.
    + reflexivity.
  - rewrite (replay_statement schema version _ CREATE_TABLE).
    + unfold applyOperation. cbn [Operation.type Operation.sql].
      apply (applyCreateTable_caps schema _ s n [(2, n); (1, s)]);
        [|assumption|assumption].
      apply (keyword_plain "CREATE TABLE" "IF NOT EXISTS" s (String "." (n ++ tail)));
        try assumption.
      * apply clause_not_qualified; [reflexivity | assumption].
      * intros i. apply object_qualified; assumption.
    + apply (isStatement_qualified "C" "REATE TABLE " s n tail); auto.
    + reflexivity.
  - rewrite (replay_statement schema version _ CREATE_TABLE).
    + unfold applyOperation. cbn [Operation.type Operation.sql].
      apply (applyCreateTable_caps schema _ s n [(2, n); (1, s)]);
        [|assumption|assumption].
      apply (keyword_clause "CREATE TABLE" "F NOT EXISTS" s (String "." (n ++ tail)) "I");
        try assumption; try reflexivity.
      intros i. apply object_qualified; assumption.
    + apply (isStatement_qualified "C" "REATE TABLE IF NOT EXISTS " s n tail); auto.
    + reflexivity.
Qed.

Lemma createTable_replay_witness :
  applyMigrationToSchema emptySchema
    (migration "1" "CREATE TABLE IF NOT EXISTS app.users (id int)")
  = DatabaseSchema.setTables emptySchema [newTable "app" "users"].
Proof.
  exact (proj2 (proj2 (proj2
           (createTable_replay emptySchema "1" "app" "users" " (id int)"
              eq_refl eq_refl eq_refl eq_refl)))).
Defined.


Lemma dropTable_plain (schema : DatabaseSchema.t) (version n tail : string) :
  isName n = true -> isTail tail = true ->
  startsWithFold (n ++ tail) "IF EXISTS" = false ->
  applyMigrationToSchema schema (migration version ("DROP TABLE " ++ n ++ tail))
  = DatabaseSchema.setTables schema
      (filter (fun t => negb (isTable "public" n t)) (DatabaseSchema.tables schema)).
Proof.
  intros Hn Ht Hclause.
  destruct (isTail_spec tail Ht) as [Hen [Hew _]].
  rewrite (replay_statement schema version _ DROP_TABLE).
  - unfold applyOperation. cbn [Operation.type Operation.sql].
    apply (applyDropTable_caps schema _ "public" n [(2, n)]);
      [|reflexivity|reflexivity].
    apply (keyword_plain "DROP TABLE" "IF EXISTS" n tail); try assumption.
    intros i. apply object_plain; assumption.
  - apply (isStatement_name "D" "ROP TABLE " n tail); auto.
  - reflexivity.
Qed.

(** X10.  Replaying a migration whose up SQL is one DROP TABLE statement,
    for names made of word characters, removes every table record with that
    schema and name (public for an unqualified name), with or without IF
    EXISTS, and keeps the others in their order. *)
Theorem dropTable_replay
    (schema : DatabaseSchema.t) (version s n tail : string) :
  isName s = true -> isName n = true -> isTail tail = true ->
  startsWithFold (n ++ tail) "IF EXISTS" = false ->
  let without schemaName :=
    DatabaseSchema.setTables schema
      (filter (fun t => negb (isTable schemaName n t))
         (DatabaseSchema.tables schema)) in
  applyMigrationToSchema schema (migration version ("DROP TABLE " ++ n ++ tail))
  = without "public"
  /\ applyMigrationToSchema schema
       (migration version ("DROP TABLE IF EXISTS " ++ n ++ tail))
     = without "public"
  /\ applyMigrationToSchema schema
       (migration version ("DROP TABLE " ++ s ++ "." ++ n ++ tail))
     = without s
  /\ applyMigrationToSchema schema
       (migration version ("DROP TABLE IF EXISTS " ++ s ++ "." ++ n ++ tail))
     = without s.
Proof.
  intros Hs Hn Ht Hclause without.
  destruct (isTail_spec tail Ht) as [Hen [Hew _]].
  destruct (qualified_groups s n Hs) as [Hg1 Hg2].
  split; [|split; [|split]].
  - apply dropTable_plain; assumption.
  - rewrite (replay_statement schema version _ DROP_TABLE).
    + unfold applyOperation. cbn [Operation.type Operation.sql].
      apply (applyDropTable_caps schema _ "public" n [(2, n)]);
        [|reflexivity|reflexivity].
      apply (keyword_clause "DROP TABLE" "F EXISTS" n tail "I");
        try assumption; try reflexivity.
      intros i. apply object_plain; assumption.
    + apply (isStatement_name "D" "ROP TABLE IF EXISTS " n tail); auto.
    + reflexivity.
  - rewrite (replay_statement schema version _ DROP_TABLE).
    + unfold applyOperation. cbn [Operation.type Operation.sql].
      apply (applyDropTable_caps schema _ s n [(2, n); (1, s)]);
        [|assumption|assumption].
      apply (keyword_plain "DROP TABLE" "IF EXISTS" s (String "." (n ++ tail)));
        try assumption.
      * apply clause_not_qualified; [reflexivity | assumption].
      * intros i. apply object_qualified; assumption.
    + apply (isStatement_qualified "D" "ROP TABLE " s n tail); auto.
    + reflexivity.
  - rewrite (replay_statement schema version _ DROP_TABLE).
    + unfold applyOperation. cbn [Operation.type Operation.sql].
      apply (applyDropTable_caps schema _ s n [(2, n); (1, s)]);
        [|assumption|assumption].
      apply (keyword_clause "DROP TABLE" "F EXISTS" s (String "." (n ++ tail)) "I");
        try assumption; try reflexivity.
      intros i. apply object_qualified; assumption.
    + apply (isStatement_qualified "D" "ROP TABLE IF EXISTS " s n tail); auto.
    + reflexivity.
Qed.

Lemma dropTable_replay_witness :
  applyMigrationToSchema usersSchema
    (migration "2" "DROP TABLE IF EXISTS users CASCADE")
  = emptySchema.
Proof.
  exact (proj1 (proj2
           (dropTable_replay usersSchema "2" "public" "users" " CASCADE"
              eq_refl eq_refl eq_refl eq_refl))).
Defined.

Lemma filter_absent {A : Type} (f : A -> bool) (l : list A) :
  (forall x, In x l -> f x = true) -> filter f l = l.
Proof.
  induction l as [|x l IH]; intros H; [reflexivity|].
  simpl. rewrite (H x) by (left; reflexivity).
  rewrite IH; [reflexivity|]. intros y Hy. apply H. right. assumption.
Qed.

Lemma isTable_newTable (s n : string) : isTable s n (newTable s n) = true.
Proof. unfold isTable, newTable. simpl. rewrite !String.eqb_refl. reflexivity. Qed.

(** A name alone does not read IF EXISTS: the clause has a space. *)
Lemma name_not_clause (n : string) :
  isName n = true -> startsWithFold (n ++ "") "IF EXISTS" = false.
Proof.
  intros Hn.
  destruct (isName_cons n Hn) as [b [r [-> Hb]]].
  apply isName_spec in Hn. destruct Hn as [Hw _].
  destruct (allOf_String _ _ _ Hw) as [_ Hr].
  cbn [append startsWithFold].
  destruct (sameChar true "I" b); [cbn [andb]|reflexivity].
  destruct r as [|b2 r]; [reflexivity|].
  destruct (allOf_String _ _ _ Hr) as [_ Hr2].
  cbn [append startsWithFold].
  destruct (sameChar true "F" b2); [cbn [andb]|reflexivity].
  destruct r as [|b3 r]; [reflexivity|].
  destruct (allOf_String _ _ _ Hr2) as [Hb3 _].
  cbn [append startsWithFold].
  replace (sameChar true " " b3) with false; [reflexivity|].
  symmetry. clear - Hb3.
  destruct b3 as [[] [] [] [] [] [] [] []]; vm_compute in *; congruence.
Qed.

(** X11.  CREATE TABLE followed by DROP TABLE of the same unqualified name
    leaves the model without any table of that name in public; it is the
    model before both when that model had no such table. *)
Theorem createTable_dropTable
    (schema : DatabaseSchema.t) (v1 v2 n tail : string) :
  isName n = true -> isTail tail = true ->
  startsWithFold (n ++ tail) "IF NOT EXISTS" = false ->
  let created :=
    applyMigrationToSchema schema (migration v1 ("CREATE TABLE " ++ n ++ tail)) in
  let dropped := applyMigrationToSchema created (migration v2 ("DROP TABLE " ++ n)) in
  dropped
  = DatabaseSchema.setTables schema
      (filter (fun t => negb (isTable "public" n t)) (DatabaseSchema.tables schema))
  /\ find (isTable "public" n) (DatabaseSchema.tables dropped) = None
  /\ (find (isTable "public" n) (DatabaseSchema.tables schema) = None ->
      dropped = schema).
Proof.
  intros Hn Ht Hclause created dropped.
  assert (Hnil : isTail "" = true) by reflexivity.
  pose proof (name_not_clause n Hn) as Hc2.
  assert (Hcreated : created
            = DatabaseSchema.setTables schema
                (DatabaseSchema.tables schema ++ [newTable "public" n])%list).
  { apply (createTable_plain schema v1 n tail Hn Ht Hclause). }
  assert (Hdropped : dropped
            = DatabaseSchema.setTables created
                (filter (fun t => negb (isTable "public" n t))
                   (DatabaseSchema.tables created))).
  { pose proof (dropTable_plain created v2 n "" Hn Hnil Hc2) as H.
    rewrite append_nil_r in H. exact H. }
  assert (Heq : dropped
            = DatabaseSchema.setTables schema
                (filter (fun t => negb (isTable "public" n t))
                   (DatabaseSchema.tables schema))).
  { rewrite Hdropped, Hcreated. destruct schema. unfold DatabaseSchema.setTables.
    cbn [DatabaseSchema.tables DatabaseSchema.views DatabaseSchema.enums
         DatabaseSchema.functions DatabaseSchema.extensions DatabaseSchema.indexes
         DatabaseSchema.triggers DatabaseSchema.rlsPolicies].
    rewrite filter_app. cbn [filter]. rewrite isTable_newTable. cbn [negb].
    rewrite app_nil_r. reflexivity. }
  split; [exact Heq|]. split.
  - rewrite Heq. cbn [DatabaseSchema.setTables DatabaseSchema.tables].
    destruct (find _ _) as [t|] eqn:E; [|reflexivity].
    apply find_some in E. destruct E as [Hin Ht'].
    apply filter_In in Hin. destruct Hin as [_ Hneg]. rewrite Ht' in Hneg.
    discriminate.
  - intros Habsent. rewrite Heq. rewrite filter_absent.
    + destruct schema; reflexivity.
    + intros t Hin. apply negb_true_iff.
      apply (find_none _ _ Habsent t Hin).
Qed.

Lemma createTable_dropTable_witness :
  applyMigrationToSchema
    (applyMigrationToSchema emptySchema
       (migration "1" "CREATE TABLE users (id int)"))
    (migration "2" "DROP TABLE users")
  = emptySchema.
Proof.
  exact (proj2 (proj2
           (createTable_dropTable emptySchema "1" "2" "users" " (id int)"
              eq_refl eq_refl eq_refl)) eq_refl).
Defined.

End TableReplay.

(** ** Replay of ADD COLUMN and DROP COLUMN *)

Module ColumnReplay.
Import SchemaAnalyzer Support RegexFacts StringFacts IndexFacts NameFacts TableFacts
  TableReplay.

(** The part of the expression after the table name. *)
Lemma alterColumn_rest (k0 : ascii) (keyword c tail : string) (i : nat)
    (caps0 : caps) :
  isWord k0 = true -> isName c = true -> endsWord tail = true ->
  run true (seqs [ws1; lit (String k0 keyword); ws1; Grp 3 word1]) i
    (String " " (String k0 keyword ++ String " " (c ++ tail))) caps0 accept
  = Some ((3, c) :: caps0).
Proof.
  intros Hk Hc Ht. destruct (isName_cons c Hc) as [b [r [Ec Hb]]].
  unfold seqs. cbn [fold_right].
  rewrite run_Seq.
  change (String k0 keyword ++ String " " (c ++ tail))
    with (String k0 (keyword ++ String " " (c ++ tail))).
  rewrite run_space_word by assumption. cbv beta.
  change (String k0 (keyword ++ String " " (c ++ tail)))
    with (String k0 keyword ++ String " " (c ++ tail)).
  rewrite run_Seq, run_lit. cbv beta.
  rewrite run_Seq. rewrite Ec at 1. cbn [append].
  rewrite run_space_word by assumption. cbv beta.
  change (String b (r ++ tail)) with (String b r ++ tail). rewrite <- Ec.
  rewrite run_Seq, run_Grp.
  rewrite run_word_tail; try assumption; cbv beta; cbn [run]; unfold accept;
    rewrite Nat.add_comm, Nat.add_sub, substring_prefix;
    [reflexivity | discriminate].
Qed.

(** An unqualified table. *)
Lemma alterColumn_plain (k0 : ascii) (keyword t c tail : string) :
  isWord k0 = true -> isName t = true -> isName c = true -> endsWord tail = true ->
  jsMatch true (alterColumn (String k0 keyword))
    ("ALTER TABLE " ++ t ++ String " " (String k0 keyword ++ String " " (c ++ tail)))
  = Some [(3, c); (2, t)].
Proof.
  intros Hk Ht Hc Htail. apply search_hit.
  destruct (isName_cons t Ht) as [b [r [Et Hb]]].
  unfold alterColumn, seqs. cbn [fold_right].
  rewrite run_Seq.
  change ("ALTER TABLE " ++ t ++ String " " (String k0 keyword ++ String " " (c ++ tail)))
    with ("ALTER TABLE" ++ String " " (t ++ String " " (String k0 keyword ++ String " " (c ++ tail)))).
  rewrite run_lit. cbv beta.
  rewrite run_Seq. rewrite Et at 1. cbn [append].
  rewrite run_space_word by assumption. cbv beta.
  change (String b (r ++ String " " (String k0 (keyword ++ String " " (c ++ tail)))))
    with (String b r ++ String " " (String k0 keyword ++ String " " (c ++ tail))).
  rewrite <- Et.
  rewrite run_Seq, qualifier_tail by (assumption || reflexivity). cbv beta.
  rewrite run_Seq, run_Grp.
  pose proof (alterColumn_rest k0 keyword c tail) as Hrest.
  unfold seqs in Hrest. cbn [fold_right] in Hrest.
  rewrite run_word_tail; try assumption; try reflexivity; cbv beta;
    rewrite Hrest by assumption;
    [|discriminate].
  rewrite Nat.add_comm, Nat.add_sub, substring_prefix. reflexivity.
Qed.

(** A qualified table. *)
Lemma alterColumn_qualified (k0 : ascii) (keyword s t c tail : string) :
  isWord k0 = true -> isName s = true -> isName t = true -> isName c = true ->
  endsWord tail = true ->
  jsMatch true (alterColumn (String k0 keyword))
    ("ALTER TABLE " ++ s ++ String "." (t ++ String " "
       (String k0 keyword ++ String " " (c ++ tail))))
  = Some [(3, c); (2, t); (1, s)].
Proof.
  intros Hk Hs Ht Hc Htail. apply search_hit.
  destruct (isName_cons s Hs) as [b [r [Es Hb]]].
  unfold alterColumn, seqs. cbn [fold_right].
  rewrite run_Seq.
  change ("ALTER TABLE " ++ s ++ String "." (t ++ String " "
            (String k0 keyword ++ String " " (c ++ tail))))
    with ("ALTER TABLE" ++ String " " (s ++ String "." (t ++ String " "
            (String k0 keyword ++ String " " (c ++ tail))))).
  rewrite run_lit. cbv beta.
  rewrite run_Seq. rewrite Es at 1. cbn [append].
  rewrite run_space_word by assumption. cbv beta.
  change (String b (r ++ String "." (t ++ String " "
            (String k0 (keyword ++ String " " (c ++ tail))))))
    with (String b r ++ String "." (t ++ String " "
            (String k0 keyword ++ String " " (c ++ tail)))).
  rewrite <- Es.
  pose proof (alterColumn_rest k0 keyword c tail) as Hrest.
  unfold seqs in Hrest. cbn [fold_right] in Hrest.
  assert (Hafter : forall j c0,
             run true
               (Seq (Grp 2 word1)
                  (Seq ws1 (Seq (lit (String k0 keyword)) (Seq ws1 (Seq (Grp 3 word1) Eps)))))
               j (t ++ String " " (String k0 keyword ++ String " " (c ++ tail))) c0
               accept
             = Some ((3, c) :: (2, t) :: c0)).
  { intros j c0. rewrite run_Seq, run_Grp.
    rewrite run_word_tail; try assumption; try reflexivity; cbv beta;
      rewrite Hrest by assumption; [|discriminate].
    rewrite Nat.add_comm, Nat.add_sub, substring_prefix. reflexivity. }
  rewrite run_Seq, qualifier_dot; try assumption; cbv beta; rewrite Hafter;
    [reflexivity | discriminate].
Qed.


(** *** Classification of ALTER TABLE statements *)

Lemma toUpperCase_app (a b : string) :
  toUpperCase (a ++ b) = toUpperCase a ++ toUpperCase b.
Proof.
  induction a as [|c a IH]; simpl; [reflexivity|].
  rewrite IH, append_assoc. reflexivity.
Qed.

Lemma includes_middle (a b p : string) :
  toUpperCase p = p -> includes (toUpperCase (a ++ p ++ b)) p = true.
Proof.
  intros Hp. rewrite !toUpperCase_app, Hp.
  apply includes_app_r, includes_app_l, startsWith_includes.
  clear. induction p as [|c p IH]; simpl; [reflexivity|].
  rewrite Ascii.eqb_refl, IH. reflexivity.
Qed.

Lemma classify_addColumn (x y : string) :
  classify ("ALTER TABLE " ++ x ++ " ADD COLUMN " ++ y)
  = [Operation.mk ADD_COLUMN ("ALTER TABLE " ++ x ++ " ADD COLUMN " ++ y)].
Proof.
  unfold classify.
  assert (H : includes
                (toUpperCase ("ALTER TABLE " ++ x ++ " ADD COLUMN " ++ y))
                "ADD COLUMN" = true).
  { replace ("ALTER TABLE " ++ x ++ " ADD COLUMN " ++ y)
      with (("ALTER TABLE " ++ x ++ " ") ++ "ADD COLUMN" ++ (" " ++ y))
      by (rewrite !append_assoc; reflexivity).
    apply includes_middle. reflexivity. }
  rewrite H. reflexivity.
Qed.

Lemma classify_dropColumn (x y : string) :
  includes (toUpperCase ("ALTER TABLE " ++ x ++ " DROP COLUMN " ++ y)) "ADD COLUMN"
  = false ->
  classify ("ALTER TABLE " ++ x ++ " DROP COLUMN " ++ y)
  = [Operation.mk DROP_COLUMN ("ALTER TABLE " ++ x ++ " DROP COLUMN " ++ y)].
Proof.
  intros Hadd. unfold classify.
  assert (H : includes
                (toUpperCase ("ALTER TABLE " ++ x ++ " DROP COLUMN " ++ y))
                "DROP COLUMN" = true).
  { replace ("ALTER TABLE " ++ x ++ " DROP COLUMN " ++ y)
      with (("ALTER TABLE " ++ x ++ " ") ++ "DROP COLUMN" ++ (" " ++ y))
      by (rewrite !append_assoc; reflexivity).
    apply includes_middle. reflexivity. }
  rewrite Hadd, H. reflexivity.
Qed.


(** *** The handlers on a model *)

Ltac assoc := repeat (progress (cbn [append]; rewrite ?append_assoc)); reflexivity.


Lemma updateFound_at (schemaName t : string) (f : Table.t -> Table.t)
    (before after : list Table.t) (table : Table.t) :
  find (isTable schemaName t) before = None ->
  isTable schemaName t table = true ->
  find (isTable schemaName t) (before ++ table :: after) = Some table
  /\ updateFound schemaName t f (before ++ table :: after)
     = (before ++ f table :: after)%list.
Proof.
  intros Hb Ht. induction before as [|x before IH]; simpl in *.
  - rewrite Ht. auto.
  - destruct (isTable schemaName t x); [discriminate|].
    destruct (IH Hb) as [-> ->]. auto.
Qed.

Lemma applyAddColumn_caps (schema : DatabaseSchema.t) (sql schemaName t c : string)
    (m : caps) :
  jsMatch true reAddColumn sql = Some m ->
  groupOr 1 m "public" = schemaName -> groupOf 2 m = t -> groupOf 3 m = c ->
  applyAddColumn schema sql
  = match find (isTable schemaName t) (DatabaseSchema.tables schema) with
    | Some _ =>
        DatabaseSchema.setTables schema
          (updateFound schemaName t (withColumn c) (DatabaseSchema.tables schema))
    | None => schema
    end.
Proof.
  intros Hm H1 H2 H3. unfold applyAddColumn. rewrite Hm. cbv zeta.
  rewrite H1, H2, H3. reflexivity.
Qed.

Lemma applyDropColumn_caps (schema : DatabaseSchema.t) (sql schemaName t c : string)
    (m : caps) :
  jsMatch true reDropColumn sql = Some m ->
  groupOr 1 m "public" = schemaName -> groupOf 2 m = t -> groupOf 3 m = c ->
  applyDropColumn schema sql
  = match find (isTable schemaName t) (DatabaseSchema.tables schema) with
    | Some _ =>
        DatabaseSchema.setTables schema
          (updateFound schemaName t (withoutColumn c) (DatabaseSchema.tables schema))
    | None => schema
    end.
Proof.
  intros Hm H1 H2 H3. unfold applyDropColumn. rewrite Hm. cbv zeta.
  rewrite H1, H2, H3. reflexivity.
Qed.

Lemma name_no_semicolon (n : string) :
  isName n = true -> allOf (fun c => negb (Ascii.eqb c ";")) n = true.
Proof.
  intros H. apply isName_spec in H. apply allOf_word_no_semicolon. tauto.
Qed.

(** The statement [ALTER TABLE ref keyword c tail] for a table reference
    without semicolon. *)
Lemma isStatement_alter (ref keyword c tail : string) :
  allOf (fun x => negb (Ascii.eqb x ";")) ref = true ->
  allOf (fun x => negb (Ascii.eqb x ";")) keyword = true ->
  isName c = true -> isTail tail = true ->
  isStatement ("ALTER TABLE " ++ ref ++ String " " (keyword ++ String " " (c ++ tail)))
  = true.
Proof.
  intros Href Hkw Hc Ht.
  replace ("ALTER TABLE " ++ ref ++ String " " (keyword ++ String " " (c ++ tail)))
    with (String "A" ("LTER TABLE " ++ ref ++ " " ++ keyword ++ " ") ++ c ++ tail)
    by assoc.
  apply isStatement_name; try assumption; [reflexivity|].
  change (String "A" ("LTER TABLE " ++ ref ++ " " ++ keyword ++ " "))
    with ("ALTER TABLE " ++ ref ++ " " ++ keyword ++ " ").
  rewrite !allOf_app, Href, Hkw. reflexivity.
Qed.

Lemma column_groups (s t c : string) :
  isName s = true ->
  groupOr 1 [(3, c); (2, t); (1, s)] "public" = s
  /\ groupOf 2 [(3, c); (2, t); (1, s)] = t
  /\ groupOf 3 [(3, c); (2, t); (1, s)] = c.
Proof.
  intros Hs. apply isName_spec in Hs. destruct Hs as [_ Hne].
  unfold groupOr, groupOf. cbn [group Nat.eqb].
  destruct s; [congruence|]. repeat split; reflexivity.
Qed.

(** The handler reached by an ADD COLUMN statement, and its captures. *)
Lemma addColumn_handler (schema : DatabaseSchema.t)
    (version schemaName t c tail sql : string) :
  isName t = true -> isName c = true -> isTail tail = true ->
  (schemaName = "public"
   /\ sql = "ALTER TABLE " ++ t ++ " ADD COLUMN " ++ c ++ tail)
  \/ (isName schemaName = true
      /\ sql = "ALTER TABLE " ++ schemaName ++ "." ++ t ++ " ADD COLUMN " ++ c ++ tail) ->
  applyMigrationToSchema schema (migration version sql)
  = match find (isTable schemaName t) (DatabaseSchema.tables schema) with
    | Some _ =>
        DatabaseSchema.setTables schema
          (updateFound schemaName t (withColumn c) (DatabaseSchema.tables schema))
    | None => schema
    end.
Proof.
  intros Ht Hc Htail Hsql.
  destruct (isTail_spec tail Htail) as [_ [Hew _]].
  destruct Hsql as [[-> ->]|[Hs ->]].
  - rewrite (replay_statement schema version _ ADD_COLUMN).
    + unfold applyOperation. cbn [Operation.type Operation.sql].
      apply (applyAddColumn_caps schema _ "public" t c [(3, c); (2, t)]);
        try reflexivity.
      apply (alterColumn_plain "A" "DD COLUMN" t c tail); auto.
    + apply (isStatement_alter t "ADD COLUMN" c tail); auto.
      apply name_no_semicolon, Ht.
    + apply classify_addColumn.
  - destruct (column_groups schemaName t c Hs) as [G1 [G2 G3]].
    rewrite (replay_statement schema version _ ADD_COLUMN).
    + unfold applyOperation. cbn [Operation.type Operation.sql].
      apply (applyAddColumn_caps schema _ schemaName t c
               [(3, c); (2, t); (1, schemaName)]); try assumption.
      apply (alterColumn_qualified "A" "DD COLUMN" schemaName t c tail); auto.
    + replace ("ALTER TABLE " ++ schemaName ++ "." ++ t ++ " ADD COLUMN " ++ c ++ tail)
        with ("ALTER TABLE " ++ (schemaName ++ "." ++ t)
              ++ String " " ("ADD COLUMN" ++ String " " (c ++ tail)))
        by assoc.
      apply isStatement_alter; auto.
      rewrite !allOf_app, (name_no_semicolon _ Hs), (name_no_semicolon _ Ht).
      reflexivity.
    + replace ("ALTER TABLE " ++ schemaName ++ "." ++ t ++ " ADD COLUMN " ++ c ++ tail)
        with ("ALTER TABLE " ++ (schemaName ++ "." ++ t) ++ " ADD COLUMN " ++ c ++ tail)
        by assoc.
      apply classify_addColumn.
Qed.

(** The outcome of a handler on a model whose first table of that schema
    and name is known. *)
Lemma handler_at (schema : DatabaseSchema.t) (schemaName t : string)
    (f : Table.t -> Table.t) (before : list Table.t) (table : Table.t)
    (after : list Table.t) :
  DatabaseSchema.tables schema = (before ++ table :: after)%list ->
  find (isTable schemaName t) before = None ->
  isTable schemaName t table = true ->
  match find (isTable schemaName t) (DatabaseSchema.tables schema) with
  | Some _ =>
      DatabaseSchema.setTables schema
        (updateFound schemaName t f (DatabaseSchema.tables schema))
  | None => schema
  end
  = DatabaseSchema.setTables schema (before ++ f table :: after)%list.
Proof.
  intros Htables Hb Htab. rewrite Htables.
  destruct (updateFound_at schemaName t f before after table Hb Htab) as [-> ->].
  reflexivity.
Qed.

(** X12.  Replaying ALTER TABLE ... ADD COLUMN leaves the model as it is
    when it has no table of that schema and name; otherwise it appends to the
    first such table a nullable column of type text with the next position,
    whatever type the statement declares, and touches no other table. *)
Theorem addColumn_replay (schema : DatabaseSchema.t)
    (version schemaName t c tail sql : string) :
  isName t = true -> isName c = true -> isTail tail = true ->
  (schemaName = "public"
   /\ sql = "ALTER TABLE " ++ t ++ " ADD COLUMN " ++ c ++ tail)
  \/ (isName schemaName = true
      /\ sql = "ALTER TABLE " ++ schemaName ++ "." ++ t ++ " ADD COLUMN " ++ c ++ tail) ->
  (find (isTable schemaName t) (DatabaseSchema.tables schema) = None ->
   applyMigrationToSchema schema (migration version sql) = schema)
  /\ (forall before table after,
         DatabaseSchema.tables schema = (before ++ table :: after)%list ->
         find (isTable schemaName t) before = None ->
         isTable schemaName t table = true ->
         applyMigrationToSchema schema (migration version sql)
         = DatabaseSchema.setTables schema
             (before ++ withColumn c table :: after)%list).
Proof.
  intros Ht Hc Htail Hsql.
  rewrite (addColumn_handler schema version schemaName t c tail sql Ht Hc Htail Hsql).
  split.
  - intros ->. reflexivity.
  - intros before table after Htables Hb Htab. rewrite Htables.
    destruct (updateFound_at schemaName t (withColumn c) before after table Hb Htab)
      as [-> ->].
    reflexivity.
Qed.

Lemma addColumn_replay_witness :
  applyMigrationToSchema usersSchema
    (migration "2" "ALTER TABLE users ADD COLUMN email varchar(80)")
  = usersWithEmail.
Proof.
  exact (proj2
           (addColumn_replay usersSchema "2" "public" "users" "email"
              " varchar(80)" "ALTER TABLE users ADD COLUMN email varchar(80)"
              eq_refl eq_refl eq_refl (or_introl (conj eq_refl eq_refl)))
           [] (newTable "public" "users") [] eq_refl eq_refl eq_refl).
Defined.


(** The handler reached by a DROP COLUMN statement, and its captures. *)
Lemma dropColumn_handler (schema : DatabaseSchema.t)
    (version schemaName t c tail sql : string) :
  isName t = true -> isName c = true -> isTail tail = true ->
  (schemaName = "public"
   /\ sql = "ALTER TABLE " ++ t ++ " DROP COLUMN " ++ c ++ tail)
  \/ (isName schemaName = true
      /\ sql = "ALTER TABLE " ++ schemaName ++ "." ++ t ++ " DROP COLUMN " ++ c ++ tail) ->
  includes (toUpperCase sql) "ADD COLUMN" = false ->
  applyMigrationToSchema schema (migration version sql)
  = match find (isTable schemaName t) (DatabaseSchema.tables schema) with
    | Some _ =>
        DatabaseSchema.setTables schema
          (updateFound schemaName t (withoutColumn c) (DatabaseSchema.tables schema))
    | None => schema
    end.
Proof.
  intros Ht Hc Htail Hsql Hadd.
  destruct (isTail_spec tail Htail) as [_ [Hew _]].
  destruct Hsql as [[-> ->]|[Hs ->]].
  - rewrite (replay_statement schema version _ DROP_COLUMN).
    + unfold applyOperation. cbn [Operation.type Operation.sql].
      apply (applyDropColumn_caps schema _ "public" t c [(3, c); (2, t)]);
        try reflexivity.
      apply (alterColumn_plain "D" "ROP COLUMN" t c tail); auto.
    + apply (isStatement_alter t "DROP COLUMN" c tail); auto.
      apply name_no_semicolon, Ht.
    + apply classify_dropColumn, Hadd.
  - destruct (column_groups schemaName t c Hs) as [G1 [G2 G3]].
    rewrite (replay_statement schema version _ DROP_COLUMN).
    + unfold applyOperation. cbn [Operation.type Operation.sql].
      apply (applyDropColumn_caps schema _ schemaName t c
               [(3, c); (2, t); (1, schemaName)]); try assumption.
      apply (alterColumn_qualified "D" "ROP COLUMN" schemaName t c tail); auto.
    + replace ("ALTER TABLE " ++ schemaName ++ "." ++ t ++ " DROP COLUMN " ++ c ++ tail)
        with ("ALTER TABLE " ++ (schemaName ++ "." ++ t)
              ++ String " " ("DROP COLUMN" ++ String " " (c ++ tail)))
        by assoc.
      apply isStatement_alter; auto.
      rewrite !allOf_app, (name_no_semicolon _ Hs), (name_no_semicolon _ Ht).
      reflexivity.
    + replace ("ALTER TABLE " ++ schemaName ++ "." ++ t ++ " DROP COLUMN " ++ c ++ tail)
        with ("ALTER TABLE " ++ (schemaName ++ "." ++ t) ++ " DROP COLUMN " ++ c ++ tail)
        in * by assoc.
      apply classify_dropColumn, Hadd.
Qed.

(** X13.  Replaying ALTER TABLE ... DROP COLUMN, for a statement that does
    not also read ADD COLUMN, leaves the model as it is when it has no table
    of that schema and name; otherwise it removes from the first such table
    every column of that name and touches no other table. *)
Theorem dropColumn_replay (schema : DatabaseSchema.t)
    (version schemaName t c tail sql : string) :
  isName t = true -> isName c = true -> isTail tail = true ->
  (schemaName = "public"
   /\ sql = "ALTER TABLE " ++ t ++ " DROP COLUMN " ++ c ++ tail)
  \/ (isName schemaName = true
      /\ sql = "ALTER TABLE " ++ schemaName ++ "." ++ t ++ " DROP COLUMN " ++ c ++ tail) ->
  includes (toUpperCase sql) "ADD COLUMN" = false ->
  (find (isTable schemaName t) (DatabaseSchema.tables schema) = None ->
   applyMigrationToSchema schema (migration version sql) = schema)
  /\ (forall before table after,
         DatabaseSchema.tables schema = (before ++ table :: after)%list ->
         find (isTable schemaName t) before = None ->
         isTable schemaName t table = true ->
         applyMigrationToSchema schema (migration version sql)
         = DatabaseSchema.setTables schema
             (before ++ withoutColumn c table :: after)%list).
Proof.
  intros Ht Hc Htail Hsql Hadd.
  rewrite (dropColumn_handler schema version schemaName t c tail sql
             Ht Hc Htail Hsql Hadd).
  split.
  - intros ->. reflexivity.
  - intros before table after Htables Hb Htab. rewrite Htables.
    destruct (updateFound_at schemaName t (withoutColumn c) before after table Hb Htab)
      as [-> ->].
    reflexivity.
Qed.

Lemma dropColumn_replay_witness :
  applyMigrationToSchema usersWithEmail
    (migration "3" "ALTER TABLE users DROP COLUMN email")
  = usersSchema.
Proof.
  exact (proj2
           (dropColumn_replay usersWithEmail "3" "public" "users" "email" ""
              "ALTER TABLE users DROP COLUMN email"
              eq_refl eq_refl eq_refl (or_introl (conj eq_refl eq_refl)) eq_refl)
           [] (withColumn "email" (newTable "public" "users")) []
           eq_refl eq_refl eq_refl).
Defined.

Lemma isTable_withColumn (schemaName t c : string) (table : Table.t) :
  isTable schemaName t (withColumn c table) = isTable schemaName t table.
Proof. reflexivity. Qed.

Lemma withoutColumn_withColumn (c : string) (table : Table.t) :
  (forall col, In col (Table.columns table) -> Column.name col <> c) ->
  withoutColumn c (withColumn c table) = table.
Proof.
  intros H. destruct table as [s n cols cons idx]. unfold withoutColumn, withColumn.
  cbn [Table.schema Table.name Table.columns Table.constraints Table.indexes] in *.
  rewrite filter_app. cbn [filter placeholderColumn Column.name].
  rewrite String.eqb_refl. cbn [negb]. rewrite app_nil_r.
  rewrite filter_absent; [reflexivity|].
  intros col Hin. apply negb_true_iff, String.eqb_neq, H, Hin.
Qed.

(** X14.  Adding a column that the table does not have and dropping it
    again gives back the model. *)
Theorem addColumn_dropColumn (schema : DatabaseSchema.t)
    (v1 v2 t c tail : string) (before after : list Table.t) (table : Table.t) :
  isName t = true -> isName c = true -> isTail tail = true ->
  includes (toUpperCase ("ALTER TABLE " ++ t ++ " DROP COLUMN " ++ c)) "ADD COLUMN"
  = false ->
  DatabaseSchema.tables schema = (before ++ table :: after)%list ->
  find (isTable "public" t) before = None ->
  isTable "public" t table = true ->
  (forall col, In col (Table.columns table) -> Column.name col <> c) ->
  let added :=
    applyMigrationToSchema schema
      (migration v1 ("ALTER TABLE " ++ t ++ " ADD COLUMN " ++ c ++ tail)) in
  DatabaseSchema.tables added = (before ++ withColumn c table :: after)%list
  /\ applyMigrationToSchema added
       (migration v2 ("ALTER TABLE " ++ t ++ " DROP COLUMN " ++ c))
     = schema.
Proof.
  intros Ht Hc Htail Hadd Htables Hb Htab Hfresh added.
  assert (Hadded : added
            = DatabaseSchema.setTables schema
                (before ++ withColumn c table :: after)%list).
  { unfold added.
    rewrite (addColumn_handler schema v1 "public" t c tail _ Ht Hc Htail
               (or_introl (conj eq_refl eq_refl))).
    apply handler_at; assumption. }
  split; [rewrite Hadded; reflexivity|].
  assert (Hdrop :
            applyMigrationToSchema added
              (migration v2 ("ALTER TABLE " ++ t ++ " DROP COLUMN " ++ c ++ ""))
            = DatabaseSchema.setTables added
                (before ++ withoutColumn c (withColumn c table) :: after)%list).
  { rewrite (dropColumn_handler added v2 "public" t c "" _ Ht Hc eq_refl
                 (or_introl (conj eq_refl eq_refl))
                 ltac:(rewrite append_nil_r; exact Hadd)).
    apply handler_at; [rewrite Hadded; reflexivity | assumption | assumption]. }
  rewrite append_nil_r in Hdrop. rewrite Hdrop, Hadded.
  rewrite (withoutColumn_withColumn c table Hfresh).
  destruct schema. cbn in *. rewrite Htables. reflexivity.
Qed.

Lemma addColumn_dropColumn_witness :
  applyMigrationToSchema
    (applyMigrationToSchema usersSchema
       (migration "1" "ALTER TABLE users ADD COLUMN email text"))
    (migration "2" "ALTER TABLE users DROP COLUMN email")
  = usersSchema.
Proof.
  exact (proj2
           (addColumn_dropColumn usersSchema "1" "2" "users" "email" " text"
              [] [] (newTable "public" "users")
              eq_refl eq_refl eq_refl eq_refl eq_refl eq_refl eq_refl
              (fun col (H : In col []) => match H with end))).
Defined.

End ColumnReplay.

(** ** Trimming and splitting *)

Module TrimFacts.
Import StringFacts.

Lemma split_no_sep (sep : ascii) (s piece : string) :
  In piece (split sep s) ->
  allOf (fun c => negb (Ascii.eqb c sep)) piece = true.
Proof.
  revert piece. induction s as [|c s IH]; intros piece; simpl.
  - intros [<-|[]]. reflexivity.
  - destruct (Ascii.eqb c sep) eqn:E.
    + intros [<-|H]; [reflexivity | apply IH, H].
    + pose proof (split_nonempty sep s) as Hne.
      destruct (split sep s) as [|h t]; [congruence|].
      intros [<-|H].
      * simpl. rewrite E. simpl. apply IH. left. reflexivity.
      * apply IH. right. exact H.
Qed.

Lemma allOf_trimStart (p : ascii -> bool) (s : string) :
  allOf p s = true -> allOf p (trimStart s) = true.
Proof.
  induction s as [|c s IH]; simpl; [auto|].
  intros H. apply andb_true_iff in H. destruct H as [Hc Hs].
  destruct (isWhiteSpace c); [apply IH, Hs|]. simpl. rewrite Hc, Hs. reflexivity.
Qed.

Lemma allOf_trimEnd (p : ascii -> bool) (s : string) :
  allOf p s = true -> allOf p (trimEnd s) = true.
Proof.
  induction s as [|c s IH]; simpl; [auto|].
  intros H. apply andb_true_iff in H. destruct H as [Hc Hs].
  specialize (IH Hs). destruct (trimEnd s) as [|x r].
  - destruct (isWhiteSpace c); [reflexivity|]. simpl. rewrite Hc. reflexivity.
  - simpl in *. rewrite Hc, IH. reflexivity.
Qed.

Lemma trimEnd_idem (s : string) : trimEnd (trimEnd s) = trimEnd s.
Proof.
  induction s as [|c s IH]; simpl; [reflexivity|].
  destruct (trimEnd s) as [|x r] eqn:E.
  - destruct (isWhiteSpace c) eqn:Hc; [reflexivity|]. simpl. rewrite Hc. reflexivity.
  - simpl. simpl in IH. rewrite IH. reflexivity.
Qed.

Lemma trimStart_fixed (s : string) :
  trimStart s = s <-> match s with "" => True | String c _ => isWhiteSpace c = false end.
Proof.
  destruct s as [|c s]; simpl; [tauto|].
  destruct (isWhiteSpace c) eqn:E; split; try congruence; try reflexivity.
  intros H. exfalso.
  assert (Hl : String.length (trimStart s) <= String.length s).
  { clear. induction s as [|d s IH]; simpl; [lia|].
    destruct (isWhiteSpace d); simpl; lia. }
  rewrite H in Hl. simpl in Hl. lia.
Qed.

Lemma trimEnd_head (s : string) :
  match s with "" => True | String c _ => isWhiteSpace c = false end ->
  match trimEnd s with "" => s = "" | String c _ => isWhiteSpace c = false end.
Proof.
  destruct s as [|c s]; simpl; [reflexivity|].
  intros Hc. destruct (trimEnd s); [rewrite Hc|]; exact Hc.
Qed.

Lemma trimStart_head (s : string) :
  match trimStart s with "" => True | String c _ => isWhiteSpace c = false end.
Proof.
  induction s as [|c s IH]; simpl; [exact I|].
  destruct (isWhiteSpace c) eqn:E; [exact IH | exact E].
Qed.

(** Trimming twice is trimming once. *)
Lemma trim_idem (s : string) : trim (trim s) = trim s.
Proof.
  unfold trim.
  assert (H : trimStart (trimEnd (trimStart s)) = trimEnd (trimStart s)).
  { apply trimStart_fixed.
    pose proof (trimEnd_head (trimStart s) (trimStart_head s)) as Hh.
    destruct (trimEnd (trimStart s)); [exact I | exact Hh]. }
  rewrite H. apply trimEnd_idem.
Qed.

Lemma allOf_imp_true (p q : ascii -> bool) (s : string) :
  (forall c, p c = true -> q c = true) -> allOf p s = true -> allOf q s = true.
Proof.
  intros H. induction s as [|c s IH]; [reflexivity|].
  cbn [allOf]. intros Hs. apply andb_true_iff in Hs. destruct Hs as [Hc Hs].
  rewrite (H c Hc), (IH Hs). reflexivity.
Qed.

End TrimFacts.

(** ** Replay: statements, migrations and handlers *)

Module ReplayMore.
Import SchemaAnalyzer MigrationParser Support StringFacts TrimFacts.

Lemma statements_app (a b : string) :
  statements (a ++ String ";" b) = (statements a ++ statements b)%list.
Proof. unfold statements. rewrite split_app, map_app, filter_app. reflexivity. Qed.

Lemma parseMigrationOperations_app (a b : string) :
  parseMigrationOperations (a ++ String ";" b)
  = (parseMigrationOperations a ++ parseMigrationOperations b)%list.
Proof.
  unfold parseMigrationOperations. rewrite statements_app, flat_map_app.
  reflexivity.
Qed.

(** X15.  The replay does not see where one migration ends and the next
    begins: a migration whose up SQL is two texts joined by a semicolon is
    replayed as the two texts in two migrations, whatever the versions, at any
    place of a migration list; and replaying a list is replaying its first
    part and then the rest. *)
Theorem migration_boundary (schema : DatabaseSchema.t) (v v1 v2 a b : string)
    (before after : list Migration.t) :
  applyMigrationToSchema schema (migration v (a ++ ";" ++ b))
  = applyMigrationToSchema (applyMigrationToSchema schema (migration v1 a))
      (migration v2 b)
  /\ buildExpectedSchemaFromMigrations (before ++ migration v (a ++ ";" ++ b) :: after)
     = buildExpectedSchemaFromMigrations
         (before ++ migration v1 a :: migration v2 b :: after)
  /\ buildExpectedSchemaFromMigrations (before ++ after)
     = fold_left applyMigrationToSchema after
         (buildExpectedSchemaFromMigrations before).
Proof.
  assert (H : forall s,
             applyMigrationToSchema s (migration v (a ++ ";" ++ b))
             = applyMigrationToSchema (applyMigrationToSchema s (migration v1 a))
                 (migration v2 b)).
  { intros s. unfold applyMigrationToSchema, migration. cbn [Migration.upSql].
    change (a ++ ";" ++ b) with (a ++ String ";" b).
    rewrite parseMigrationOperations_app, fold_left_app. reflexivity. }
  split; [apply H|]. split.
  - unfold buildExpectedSchemaFromMigrations.
    rewrite !fold_left_app. cbn [fold_left]. rewrite H. reflexivity.
  - unfold buildExpectedSchemaFromMigrations. apply fold_left_app.
Qed.

(** *** What the classifier hands on *)

Lemma classify_sql (statement : string) (op : Operation.t) :
  In op (classify statement) -> Operation.sql op = statement.
Proof.
  unfold classify.
  repeat match goal with
         | |- context [if ?b then _ else _] => destruct b
         end; simpl; intros H; try contradiction;
    destruct H as [<-|[]]; reflexivity.
Qed.

Lemma classify_length (statement : string) : List.length (classify statement) <= 1.
Proof.
  unfold classify.
  repeat match goal with
         | |- context [if ?b then _ else _] => destruct b
         end; simpl; lia.
Qed.

(** X16.  Every operation that reaches a handler carries one fragment of
    the up SQL between semicolons, trimmed: it is not empty and holds no
    semicolon.  A fragment yields at most one operation, and there are no
    more fragments than pieces between semicolons. *)
Theorem parseMigrationOperations_statements (sql : string) :
  (forall op,
      In op (parseMigrationOperations sql) ->
      Operation.sql op <> ""
      /\ trim (Operation.sql op) = Operation.sql op
      /\ includes (Operation.sql op) ";" = false
      /\ In (Operation.sql op) (map trim (split ";" sql))
      /\ classified (Operation.type op) = true)
  /\ List.length (parseMigrationOperations sql) <= List.length (statements sql)
  /\ List.length (statements sql) <= List.length (split ";" sql).
Proof.
  split; [|split].
  - intros op Hop.
    assert (Hty : classified (Operation.type op) = true).
    { pose proof (ClassifierFacts.parseMigrationOperations_classified sql) as H.
      rewrite forallb_forall in H. apply H, Hop. }
    unfold parseMigrationOperations in Hop. apply in_flat_map in Hop.
    destruct Hop as [st [Hst Hop]]. rewrite (classify_sql st op Hop).
    unfold statements in Hst. apply filter_In in Hst. destruct Hst as [Hin Hlen].
    pose proof Hin as Hin'.
    apply in_map_iff in Hin. destruct Hin as [piece [<- Hpiece]].
    split; [|split; [|split; [|split]]].
    + intros E. rewrite E in Hlen. discriminate.
    + apply trim_idem.
    + pose proof (split_no_sep ";" sql piece Hpiece) as Hno.
      apply (allOf_trimStart _ piece) in Hno. apply allOf_trimEnd in Hno.
      fold (trim piece) in Hno. clear - Hno.
      induction (trim piece) as [|c s IH]; [reflexivity|].
      cbn [allOf] in Hno. apply andb_true_iff in Hno. destruct Hno as [Hc Hs].
      apply negb_true_iff in Hc.
      change (includes (String c s) ";")
        with (Ascii.eqb ";" c && startsWith s "" || includes s ";").
      rewrite Ascii.eqb_sym, Hc. apply IH, Hs.
    + exact Hin'.
    + exact Hty.
  - unfold parseMigrationOperations.
    induction (statements sql) as [|st l IH]; simpl; [lia|].
    rewrite length_app. pose proof (classify_length st). lia.
  - unfold statements.
    etransitivity; [apply filter_length_le|]. rewrite length_map. lia.
Qed.

(** A fragment is classified by its first character. *)
Lemma classify_first (c : ascii) (r : string) :
  opensStatement c = false -> classify (String c r) = [].
Proof. destruct c as [[] [] [] [] [] [] [] []]; vm_compute; congruence. Qed.

Lemma isWhiteSpace_not_semicolon (c : ascii) :
  isWhiteSpace c = true -> negb (Ascii.eqb c ";") = true.
Proof. destruct c as [[] [] [] [] [] [] [] []]; vm_compute; congruence. Qed.

Lemma trimStart_blank (ws s : string) :
  allOf isWhiteSpace ws = true -> trimStart (ws ++ s) = trimStart s.
Proof.
  induction ws as [|x ws IH]; [reflexivity|].
  cbn [allOf append trimStart]. intros H. apply andb_true_iff in H.
  destruct H as [Hx Hws]. rewrite Hx. apply IH, Hws.
Qed.

Lemma parseMigrationOperations_unclassified (ws : string) (c : ascii)
    (text : string) :
  allOf isWhiteSpace ws = true ->
  isWhiteSpace c = false ->
  opensStatement c = false ->
  allOf (fun x => negb (Ascii.eqb x ";")) (String c text) = true ->
  parseMigrationOperations (ws ++ String c text) = [].
Proof.
  intros Hws Hc Hopen Htext.
  assert (Hsemi : allOf (fun x => negb (Ascii.eqb x ";")) (ws ++ String c text)
                  = true).
  { rewrite IndexFacts.allOf_app, Htext, andb_true_r.
    apply (TrimFacts.allOf_imp_true isWhiteSpace _ ws
             isWhiteSpace_not_semicolon Hws). }
  unfold parseMigrationOperations, statements.
  rewrite (IndexFacts.split_single _ Hsemi). cbn [map]. unfold trim.
  rewrite (trimStart_blank ws (String c text) Hws). cbn [trimStart]. rewrite Hc.
  pose proof (trimEnd_head (String c text) Hc) as Hh.
  destruct (trimEnd (String c text)) as [|x r] eqn:E; [discriminate|].
  assert (x = c).
  { cbn [trimEnd] in E. destruct (trimEnd text); [rewrite Hc in E|];
      congruence. }
  subst x. cbn [filter String.length Nat.ltb Nat.leb flat_map].
  rewrite (classify_first c r Hopen). reflexivity.
Qed.

(** X17.  A fragment whose first character after white space does not open
    ALTER, CREATE or DROP is not replayed, whatever it holds after: a
    statement that follows a comment line inside the same fragment is
    skipped.  The rest of the up SQL is replayed as if the fragment were not
    there. *)
Theorem unclassified_fragment_skipped (schema : DatabaseSchema.t)
    (version ws : string) (c : ascii) (text rest : string) :
  allOf isWhiteSpace ws = true ->
  isWhiteSpace c = false ->
  opensStatement c = false ->
  allOf (fun x => negb (Ascii.eqb x ";")) (String c text) = true ->
  applyMigrationToSchema schema
    (migration version (ws ++ String c text ++ ";" ++ rest))
  = applyMigrationToSchema schema (migration version rest)
  /\ applyMigrationToSchema schema (migration version (ws ++ String c text))
     = schema.
Proof.
  intros Hws Hc Hopen Htext.
  pose proof (parseMigrationOperations_unclassified ws c text Hws Hc Hopen Htext)
    as Hnone.
  unfold applyMigrationToSchema, migration. cbn [Migration.upSql]. split.
  - replace (ws ++ String c text ++ ";" ++ rest)
      with ((ws ++ String c text) ++ String ";" rest)
      by (rewrite append_assoc; reflexivity).
    rewrite parseMigrationOperations_app, Hnone. reflexivity.
  - rewrite Hnone. reflexivity.
Qed.

(** A CREATE TABLE under a comment line is not replayed. *)
Lemma unclassified_fragment_skipped_witness :
  applyMigrationToSchema emptySchema
    (migration "1" (commentedCreate ++ ";" ++ "CREATE TABLE t"))
  = applyMigrationToSchema emptySchema (migration "1" "CREATE TABLE t").
Proof.
  exact (proj1
           (unclassified_fragment_skipped emptySchema "1" newline "-"
              ("- users" ++ newline ++ "CREATE TABLE users (id int)")
              "CREATE TABLE t" eq_refl eq_refl eq_refl eq_refl)).
Defined.

End ReplayMore.

(** ** The analysis of a directory *)

Module AnalysisFacts.
Import MigrationParser Support VersionFacts LoadedFacts.

Lemma fold_analyzeStep_tallies (files : list MigrationFile.t)
    (st : MigrationAnalysis.t * JsObject.t) :
  let a := fst (fold_left analyzeStep files st) in
  MigrationAnalysis.validMigrations a
  = MigrationAnalysis.validMigrations (fst st) + List.length (filter isValid files)
  /\ MigrationAnalysis.invalidMigrations a
     = MigrationAnalysis.invalidMigrations (fst st)
       + List.length (filter (fun f => negb (isValid f)) files)
  /\ MigrationAnalysis.missingDownMigrations a
     = MigrationAnalysis.missingDownMigrations (fst st)
       + List.length (filter hasBlankDown files)
  /\ MigrationAnalysis.errors a
     = (MigrationAnalysis.errors (fst st)
        ++ flat_map parseErrorsOf (filter (fun f => negb (isValid f)) files))%list
  /\ MigrationAnalysis.duplicateVersions a
     = MigrationAnalysis.duplicateVersions (fst st).
Proof.
  revert st. induction files as [|f files IH]; intros st.
  - cbn. rewrite app_nil_r. repeat split; lia.
  - cbn [fold_left]. destruct (IH (analyzeStep st f)) as [H1 [H2 [H3 [H4 H5]]]].
    cbv zeta. rewrite H1, H2, H3, H4, H5. clear IH H1 H2 H3 H4 H5.
    destruct st as [a o]. unfold analyzeStep. cbn [fst snd].
    cbn [MigrationAnalysis.validMigrations MigrationAnalysis.invalidMigrations
         MigrationAnalysis.missingDownMigrations MigrationAnalysis.errors
         MigrationAnalysis.duplicateVersions filter].
    fold (isValid f). fold (hasBlankDown f). fold (parseErrorsOf f).
    destruct (isValid f), (hasBlankDown f); cbn [negb List.length flat_map];
      rewrite <- ?app_assoc; repeat split; lia.
Qed.

Lemma filter_partition {A : Type} (p : A -> bool) (l : list A) :
  List.length (filter p l) + List.length (filter (fun x => negb (p x)) l)
  = List.length l.
Proof.
  induction l as [|x l IH]; simpl; [reflexivity|].
  destruct (p x); simpl; lia.
Qed.

Lemma filter_length_imp {A : Type} (p q : A -> bool) (l : list A) :
  Forall (fun x => p x = true -> q x = true) l ->
  List.length (filter p l) <= List.length (filter q l).
Proof.
  induction 1 as [|x l Hx _ IH]; simpl; [lia|].
  destruct (p x) eqn:Ep.
  - rewrite (Hx eq_refl). simpl. lia.
  - destruct (q x); simpl; lia.
Qed.

(** A record built by the parser with a blank down section is invalid. *)
Lemma blankDown_invalid (filename content : string) :
  hasBlankDown (loaded filename content) = true ->
  isValid (loaded filename content) = false.
Proof.
  unfold hasBlankDown, isValid, loaded. cbn [MigrationFile.parsed].
  unfold parseMigrationContent.
  destruct (parseMigrationSections content) as [u d].
  cbn [ParsedMigration.downSql ParsedMigration.hasValidStructure].
  intros ->. rewrite !length_app. cbn [List.length].
  destruct (List.length _), (List.length _); reflexivity.
Qed.

Lemma analyzeFiles_errors (files : list MigrationFile.t) :
  MigrationAnalysis.errors (analyzeFiles files)
  = (flat_map parseErrorsOf (filter (fun f => negb (isValid f)) files)
     ++ map duplicateError
          (MigrationAnalysis.duplicateVersions (analyzeFiles files)))%list.
Proof.
  unfold analyzeFiles.
  pose proof (fold_analyzeStep_tallies files
                (MigrationAnalysis.mk (List.length files) 0 0 0 [] [] [], []))
    as [_ [_ [_ [H4 _]]]].
  destruct (fold_left analyzeStep files _) as [analysis versionCounts].
  cbn [fst snd MigrationAnalysis.errors MigrationAnalysis.duplicateVersions app]
    in *.
  rewrite H4. reflexivity.
Qed.

(** X18.  The tallies of an analysis add up: valid and invalid files make
    the total, which is the number of files; the chain has one entry for each
    valid file; the files counted as missing a down section are those whose
    down section is blank; the errors are the parse errors of the invalid
    files, in order, followed by one error for each duplicate version.  For
    files built by the loader, a file missing its down section is also
    counted invalid. *)
Theorem analyzeFiles_tallies (files : list MigrationFile.t) :
  let analysis := analyzeFiles files in
  MigrationAnalysis.validMigrations analysis
  + MigrationAnalysis.invalidMigrations analysis
  = MigrationAnalysis.totalFiles analysis
  /\ MigrationAnalysis.totalFiles analysis = List.length files
  /\ MigrationAnalysis.validMigrations analysis
     = List.length (MigrationAnalysis.migrationChain analysis)
  /\ MigrationAnalysis.validMigrations analysis
     = List.length (filter isValid files)
  /\ MigrationAnalysis.missingDownMigrations analysis
     = List.length (filter hasBlankDown files)
  /\ MigrationAnalysis.errors analysis
     = (flat_map parseErrorsOf (filter (fun f => negb (isValid f)) files)
        ++ map duplicateError (MigrationAnalysis.duplicateVersions analysis))%list
  /\ (Forall isLoaded files ->
      MigrationAnalysis.missingDownMigrations analysis
      <= MigrationAnalysis.invalidMigrations analysis).
Proof.
  cbv zeta. unfold analyzeFiles.
  pose proof (fold_analyzeStep_tallies files
                (MigrationAnalysis.mk (List.length files) 0 0 0 [] [] [], []))
    as [H1 [H2 [H3 [H4 _]]]].
  pose proof (fold_analyzeStep_fields files
                (MigrationAnalysis.mk (List.length files) 0 0 0 [] [] [], []))
    as [H5 H6].
  destruct (fold_left analyzeStep files _) as [analysis versionCounts].
  cbn [fst snd MigrationAnalysis.validMigrations
       MigrationAnalysis.invalidMigrations
       MigrationAnalysis.missingDownMigrations MigrationAnalysis.errors
       MigrationAnalysis.duplicateVersions MigrationAnalysis.totalFiles
       MigrationAnalysis.migrationChain app] in *.
  rewrite H1, H2, H3, H4, H5, H6, length_map.
  pose proof (filter_partition isValid files).
  repeat split; try lia.
  intros Hl. simpl. apply filter_length_imp.
  eapply Forall_impl; [|exact Hl]. intros f [Hf _] Hb.
  rewrite Hf in *. rewrite (blankDown_invalid _ _ Hb). reflexivity.
Qed.

(** *** Duplicates, exactly *)

Lemma set_names (o : JsObject.t) (k : string) (n : nat) :
  map fst (JsObject.set o k n)
  = if existsb (String.eqb k) (map fst o) then map fst o
    else (map fst o ++ [k])%list.
Proof.
  induction o as [|[k' n'] o IH]; simpl; [reflexivity|].
  rewrite (String.eqb_sym k k').
  destruct (String.eqb k' k) eqn:E; simpl; [reflexivity|].
  rewrite IH. destruct (existsb _ _); reflexivity.
Qed.

Lemma set_NoDup (o : JsObject.t) (k : string) (n : nat) :
  NoDup (map fst o) -> NoDup (map fst (JsObject.set o k n)).
Proof.
  intros H. rewrite set_names.
  destruct (existsb (String.eqb k) (map fst o)) eqn:E; [exact H|].
  apply NoDup_app; [exact H | repeat constructor; intros [] |].
  intros x Hx [Hk|[]]. subst x.
  assert (existsb (String.eqb k) (map fst o) = true); [|congruence].
  apply existsb_exists. exists k. split; [exact Hx | apply String.eqb_refl].
Qed.

Lemma fold_analyzeStep_NoDup (files : list MigrationFile.t)
    (st : MigrationAnalysis.t * JsObject.t) :
  NoDup (map fst (snd st)) ->
  NoDup (map fst (snd (fold_left analyzeStep files st))).
Proof.
  revert st. induction files as [|f files IH]; intros st H; [exact H|].
  simpl. apply IH. destruct st as [a o]. unfold analyzeStep. cbn [snd] in *.
  destruct (negb _); [apply set_NoDup, H | exact H].
Qed.

Lemma fold_analyzeStep_empty (files : list MigrationFile.t)
    (st : MigrationAnalysis.t * JsObject.t) :
  JsObject.get (snd (fold_left analyzeStep files st)) ""
  = JsObject.get (snd st) "".
Proof.
  revert st. induction files as [|f files IH]; intros st; [reflexivity|].
  simpl. rewrite IH. destruct st as [a o]. unfold analyzeStep. cbn [snd].
  destruct (String.eqb (ParsedMigration.version (MigrationFile.parsed f)) "")
    eqn:E; simpl; [reflexivity|].
  apply get_set_other. apply String.eqb_neq. exact E.
Qed.

Lemma keys_NoDup (o : JsObject.t) : NoDup (map fst o) -> NoDup (JsObject.keys o).
Proof.
  intros H. unfold JsObject.keys. apply NoDup_app.
  - eapply Permutation_NoDup; [apply Permutation_sym, SortFacts.sort_perm|].
    apply NoDup_filter, H.
  - apply NoDup_filter, H.
  - intros x Hx Hy.
    apply (Permutation_in _ (SortFacts.sort_perm _ _)) in Hx.
    apply filter_In in Hx. apply filter_In in Hy.
    destruct Hx as [_ Hx], Hy as [_ Hy]. rewrite Hx in Hy. discriminate.
Qed.

(** X19.  The duplicates of an analysis are exact: a version is listed
    exactly when it is not empty and at least two files carry it; no version
    is listed twice; and every DUPLICATE_VERSION error is for such a
    version. *)
Theorem duplicateVersions_exact (files : list MigrationFile.t) :
  let analysis := analyzeFiles files in
  (forall v,
      In v (MigrationAnalysis.duplicateVersions analysis)
      <-> v <> "" /\ 2 <= countVersion v files)
  /\ NoDup (MigrationAnalysis.duplicateVersions analysis)
  /\ (forall e,
         In e (MigrationAnalysis.errors analysis) ->
         MigrationError.type e = DUPLICATE_VERSION ->
         exists v, e = duplicateError v /\ v <> "" /\ 2 <= countVersion v files).
Proof.
  cbv zeta.
  assert (Hiff : forall v,
             In v (MigrationAnalysis.duplicateVersions (analyzeFiles files))
             <-> v <> "" /\ 2 <= countVersion v files).
  { intros v. split.
    - unfold analyzeFiles.
      pose proof (fold_analyzeStep_empty files
                    (MigrationAnalysis.mk (List.length files) 0 0 0 [] [] [], []))
        as He.
      pose proof (fun Hv => fold_analyzeStep_counts files
                    (MigrationAnalysis.mk (List.length files) 0 0 0 [] [] [], [])
                    v Hv) as Hc.
      destruct (fold_left analyzeStep files _) as [analysis versionCounts].
      cbn [fst snd MigrationAnalysis.duplicateVersions] in *.
      intros H. apply filter_In in H. destruct H as [_ H].
      destruct (JsObject.get versionCounts v) as [n|] eqn:Hget; [|discriminate].
      apply Nat.ltb_lt in H.
      assert (Hv : v <> "").
      { intros ->. rewrite He in Hget. discriminate. }
      split; [exact Hv|]. specialize (Hc Hv). unfold countOf in Hc.
      rewrite Hget in Hc. simpl in Hc. lia.
    - intros [Hv Hc]. apply DuplicateFacts.analyzeFiles_duplicate; assumption. }
  split; [exact Hiff|]. split.
  - unfold analyzeFiles.
    pose proof (fold_analyzeStep_NoDup files
                  (MigrationAnalysis.mk (List.length files) 0 0 0 [] [] [], [])
                  (NoDup_nil _)) as Hn.
    destruct (fold_left analyzeStep files _) as [analysis versionCounts].
    cbn [fst snd MigrationAnalysis.duplicateVersions] in *.
    apply NoDup_filter, keys_NoDup, Hn.
  - intros e He Hty.
    rewrite analyzeFiles_errors in He. apply in_app_or in He. destruct He as [He|He].
    + apply in_flat_map in He. destruct He as [f [_ He]].
      unfold parseErrorsOf in He. apply in_map_iff in He.
      destruct He as [x [<- _]]. discriminate.
    + apply in_map_iff in He. destruct He as [v [<- Hv]].
      exists v. split; [reflexivity|]. apply Hiff, Hv.
Qed.

End AnalysisFacts.

(** ** The history: pending migrations and application times *)

Module HistoryMore.
Import MigrationParser Support SortFacts HistoryFacts.

Section WithApplied.
Variable applied : list AppliedMigration.t.

Lemma find_existsb (v : string) :
  find (hasVersion v) (JsSort.sort appliedLe applied) = None
  <-> existsb (String.eqb v) (map AppliedMigration.version applied) = false.
Proof.
  split.
  - intros H. destruct (existsb _ _) eqn:E; [|reflexivity].
    apply existsb_exists in E. destruct E as [x [Hx Hv]].
    apply in_map_iff in Hx. destruct Hx as [a [<- Ha]].
    apply (Permutation_in _ (Permutation_sym (sort_perm appliedLe applied))) in Ha.
    pose proof (find_none _ _ H a Ha) as Hn. unfold hasVersion in Hn.
    rewrite String.eqb_sym in Hn. congruence.
  - intros H. destruct (find _ _) as [a|] eqn:E; [|reflexivity].
    apply find_some in E. destruct E as [Ha Hv].
    apply (Permutation_in _ (sort_perm appliedLe applied)) in Ha.
    assert (existsb (String.eqb v) (map AppliedMigration.version applied) = true);
      [|congruence].
    apply existsb_exists. exists (AppliedMigration.version a).
    split; [apply in_map, Ha|]. unfold hasVersion in Hv.
    rewrite String.eqb_sym. exact Hv.
Qed.



End WithApplied.

(** The call on a directory that loads, written out. *)
Lemma getMigrationHistory_loaded (fs : Fs.t) (dir : string) (loc : Heap.loc)
    (h : Heap.t) (files : list MigrationFile.t) :
  parseMigrationFiles fs dir = Fs.Ok files ->
  let applied := Heap.read h loc in
  let sorted := JsSort.sort appliedLe applied in
  fst (getMigrationHistory fs dir loc h)
  = Fs.Ok
      (MigrationHistory.mk loc
         (flat_map (pendingEntry applied) files)
         (List.length files)
         (match sorted with
          | first :: _ => val (AppliedMigration.version first)
          | [] => undefined
          end)
         (flat_map (chainEntry sorted) files))
  /\ Heap.read (snd (getMigrationHistory fs dir loc h)) loc = sorted.
Proof.
  intros Hfiles. cbv zeta. unfold getMigrationHistory. rewrite Hfiles.
  destruct (Heap.read h loc) as [|a l] eqn:Ea.
  - cbn [List.length Nat.ltb Nat.leb fst snd]. rewrite Ea. split; reflexivity.
  - cbn [List.length Nat.ltb Nat.leb fst snd]. unfold Heap.read, Heap.write.
    rewrite Nat.eqb_refl. split; reflexivity.
Qed.

(** The pending migrations are the entries of the chain without
    [appliedAt]. *)
Lemma pending_chain (applied : list AppliedMigration.t)
    (files : list MigrationFile.t) :
  flat_map (pendingEntry applied) files
  = filter isPending (flat_map (chainEntry (JsSort.sort appliedLe applied)) files).
Proof.
  induction files as [|f files IH]; [reflexivity|].
  cbn [flat_map]. rewrite filter_app, IH. f_equal.
  unfold pendingEntry, chainEntry.
  destruct (isValid f); [|reflexivity].
  destruct (find (hasVersion (versionOf f)) (JsSort.sort appliedLe applied))
    as [a|] eqn:E.
  - assert (Hex : existsb (String.eqb (versionOf f))
                    (map AppliedMigration.version applied) = true).
    { destruct (existsb _ _) eqn:Ex; [reflexivity|].
      apply find_existsb in Ex. congruence. }
    rewrite Hex. reflexivity.
  - apply find_existsb in E. rewrite E. reflexivity.
Qed.






End HistoryMore.

(** ** File names: reading the name, generating one *)

Module FilenameFacts.
Import MigrationParser Support RegexFacts StringFacts VersionFacts TrimFacts.

(** The greedy star gives back what it took until the continuation
    accepts: when the continuation accepts after the run [a] and nowhere
    later, the star stops there. *)
Lemma star_later_fail (p : ascii -> bool) (b : string) (i : nat) (c : caps)
    (k : cont) :
  (forall b1 b2, b = b1 ++ b2 -> b1 <> "" ->
                 k (i + String.length b1) b2 c = None) ->
  star p i b c k = k i b c.
Proof.
  revert i. induction b as [|x b IH]; intros i H; [reflexivity|].
  cbn [star]. destruct (p x); [|reflexivity].
  rewrite IH.
  - assert (H1 : k (i + String.length (String x "")) b c = None)
      by (apply H; [reflexivity | discriminate]).
    cbn [String.length] in H1. rewrite Nat.add_1_r in H1.
    rewrite H1. reflexivity.
  - intros b1 b2 -> Hb1.
    specialize (H (String x b1) b2 eq_refl).
    cbn [String.length] in H. rewrite Nat.add_succ_r in H.
    apply H. discriminate.
Qed.

Lemma star_backtrack (p : ascii -> bool) (a b : string) (i : nat) (c : caps)
    (k : cont) :
  allOf p a = true ->
  k (i + String.length a) b c <> None ->
  (forall b1 b2, b = b1 ++ b2 -> b1 <> "" ->
                 k (i + String.length a + String.length b1) b2 c = None) ->
  star p i (a ++ b) c k = k (i + String.length a) b c.
Proof.
  revert i. induction a as [|x a IH]; intros i Ha Hk Hlater.
  - cbn [append String.length] in *. rewrite Nat.add_0_r in *.
    apply star_later_fail, Hlater.
  - cbn [allOf] in Ha. apply andb_true_iff in Ha. destruct Ha as [Hx Ha].
    cbn [append star String.length] in *. rewrite Hx.
    rewrite Nat.add_succ_r in *.
    rewrite (IH (S i) Ha Hk Hlater). cbn [Nat.add].
    destruct (k (S (i + String.length a)) b c); [reflexivity | congruence].
Qed.

Lemma isSafe_isDot (c : ascii) : isSafe c = true -> isDot c = true.
Proof. destruct c as [[] [] [] [] [] [] [] []]; vm_compute; congruence. Qed.

Lemma leadingRun_app (p : ascii -> bool) (a : string) (x : ascii) (b : string) :
  allOf p a = true -> p x = false ->
  leadingRun p (a ++ String x b) = a /\ afterRun p (a ++ String x b) = String x b.
Proof.
  intros Ha Hx. induction a as [|y a IH]; cbn [append leadingRun afterRun].
  - rewrite Hx. auto.
  - cbn [allOf] in Ha. apply andb_true_iff in Ha. destruct Ha as [Hy Ha].
    rewrite Hy. destruct (IH Ha) as [-> ->]. auto.
Qed.

Lemma length_append (a b : string) :
  String.length (a ++ b) = String.length a + String.length b.
Proof. induction a as [|x a IH]; simpl; [reflexivity | rewrite IH; reflexivity]. Qed.

Lemma suffixes_sql (b1 b2 : string) :
  ".sql" = b1 ++ b2 -> b1 <> "" ->
  b2 = "sql" \/ b2 = "ql" \/ b2 = "l" \/ b2 = "".
Proof.
  intros E Hb1.
  destruct b1 as [|c1 b1]; [congruence|]. cbn in E. injection E as E1 E.
  destruct b1 as [|c2 b1]; cbn in E; [auto|]. injection E as E2 E.
  destruct b1 as [|c3 b1]; cbn in E; [auto|]. injection E as E3 E.
  destruct b1 as [|c4 b1]; cbn in E; [auto|]. injection E as E4 E.
  destruct b1; [auto | discriminate].
Qed.

(** The version and the name of [digits_body.sql]. *)
Lemma extractName_body (digits body : string) :
  allOf isDigit digits = true -> digits <> "" ->
  allOf isDot body = true -> body <> "" ->
  extractName (digits ++ "_" ++ body ++ ".sql") = Some (underscoresToSpaces body).
Proof.
  intros Hd Hdne Hb Hbne.
  unfold extractName, jsMatch, reName, seqs. cbn [fold_right].
  rewrite search_Bol.
  destruct digits as [|d digits]; [congruence|].
  cbn [allOf] in Hd. apply andb_true_iff in Hd. destruct Hd as [Hd0 Hd].
  destruct body as [|y body]; [congruence|].
  cbn [allOf] in Hb. apply andb_true_iff in Hb. destruct Hb as [Hy Hb].
  cbn [run append Nat.eqb]. rewrite Hd0.
  change (String "_" (String y (body ++ ".sql")))
    with ("_" ++ String y (body ++ ".sql")).
  destruct (leadingRun_app isDigit digits "_" (String y (body ++ ".sql")) Hd
              eq_refl) as [Hrun Hafter].
  cbn [append] in Hrun, Hafter.
  assert (Hstar : forall (c : caps) (k : cont) (i : nat),
             (forall b1 b2, ".sql" = b1 ++ b2 -> b1 <> "" ->
                            k (i + String.length body + String.length b1) b2 c = None) ->
             k (i + String.length body) ".sql" c <> None ->
             star isDot i (body ++ ".sql") c k
             = k (i + String.length body) ".sql" c).
  { intros c k i Hlater Hk. apply star_backtrack; assumption. }
  rewrite star_greedy; cbn [append]; rewrite Hrun, Hafter;
    cbn [run sameChar]; rewrite Ascii.eqb_refl, Hy; rewrite Hstar;
    try (cbn; discriminate);
    try (intros b1 b2 E Hb1;
         destruct (suffixes_sql b1 b2 E Hb1) as [-> | [-> | [-> | ->]]]; reflexivity).
  cbn [run sameChar lit]. cbn -[substring Nat.sub].
  unfold groupOf. cbn [group Nat.eqb].
  match goal with
  | |- context [substring 0 ?n _] =>
      replace n with (String.length (String y body)) by (cbn [String.length]; lia)
  end.
  change (String y (body ++ ".sql")) with (String y body ++ ".sql").
  rewrite substring_prefix. reflexivity.
Qed.

(** Nothing between the underscore and the suffix: no name. *)
Lemma extractName_no_body (digits : string) :
  allOf isDigit digits = true ->
  extractName (digits ++ "_" ++ ".sql") = None.
Proof.
  intros Hd. unfold extractName, jsMatch, reName, seqs. cbn [fold_right].
  rewrite search_Bol.
  destruct digits as [|d digits]; [reflexivity|].
  cbn [allOf] in Hd. apply andb_true_iff in Hd. destruct Hd as [Hd0 Hd].
  cbn [run append Nat.eqb]. rewrite Hd0.
  change (String "_" ".sql") with ("_" ++ ".sql").
  assert (Hnone : forall i s c,
             allOf isDigit s = true ->
             star isDigit i (s ++ "_.sql") c
               (fun i' s' c' =>
                  run false
                    (Seq (Chr "_")
                       (Seq (Grp 1 (Plus isDot))
                          (Seq (Chr ".") (Seq (lit "sql") (Seq Eol Eps)))))
                    i' s' c' accept) = None).
  { intros i s. revert i. induction s as [|x s IH]; intros i c Hs.
    - reflexivity.
    - cbn [allOf] in Hs. apply andb_true_iff in Hs. destruct Hs as [Hx Hs].
      cbn [append star]. rewrite Hx, IH by assumption.
      cbn [orElse run sameChar].
      destruct x as [[] [] [] [] [] [] [] []]; try discriminate; reflexivity. }
  cbn [run] in Hnone. rewrite Hnone by assumption. reflexivity.
Qed.

(** *** Decimal numerals *)

Lemma string_of_uint_digits (d : Decimal.uint) :
  allOf isDigit (NilEmpty.string_of_uint d) = true.
Proof. induction d; cbn; auto. Qed.

Lemma ofNat_digits (n : nat) : allOf isDigit (ofNat n) = true /\ ofNat n <> "".
Proof.
  unfold ofNat, NilZero.string_of_uint.
  destruct (Nat.to_uint n) eqn:E; try (split; [reflexivity | discriminate]);
    (split; [apply (string_of_uint_digits (_ u)) | cbn; discriminate]).
Qed.

Lemma ofZ_digits (z : Z) :
  (0 <= z)%Z -> allOf isDigit (ofZ z) = true /\ ofZ z <> "".
Proof.
  intros Hz. unfold ofZ, NilZero.string_of_int.
  destruct z as [|p|p]; [split; [reflexivity | discriminate] | | lia].
  cbn [Z.to_int]. unfold NilZero.string_of_uint.
  destruct (Pos.to_uint p) eqn:E; try (split; [reflexivity | discriminate]);
    (split; [apply (string_of_uint_digits (_ u)) | cbn; discriminate]).
Qed.

Lemma fill_digits (n : nat) : allOf isDigit (fill n "0") = true.
Proof. induction n as [|n IH]; [reflexivity | exact IH]. Qed.

Lemma padStart_digits (n : nat) :
  allOf isDigit (padStart 2 "0" (ofNat n)) = true.
Proof.
  unfold padStart. rewrite IndexFacts.allOf_app, fill_digits.
  apply (proj1 (ofNat_digits n)).
Qed.

Lemma timestamp_digits (now : JsDate.t) :
  (0 <= JsDate.getFullYear now)%Z ->
  allOf isDigit (generateMigrationTimestamp now) = true
  /\ generateMigrationTimestamp now <> "".
Proof.
  intros Hy. unfold generateMigrationTimestamp. cbv zeta.
  destruct (ofZ_digits _ Hy) as [Hd Hne]. split.
  - rewrite !IndexFacts.allOf_app, Hd, !padStart_digits. reflexivity.
  - destruct (ofZ (JsDate.getFullYear now)); [congruence | discriminate].
Qed.

(** Two digits for a number below one hundred. *)
Lemma padStart_length (n : nat) :
  n < 100 -> String.length (padStart 2 "0" (ofNat n)) = 2.
Proof.
  intros Hn.
  assert (H : forallb
                (fun n => Nat.eqb (String.length (padStart 2 "0" (ofNat n))) 2)
                (seq 0 100) = true) by (vm_compute; reflexivity).
  rewrite forallb_forall in H. apply Nat.eqb_eq, H, in_seq. lia.
Qed.

(** Four digits for the years 1000 to 9999. *)
Lemma year_length (y : Z) :
  (1000 <= y <= 9999)%Z -> String.length (ofZ y) = 4.
Proof.
  intros Hy.
  assert (H : forallb
                (fun n => Nat.eqb (String.length (ofZ (1000 + Z.of_nat n))) 4)
                (seq 0 (90 * 100)) = true) by (vm_compute; reflexivity).
  rewrite forallb_forall in H.
  replace y with (1000 + Z.of_nat (Z.to_nat (y - 1000)))%Z by lia.
  apply Nat.eqb_eq, H, in_seq. lia.
Qed.

(** *** Generated names *)

Lemma replaceUnsafe_safe (s : string) : allOf isSafe (replaceUnsafe s) = true.
Proof.
  induction s as [|c s IH]; [reflexivity|].
  cbn [replaceUnsafe allOf]. rewrite IH, andb_true_r.
  unfold isSafe. destruct (isLower c) eqn:El; cbn [orb].
  - rewrite El. reflexivity.
  - destruct (isDigit c) eqn:Ed; [rewrite El, Ed|]; reflexivity.
Qed.

Lemma safeName_nonempty (name : string) :
  name <> "" -> replaceUnsafe (toLowerCase name) <> "".
Proof. destruct name; [congruence | discriminate]. Qed.

Lemma substring_suffix (a p : string) :
  substring (String.length (a ++ p) - String.length p) (String.length p) (a ++ p)
  = p.
Proof.
  rewrite length_append, Nat.add_sub.
  induction a as [|x a IH]; cbn [String.length append substring].
  - pose proof (substring_prefix p "") as H. rewrite append_nil_r in H. exact H.
  - exact IH.
Qed.

Lemma endsWith_append (a p : string) : endsWith (a ++ p) p = true.
Proof.
  unfold endsWith. rewrite substring_suffix, String.eqb_refl, andb_true_r.
  apply Nat.leb_le. rewrite length_append. lia.
Qed.

(** What the two expressions read in [digits_body.sql]. *)
Lemma filename_parts (digits body : string) :
  allOf isDigit digits = true -> digits <> "" ->
  allOf isDot body = true ->
  extractVersion (digits ++ "_" ++ body ++ ".sql") = Some digits
  /\ extractName (digits ++ "_" ++ body ++ ".sql")
     = (if String.eqb body "" then None else Some (underscoresToSpaces body))
  /\ endsWith (digits ++ "_" ++ body ++ ".sql") ".sql" = true.
Proof.
  intros Hd Hne Hb.
  split; [|split].
  - rewrite extractVersion_spec.
    destruct (leadingRun_app isDigit digits "_" (body ++ ".sql") Hd eq_refl)
      as [Hrun _].
    destruct digits as [|d digits]; [congruence|].
    cbn [allOf] in Hd. apply andb_true_iff in Hd. destruct Hd as [Hd0 _].
    cbn [append]. rewrite Hd0. cbn [append] in Hrun. rewrite Hrun. reflexivity.
  - destruct (String.eqb body "") eqn:E.
    + apply String.eqb_eq in E. subst body. apply extractName_no_body, Hd.
    + apply String.eqb_neq in E. apply extractName_body; assumption.
  - change (digits ++ "_" ++ body ++ ".sql")
      with (digits ++ String "_" (body ++ ".sql")).
    replace (digits ++ String "_" (body ++ ".sql"))
      with ((digits ++ String "_" body) ++ ".sql")
      by (rewrite append_assoc; reflexivity).
    apply endsWith_append.
Qed.

(** X22.  For a file name made of a run of digits, an underscore, a body
    without line terminator and the suffix .sql, the version is the run of
    digits and the name is the body with every underscore turned into a
    space, also when the body holds dots or .sql itself; with an empty body
    no name is found and the record has the empty name. *)
Theorem extractName_spec (digits body filename content : string) :
  allOf isDigit digits = true -> digits <> "" ->
  allOf isDot body = true ->
  filename = digits ++ "_" ++ body ++ ".sql" ->
  extractVersion filename = Some digits
  /\ extractName filename
     = (if String.eqb body "" then None else Some (underscoresToSpaces body))
  /\ ParsedMigration.version (parseMigrationContent filename content) = digits
  /\ ParsedMigration.name (parseMigrationContent filename content)
     = underscoresToSpaces body
  /\ endsWith filename ".sql" = true.
Proof.
  intros Hd Hne Hb ->.
  destruct (filename_parts digits body Hd Hne Hb) as [Hv [Hn He]].
  split; [exact Hv|]. split; [exact Hn|].
  unfold parseMigrationContent. rewrite Hv, Hn.
  destruct (parseMigrationSections content) as [u d].
  cbn [ParsedMigration.version ParsedMigration.name].
  split; [reflexivity|]. split; [|exact He].
  destruct (String.eqb body "") eqn:E; [|reflexivity].
  apply String.eqb_eq in E. subst body. reflexivity.
Qed.

Lemma extractName_spec_witness :
  extractName "20240101000000_create_users.v2.sql" = Some "create users.v2".
Proof.
  exact (proj1 (proj2
           (extractName_spec "20240101000000" "create_users.v2"
              "20240101000000_create_users.v2.sql" ""
              eq_refl ltac:(discriminate) eq_refl eq_refl))).
Defined.

(** X23.  A generated file name, for a date that is not before year 0, is
    read back by the parser: it ends in .sql, its version is the generated
    timestamp and no version error is raised; its name part, the lower-cased
    name with every character other than a-z and 0-9 replaced by an
    underscore, has only the characters a-z, 0-9 and underscore, and is read
    back with spaces for underscores.  For the years 1000 to 9999 the
    timestamp has exactly fourteen digits. *)
Theorem generateMigrationFilename_parsed (now : JsDate.t) (name content : string) :
  (0 <= JsDate.getFullYear now)%Z ->
  let filename := generateMigrationFilename now name in
  let parsed := parseMigrationContent filename content in
  endsWith filename ".sql" = true
  /\ ParsedMigration.version parsed = generateMigrationTimestamp now
  /\ ParsedMigration.name parsed
     = underscoresToSpaces (replaceUnsafe (toLowerCase name))
  /\ allOf isSafe (replaceUnsafe (toLowerCase name)) = true
  /\ ~ In noVersionError (ParsedMigration.errors parsed)
  /\ (fourDigitYear now = true ->
      isVersion14 (generateMigrationTimestamp now) = true).
Proof.
  intros Hy filename parsed.
  destruct (timestamp_digits now Hy) as [Hd Hne].
  pose proof (replaceUnsafe_safe (toLowerCase name)) as Hsafe.
  destruct (filename_parts (generateMigrationTimestamp now)
              (replaceUnsafe (toLowerCase name)) Hd Hne
              (allOf_imp_true _ _ _ isSafe_isDot Hsafe))
    as [Hv [Hn He]].
  fold (generateMigrationFilename now name) in Hv, Hn, He. fold filename in Hv, Hn, He.
  split; [exact He|].
  split.
  { unfold parsed, parseMigrationContent. rewrite Hv.
    destruct (parseMigrationSections content); reflexivity. }
  split.
  { unfold parsed, parseMigrationContent. rewrite Hn.
    destruct (parseMigrationSections content) as [u d].
    cbn [ParsedMigration.name].
    destruct (String.eqb (replaceUnsafe (toLowerCase name)) "") eqn:E;
      [|reflexivity].
    apply String.eqb_eq in E. rewrite E. reflexivity. }
  split; [exact Hsafe|].
  split.
  { unfold parsed, parseMigrationContent. rewrite Hv.
    destruct (generateMigrationTimestamp now) eqn:E; [congruence|].
    destruct (parseMigrationSections content) as [u d].
    cbn [ParsedMigration.errors app].
    destruct (String.eqb (trim u) ""), (String.eqb (trim d) "");
      cbn; intuition discriminate. }
  intros Hf. unfold fourDigitYear in Hf.
  repeat (apply andb_true_iff in Hf; destruct Hf as [Hf ?]).
  unfold isVersion14. rewrite Hd, andb_true_r. apply Nat.eqb_eq.
  unfold generateMigrationTimestamp. cbv zeta. rewrite !length_append.
  rewrite year_length by lia.
  rewrite !padStart_length; [reflexivity | | | | |];
    repeat match goal with
           | H : (_ <? _)%nat = true |- _ => apply Nat.ltb_lt in H
           end; lia.
Qed.

Lemma generateMigrationFilename_parsed_witness :
  ParsedMigration.version
    (parseMigrationContent (generateMigrationFilename sampleDate "Add Users!") "")
  = "20261103070509"
  /\ ParsedMigration.name
       (parseMigrationContent (generateMigrationFilename sampleDate "Add Users!") "")
     = "add users ".
Proof.
  destruct (generateMigrationFilename_parsed sampleDate "Add Users!" "")
    as [_ [H2 [H3 _]]].
  - discriminate.
  - split; [exact H2 | exact H3].
Defined.

(** X24.  A migration written by the generator is valid for the parser:
    for a date not before year 0, a name that is not empty and sections that
    are not blank and hold no marker, parsing the formatted content under the
    generated file name gives the timestamp as version, both sections
    trimmed and no error. *)
Theorem generated_migration_valid (now : JsDate.t) (name upSql downSql : string) :
  (0 <= JsDate.getFullYear now)%Z ->
  name <> "" ->
  includes upSql markerUp = false -> includes upSql markerDown = false ->
  includes downSql markerUp = false -> includes downSql markerDown = false ->
  trim upSql <> "" -> trim downSql <> "" ->
  parseMigrationContent (generateMigrationFilename now name)
    (formatMigrationContent upSql downSql)
  = ParsedMigration.mk (generateMigrationTimestamp now)
      (underscoresToSpaces (replaceUnsafe (toLowerCase name)))
      (trim upSql) (trim downSql) true [].
Proof.
  intros Hy Hname Huu Hud Hdu Hdd Hu Hd.
  destruct (timestamp_digits now Hy) as [Hdig Hne].
  pose proof (replaceUnsafe_safe (toLowerCase name)) as Hsafe.
  destruct (filename_parts (generateMigrationTimestamp now)
              (replaceUnsafe (toLowerCase name)) Hdig Hne
              (allOf_imp_true _ _ _ isSafe_isDot Hsafe))
    as [Hv [Hn _]].
  fold (generateMigrationFilename now name) in Hv, Hn.
  unfold parseMigrationContent. rewrite Hv, Hn.
  rewrite (RoundTripFacts.format_parse upSql downSql Huu Hud Hdu Hdd).
  rewrite !trim_idem.
  apply String.eqb_neq in Hu, Hd. rewrite Hu, Hd.
  pose proof (safeName_nonempty name Hname) as Hs.
  apply String.eqb_neq in Hs. rewrite Hs.
  destruct (generateMigrationTimestamp now); [congruence | reflexivity].
Qed.

Lemma generated_migration_valid_witness :
  parseMigrationContent (generateMigrationFilename sampleDate "Add Users!")
    (formatMigrationContent "CREATE TABLE users (id int);" "DROP TABLE users;")
  = ParsedMigration.mk "20261103070509" "add users "
      "CREATE TABLE users (id int);" "DROP TABLE users;" true [].
Proof.
  apply (generated_migration_valid sampleDate "Add Users!"
           "CREATE TABLE users (id int);" "DROP TABLE users;");
    (reflexivity || discriminate).
Defined.

End FilenameFacts.

(** ** The sections of a file *)

Module SectionFacts.
Import MigrationParser Support StringFacts RoundTripFacts TrimFacts.

Lemma fold_section_none (lines : list string) (u d : string) :
  (forall l, In l lines ->
             startsWith (trim l) markerUp = false
             /\ startsWith (trim l) markerDown = false) ->
  fold_left sectionStep lines (u, d, none) = (u, d, none).
Proof.
  induction lines as [|l lines IH]; intros H; cbn [fold_left]; [reflexivity|].
  destruct (H l (or_introl eq_refl)) as [H1 H2].
  rewrite (sectionStep_plain u d l none H1 H2).
  apply IH. intros; apply H; right; assumption.
Qed.

Lemma split_one (sep : ascii) (s : string) :
  allOf (fun c => negb (Ascii.eqb c sep)) s = true -> split sep s = [s].
Proof.
  induction s as [|b s IH]; simpl; [reflexivity|].
  intros H. apply andb_true_iff in H. destruct H as [Hb Hs].
  apply negb_true_iff in Hb. rewrite Hb, (IH Hs). reflexivity.
Qed.

Lemma startsWith_fork (s a : string) (x y : ascii) (p q : string) :
  startsWith s (a ++ String x p) = true ->
  startsWith s (a ++ String y q) = true -> x = y.
Proof.
  revert s. induction a as [|c a IH]; intros s; cbn [append];
    (destruct s as [|b s]; [discriminate|]); cbn [startsWith];
    rewrite !andb_true_iff.
  - intros [H1 _] [H2 _]. apply Ascii.eqb_eq in H1, H2. congruence.
  - intros [_ H1] [_ H2]. eapply IH; eassumption.
Qed.

Lemma down_not_up (s : string) :
  startsWith s markerDown = true -> startsWith s markerUp = false.
Proof.
  intros Hd. destruct (startsWith s markerUp) eqn:Hu; [|reflexivity].
  pose proof (startsWith_fork s "-- migrate:" "d" "u" "own" "p" Hd Hu).
  discriminate.
Qed.

Lemma markerFree_lines (text l : string) :
  markerFree text = true -> In l (split LF text) ->
  startsWith (trim l) markerUp = false /\ startsWith (trim l) markerDown = false.
Proof.
  unfold markerFree. intros H Hl. apply andb_true_iff in H.
  destruct H as [H1 H2]. apply negb_true_iff in H1, H2.
  split; eapply lines_without; eassumption.
Qed.

Lemma step_up (line u d : string) (sec : section) :
  isUpMarker line = true ->
  fold_left sectionStep (split LF line) (u, d, sec) = (u, d, up).
Proof.
  unfold isUpMarker. intros H. apply andb_true_iff in H. destruct H as [H1 H2].
  rewrite (split_one LF line H1). cbn [fold_left]. unfold sectionStep.
  rewrite H2. reflexivity.
Qed.

Lemma step_down (line u d : string) (sec : section) :
  isDownMarker line = true ->
  fold_left sectionStep (split LF line) (u, d, sec) = (u, d, down).
Proof.
  unfold isDownMarker. intros H. apply andb_true_iff in H. destruct H as [H1 H2].
  rewrite (split_one LF line H1). cbn [fold_left]. unfold sectionStep.
  rewrite (down_not_up _ H2), H2. reflexivity.
Qed.

Lemma trim_line (s : string) : trim (s ++ String LF "") = trim s.
Proof. apply trim_space. reflexivity. Qed.

(** X25.  The sections of a file do not depend on their order or on what
    precedes the first marker: with a header, an up body and a down body that
    hold no marker, and marker lines that start with the markers once
    trimmed, the parser returns the two bodies trimmed whether the up section
    or the down section comes first.  A text without marker has two empty
    sections and is reported invalid with both section errors. *)
Theorem parseMigrationSections_layout
    (header lineUp upBody lineDown downBody filename : string) :
  markerFree header = true ->
  markerFree upBody = true ->
  markerFree downBody = true ->
  isUpMarker lineUp = true ->
  isDownMarker lineDown = true ->
  parseMigrationSections
    (header ++ newline ++ lineUp ++ newline ++ upBody ++ newline
     ++ lineDown ++ newline ++ downBody)
  = (trim upBody, trim downBody)
  /\ parseMigrationSections
       (header ++ newline ++ lineDown ++ newline ++ downBody ++ newline
        ++ lineUp ++ newline ++ upBody)
     = (trim upBody, trim downBody)
  /\ parseMigrationSections header = ("", "")
  /\ ParsedMigration.hasValidStructure (parseMigrationContent filename header)
     = false
  /\ In missingUpError
       (ParsedMigration.errors (parseMigrationContent filename header))
  /\ In missingDownError
       (ParsedMigration.errors (parseMigrationContent filename header)).
Proof.
  intros Hh Hu Hd Hlu Hld.
  assert (Hnone : parseMigrationSections header = ("", "")).
  { unfold parseMigrationSections.
    rewrite fold_section_none by (intros l Hl; eapply markerFree_lines; [|exact Hl]; assumption).
    reflexivity. }
  split; [|split; [|split; [exact Hnone|]]].
  - unfold parseMigrationSections, newline. cbn [append].
    rewrite !split_app, !fold_left_app.
    rewrite fold_section_none by (intros l Hl; eapply markerFree_lines; [|exact Hl]; assumption).
    rewrite (step_up lineUp) by assumption.
    rewrite fold_section_up by (intros l Hl; eapply markerFree_lines; [|exact Hl]; assumption).
    rewrite (step_down lineDown) by assumption.
    rewrite fold_section_down by (intros l Hl; eapply markerFree_lines; [|exact Hl]; assumption).
    rewrite !unlines_split. cbn [append]. rewrite !trim_line. reflexivity.
  - unfold parseMigrationSections, newline. cbn [append].
    rewrite !split_app, !fold_left_app.
    rewrite fold_section_none by (intros l Hl; eapply markerFree_lines; [|exact Hl]; assumption).
    rewrite (step_down lineDown) by assumption.
    rewrite fold_section_down by (intros l Hl; eapply markerFree_lines; [|exact Hl]; assumption).
    rewrite (step_up lineUp) by assumption.
    rewrite fold_section_up by (intros l Hl; eapply markerFree_lines; [|exact Hl]; assumption).
    rewrite !unlines_split. cbn [append]. rewrite !trim_line. reflexivity.
  - unfold parseMigrationContent. rewrite Hnone.
    cbn [trim trimStart trimEnd String.eqb ParsedMigration.hasValidStructure
         ParsedMigration.errors].
    rewrite !length_app. cbn [List.length].
    split; [rewrite Nat.add_comm; reflexivity|].
    split; apply in_or_app; right; [left | right; left]; reflexivity.
Qed.

Lemma parseMigrationSections_layout_witness :
  parseMigrationSections downFirst = ("CREATE TABLE a;", "DROP TABLE a;").
Proof.
  exact (proj1 (proj2
           (parseMigrationSections_layout "-- notes" "  -- migrate:up"
              "CREATE TABLE a;" "-- migrate:down (undo)" "DROP TABLE a;" ""
              eq_refl eq_refl eq_refl eq_refl eq_refl))).
Defined.

End SectionFacts.

(** ** Failures while loading, and their callers *)

Module FailureFacts.
Import MigrationParser Support LoadedFacts.

Lemma forEach_failure {A B : Type} (f : A -> Fs.result B) (before : list A)
    (x : A) (after : list A) (e : Fs.error) :
  (forall y, In y before -> exists b, f y = Fs.Ok b) ->
  f x = Fs.Throw e ->
  Fs.forEach f (before ++ x :: after) = Fs.Throw e.
Proof.
  intros Hb Hx. induction before as [|y before IH]; cbn [app Fs.forEach].
  - rewrite Hx. reflexivity.
  - destruct (Hb y (or_introl eq_refl)) as [b Hy]. rewrite Hy. cbn [Fs.bind].
    rewrite IH by (intros; apply Hb; right; assumption). reflexivity.
Qed.

(** X26.  When the directory is listed and reading one of its .sql files
    fails after the files before it were read, the loader returns the empty
    list if the failure is ENOENT, dropping the files already read, and fails
    with the same error otherwise. *)
Theorem parseMigrationFiles_readFile_failure_anywhere
    (fs : Fs.t) (dir : string) (names before : list string) (f : string)
    (after : list string) (e : Fs.error) :
  Fs.readdir fs dir = Fs.Ok names ->
  filter hasSqlSuffix names = (before ++ f :: after)%list ->
  (forall g, In g before ->
             exists content, Fs.readFile fs (Fs.join dir g) = Fs.Ok content) ->
  Fs.readFile fs (Fs.join dir f) = Fs.Throw e ->
  (Fs.code e = "ENOENT" -> parseMigrationFiles fs dir = Fs.Ok [])
  /\ (Fs.code e <> "ENOENT" -> parseMigrationFiles fs dir = Fs.Throw e).
Proof.
  intros Hdir Hnames Hbefore Hread.
  assert (H : parseMigrationFiles fs dir
              = if String.eqb (Fs.code e) "ENOENT" then Fs.Ok [] else Fs.Throw e).
  { unfold parseMigrationFiles. rewrite Hdir. cbn [Fs.bind].
    fold hasSqlSuffix. rewrite Hnames.
    rewrite (forEach_failure _ before f after e).
    - reflexivity.
    - intros g Hg. destruct (Hbefore g Hg) as [content Hc]. rewrite Hc.
      eexists. reflexivity.
    - rewrite Hread. reflexivity. }
  rewrite H. split; intros Hc.
  - rewrite Hc. reflexivity.
  - apply String.eqb_neq in Hc. rewrite Hc. reflexivity.
Qed.

(** The second of three files has vanished: nothing is returned. *)
Lemma parseMigrationFiles_readFile_failure_anywhere_witness :
  parseMigrationFiles vanishingFs "migrations" = Fs.Ok [].
Proof.
  apply (proj1
           (parseMigrationFiles_readFile_failure_anywhere vanishingFs "migrations"
              ["1_a.sql"; "2_b.sql"; "3_c.sql"] ["1_a.sql"] "2_b.sql" ["3_c.sql"]
              (Fs.mkError "ENOENT") eq_refl eq_refl
              ltac:(intros g [<-|[]]; eexists; reflexivity)
              eq_refl)).
  reflexivity.
Defined.



End FailureFacts.

(** ** The comparison tool *)

Module ToolFacts.
Import SchemaAnalyzer MigrationParser CompareSchema Support SortFacts HistoryFacts
  LoadedFacts HistoryMore.

Lemma versionOrder_trans (a b c : string) :
  versionOrder a b = true -> versionOrder b c = true -> versionOrder a c = true.
Proof.
  unfold versionOrder, localeCompare. intros Hab Hbc.
  destruct (String.compare a b) eqn:Eab; try discriminate;
    destruct (String.compare b c) eqn:Ebc; try discriminate.
  - apply OrderedTypeEx.String_as_OT.cmp_eq in Eab. rewrite Eab, Ebc. reflexivity.
  - apply OrderedTypeEx.String_as_OT.cmp_eq in Eab. rewrite Eab, Ebc. reflexivity.
  - apply OrderedTypeEx.String_as_OT.cmp_eq in Ebc. rewrite <- Ebc, Eab. reflexivity.
  - apply OrderedTypeEx.String_as_OT.cmp_lt in Eab, Ebc.
    pose proof (OrderedTypeEx.String_as_OT.lt_trans _ _ _ Eab Ebc) as H.
    apply OrderedTypeEx.String_as_OT.cmp_lt in H. unfold OrderedTypeEx.String_as_OT.cmp in H.
    rewrite H. reflexivity.
Qed.

(** The loader returns the files in the order of their versions, whatever
    it returns. *)
Lemma parseMigrationFiles_sorted (fs : Fs.t) (dir : string)
    (files : list MigrationFile.t) :
  parseMigrationFiles fs dir = Fs.Ok files ->
  StronglySorted (fun a b => versionOrder (versionOf a) (versionOf b) = true) files.
Proof.
  intros H.
  assert (Hs : Sorted (fun a b => versionLe a b = true) files).
  { revert H. unfold parseMigrationFiles.
    destruct (Fs.readdir fs dir) as [names|e]; simpl.
    2:{ destruct (String.eqb (Fs.code e) "ENOENT"); [|discriminate].
        intros [= <-]. constructor. }
    destruct (Fs.forEach _ _) as [loadedFiles|e]; simpl.
    2:{ destruct (String.eqb (Fs.code e) "ENOENT"); [|discriminate].
        intros [= <-]. constructor. }
    intros [= <-]. apply sort_sorted. exact versionLe_total. }
  apply Sorted_StronglySorted in Hs; [exact Hs|].
  intros a b c. unfold versionLe. apply versionOrder_trans.
Qed.

Lemma chainEntry_version (sorted : list AppliedMigration.t)
    (file : MigrationFile.t) (m : Migration.t) :
  In m (chainEntry sorted file) -> Migration.version m = versionOf file.
Proof.
  unfold chainEntry. destruct (isValid file); [|contradiction].
  destruct (find _ _); intros [<-|[]]; reflexivity.
Qed.

Lemma chain_sorted (sorted : list AppliedMigration.t)
    (files : list MigrationFile.t) :
  StronglySorted (fun a b => versionOrder (versionOf a) (versionOf b) = true) files ->
  StronglySorted (fun a b => migrationLe a b = true)
    (flat_map (chainEntry sorted) files).
Proof.
  induction 1 as [|f files Hs IH Hall]; [constructor|].
  cbn [flat_map].
  assert (Hrest : Forall (fun m => versionOrder (versionOf f) (Migration.version m)
                                   = true) (flat_map (chainEntry sorted) files)).
  { apply Forall_forall. intros m Hm. apply in_flat_map in Hm.
    destruct Hm as [g [Hg Hm]]. rewrite (chainEntry_version _ _ _ Hm).
    rewrite Forall_forall in Hall. apply Hall, Hg. }
  pose proof (chainEntry_version sorted f) as Hv.
  destruct (chainEntry sorted f) as [|m [|m' l]] eqn:E.
  - exact IH.
  - cbn [app]. constructor; [exact IH|].
    eapply Forall_impl; [|exact Hrest]. intros m2 H2.
    unfold migrationLe. rewrite (Hv m (or_introl eq_refl)). exact H2.
  - exfalso. unfold chainEntry in E. destruct (isValid f); [|discriminate].
    destruct (find _ _); discriminate.
Qed.

Lemma StronglySorted_filter {A : Type} (R : A -> A -> Prop) (p : A -> bool)
    (l : list A) :
  StronglySorted R l -> StronglySorted R (filter p l).
Proof.
  induction 1 as [|x l Hs IH Hall]; [constructor|].
  cbn [filter]. destruct (p x); [|exact IH].
  constructor; [exact IH|].
  apply Forall_forall. intros y Hy. apply filter_In in Hy.
  rewrite Forall_forall in Hall. apply Hall, Hy.
Qed.

(** An entry of the chain has an [appliedAt] exactly when the applied list
    has its version. *)
Lemma chainEntry_applied (sorted : list AppliedMigration.t)
    (file : MigrationFile.t) (m : Migration.t) :
  In m (chainEntry sorted file) ->
  existsb
    (fun am => String.eqb (AppliedMigration.version am) (Migration.version m))
    sorted
  = isApplied m.
Proof.
  unfold chainEntry. destruct (isValid file); [|contradiction].
  destruct (find (hasVersion (versionOf file)) sorted) as [a|] eqn:E;
    intros [<-|[]]; cbn [Migration.version].
  - apply find_some in E. destruct E as [Ha Hv].
    transitivity true; [|reflexivity].
    apply existsb_exists. exists a. split; [exact Ha | exact Hv].
  - transitivity false; [|reflexivity].
    destruct (existsb _ sorted) eqn:Ex; [|reflexivity].
    apply existsb_exists in Ex. destruct Ex as [a [Ha Hv]].
    pose proof (find_none _ _ E a Ha) as Hn. unfold hasVersion in Hn.
    unfold toMigration in Hv. cbn [Migration.version] in Hv.
    unfold versionOf in Hn. congruence.
Qed.

(** X28.  The outcomes of the comparison tool.  When the promise of the
    schema is rejected the tool answers [success: false] with that error and
    leaves the applied array as it was.  When the files load:
    for an answer without an array [indexes] the tool does not answer
    [success: true];
    for the object that [getSchema] builds, which has no top-level
    [indexes] and null for [tables] when the database has no table, the tool
    answers [success: false] with the TypeError of reading [map], of null
    when there is no table and of undefined otherwise;
    for an answer that has every array of the declared type, the tool builds
    the expected model from the entries of the chain that carry an
    [appliedAt], in the order of the chain, which is the order of the
    versions (pending migrations are not replayed and the time of
    application plays no part), compares it with the answer, reports the
    length of the applied list, the counts of the details when they are
    asked for, and a count of pending migrations that with the replayed
    entries makes up the chain. *)
Theorem compareSchemaMigrations_outcomes (includeDetails : bool) (fs : Fs.t)
    (dir : string) (loc : Heap.loc) (h : Heap.t) (files : list MigrationFile.t) :
  parseMigrationFiles fs dir = Fs.Ok files ->
  (forall e,
     compareSchemaMigrations includeDetails fs dir (Fs.Throw e) loc h
     = (failure (rejected e), h))
  /\ (forall answer result,
        SchemaAnswer.indexes answer = undefined
        \/ SchemaAnswer.indexes answer = null ->
        fst (compareSchemaMigrations includeDetails fs dir (Fs.Ok answer) loc h)
        <> success result)
  /\ (forall tables views enums functions extensions triggers rlsPolicies,
        fst (compareSchemaMigrations includeDetails fs dir
               (Fs.Ok (getSchemaObject tables views enums functions extensions
                         triggers rlsPolicies)) loc h)
        = failure (typeError (noTable tables) "map"))
  /\ exists history,
       fst (getMigrationHistory fs dir loc h) = Fs.Ok history
       /\ forall currentSchema : DatabaseSchema.t,
            exists result,
              fst (compareSchemaMigrations includeDetails fs dir
                     (Fs.Ok (answerOf currentSchema)) loc h)
              = success result
              /\ CompareResult.drift result
                 = compareSchemas
                     (buildExpectedSchemaFromMigrations
                        (filter isApplied (MigrationHistory.migrationChain history)))
                     currentSchema
              /\ CompareResult.appliedMigrations result
                 = List.length (Heap.read h loc)
              /\ CompareResult.pendingMigrations result
                 + List.length
                     (filter isApplied (MigrationHistory.migrationChain history))
                 = List.length (MigrationHistory.migrationChain history)
              /\ CompareResult.lastAppliedVersion result
                 = MigrationHistory.lastAppliedVersion history
              /\ CompareResult.details result
                 = (if includeDetails
                    then Some
                           (CompareDetails.mk
                              (List.length (DatabaseSchema.tables currentSchema))
                              (List.length (DatabaseSchema.indexes currentSchema))
                              (List.length (DatabaseSchema.enums currentSchema))
                              (List.length (DatabaseSchema.functions currentSchema))
                              (List.length (DatabaseSchema.extensions currentSchema))
                              (List.length
                                 (filter isApplied
                                    (MigrationHistory.migrationChain history)))
                              (map Migration.version
                                 (filter isApplied
                                    (MigrationHistory.migrationChain history))))
                    else None).
Proof.
  intros Hfiles.
  destruct (getMigrationHistory_loaded fs dir loc h files Hfiles) as [H1 H2].
  cbv zeta in H1, H2.
  split; [reflexivity|]. split; [|split].
  - intros answer result Hi. unfold compareSchemaMigrations.
    destruct (getMigrationHistory fs dir loc h) as [r h1].
    cbn [fst] in H1. subst r. cbv zeta. cbn [fst].
    unfold compareSchemasWithMigrationsAny, compareSchemasAny. cbv zeta.
    destruct (SchemaAnswer.tables answer); cbn [reading andThen];
      try discriminate;
      destruct Hi as [-> | ->]; cbn [reading andThen]; discriminate.
  - intros tables views enums functions extensions triggers rlsPolicies.
    unfold compareSchemaMigrations.
    destruct (getMigrationHistory fs dir loc h) as [r h1].
    cbn [fst] in H1. subst r. cbv zeta. cbn [fst].
    unfold compareSchemasWithMigrationsAny, compareSchemasAny, getSchemaObject.
    cbv zeta. cbn [SchemaAnswer.tables SchemaAnswer.indexes].
    destruct tables; reflexivity.
  - eexists. split; [exact H1|]. intros currentSchema.
    unfold compareSchemaMigrations.
    destruct (getMigrationHistory fs dir loc h) as [r h1] eqn:E.
    cbn [fst snd] in H1, H2. subst r. cbv zeta. rewrite H2.
    cbn [MigrationHistory.migrationChain MigrationHistory.pendingMigrations
         MigrationHistory.lastAppliedVersion].
    set (sorted := JsSort.sort appliedLe (Heap.read h loc)).
    set (chain := flat_map (chainEntry sorted) files).
    assert (Hfilter : filter
                        (fun m =>
                           existsb
                             (fun am =>
                                String.eqb (AppliedMigration.version am)
                                  (Migration.version m)) sorted) chain
                      = filter isApplied chain).
    { apply filter_ext_in. intros m Hm. unfold chain in Hm.
      apply in_flat_map in Hm. destruct Hm as [f [_ Hm]].
      apply (chainEntry_applied sorted f m Hm). }
    rewrite Hfilter.
    assert (Hsort : JsSort.sort migrationLe (filter isApplied chain)
                    = filter isApplied chain).
    { apply sort_id, StronglySorted_Sorted, StronglySorted_filter, chain_sorted.
      apply (parseMigrationFiles_sorted fs dir files Hfiles). }
    rewrite Hsort.
    unfold compareSchemasWithMigrationsAny, compareSchemasAny,
      currentSchemaDetails, answerOf.
    cbv zeta.
    cbn [SchemaAnswer.tables SchemaAnswer.indexes SchemaAnswer.views
         SchemaAnswer.triggers SchemaAnswer.rlsPolicies SchemaAnswer.enums
         SchemaAnswer.functions SchemaAnswer.extensions reading andThen].
    destruct includeDetails; cbn [andThen fst]; eexists;
      (split; [reflexivity|]);
      cbn [CompareResult.drift CompareResult.appliedMigrations
           CompareResult.pendingMigrations CompareResult.lastAppliedVersion
           CompareResult.details];
      (split; [reflexivity|]);
      (split; [apply Permutation_length, sort_perm|]);
      (split; [|split; reflexivity]);
      rewrite pending_chain; fold sorted; fold chain; unfold isApplied;
      clear; (induction chain as [|m chain IH]; [reflexivity|]);
      cbn [filter List.length]; destruct (isPending m);
      cbn [negb List.length]; lia.
Qed.

(** Of the sample directory two versions were applied: an answer of the
    declared type is compared, and the object of [getSchema] for the same
    database is not. *)
Lemma compareSchemaMigrations_outcomes_witness :
  (exists result,
     fst (compareSchemaMigrations true sampleFs "migrations"
            (Fs.Ok (answerOf sampleDatabase)) 0 sampleHeap) = success result
     /\ CompareResult.appliedMigrations result = 2)
  /\ fst (compareSchemaMigrations true sampleFs "migrations"
            (Fs.Ok (getSchemaObject (DatabaseSchema.tables sampleDatabase)
                      [] [] [] [] [] [])) 0 sampleHeap)
     = failure (typeError false "map")
  /\ fst (compareSchemaMigrations true sampleFs "migrations"
            (Fs.Ok (getSchemaObject [] [] [] [] [] [] [])) 0 sampleHeap)
     = failure (typeError true "map").
Proof.
  edestruct (compareSchemaMigrations_outcomes true sampleFs "migrations" 0
               sampleHeap) as [_ [_ [Hb [history [_ Ha]]]]].
  - vm_compute. reflexivity.
  - split; [|split].
    + destruct (Ha sampleDatabase) as [result [H1 [_ [H4 _]]]].
      exists result. split; [exact H1 | exact H4].
    + exact (Hb (DatabaseSchema.tables sampleDatabase) [] [] [] [] [] []).
    + exact (Hb [] [] [] [] [] [] []).
Defined.

End ToolFacts.

(** ** The handlers on any statement *)

Module HandlerFacts.
Import SchemaAnalyzer Support.

Lemma updateFound_keys (schemaName tableName : string) (f : Table.t -> Table.t)
    (tables : list Table.t) :
  (forall t, tableKey (f t) = tableKey t) ->
  map tableKey (updateFound schemaName tableName f tables) = map tableKey tables.
Proof.
  intros Hf. induction tables as [|t rest IH]; [reflexivity|].
  cbn [updateFound]. destruct (isTable schemaName tableName t); cbn [map].
  - rewrite Hf. reflexivity.
  - rewrite IH. reflexivity.
Qed.

Lemma filter_idem {A : Type} (p : A -> bool) (l : list A) :
  filter p (filter p l) = filter p l.
Proof.
  induction l as [|x l IH]; [reflexivity|].
  cbn [filter]. destruct (p x) eqn:E; [|exact IH].
  cbn [filter]. rewrite E, IH. reflexivity.
Qed.

Ltac handler h :=
  unfold h; destruct (jsMatch _ _ _) as [c|]; cbv zeta;
  [|first [reflexivity | lia]].

(** X29.  An operation works on the collection of its kind only, whatever
    its statement: the tables for the table and column kinds, the indexes,
    views, triggers or policies for the others; every other part of the
    model, enums, functions and extensions included, is left as it is.  The
    collection grows by at most one entry, does not grow under a DROP kind,
    and ADD COLUMN and DROP COLUMN keep the tables and their order. *)
Theorem applyOperation_frame (schema : DatabaseSchema.t) (type : OperationType)
    (sql : string) :
  let after := applyOperation schema (Operation.mk type sql) in
  withoutFamily type after = withoutFamily type schema
  /\ familySize type after <= familySize type schema + 1
  /\ (removes type = true -> familySize type after <= familySize type schema)
  /\ (type = ADD_COLUMN \/ type = DROP_COLUMN ->
      map tableKey (DatabaseSchema.tables after)
      = map tableKey (DatabaseSchema.tables schema)).
Proof.
  cbv zeta. unfold applyOperation. cbn [Operation.type Operation.sql].
  split; [|split; [|split]].
  - destruct type; cbn [withoutFamily].
    + handler applyCreateTable; reflexivity.
    + handler applyDropTable; reflexivity.
    + handler applyAddColumn. destruct (find _ _); reflexivity.
    + handler applyDropColumn. destruct (find _ _); reflexivity.
    + handler applyCreateIndex; reflexivity.
    + handler applyDropIndex; reflexivity.
    + handler applyCreateView; reflexivity.
    + handler applyDropView; reflexivity.
    + handler applyCreateTrigger; reflexivity.
    + handler applyDropTrigger; reflexivity.
    + handler applyCreatePolicy; reflexivity.
    + handler applyDropPolicy; reflexivity.
  - destruct type; cbn [familySize].
    + handler applyCreateTable.
      cbn [DatabaseSchema.setTables DatabaseSchema.tables].
      rewrite length_app. cbn [List.length]. lia.
    + handler applyDropTable.
      cbn [DatabaseSchema.setTables DatabaseSchema.tables].
      pose proof (filter_length_le
                    (fun t => negb (isTable (groupOr 1 c "public") (groupOf 2 c) t))
                    (DatabaseSchema.tables schema)). lia.
    + handler applyAddColumn. destruct (find _ _); [|lia].
      cbn [DatabaseSchema.setTables DatabaseSchema.tables].
      rewrite <- (length_map tableKey), updateFound_keys, length_map by reflexivity.
      lia.
    + handler applyDropColumn. destruct (find _ _); [|lia].
      cbn [DatabaseSchema.setTables DatabaseSchema.tables].
      rewrite <- (length_map tableKey), updateFound_keys, length_map by reflexivity.
      lia.
    + handler applyCreateIndex.
      cbn [DatabaseSchema.setIndexes DatabaseSchema.indexes].
      rewrite length_app. cbn [List.length]. lia.
    + handler applyDropIndex.
      cbn [DatabaseSchema.setIndexes DatabaseSchema.indexes].
      pose proof (filter_length_le
                    (fun i => negb (String.eqb (Index.name i) (groupOf 1 c)))
                    (DatabaseSchema.indexes schema)). lia.
    + handler applyCreateView.
      cbn [DatabaseSchema.setViews DatabaseSchema.views].
      rewrite length_app. cbn [List.length].
      pose proof (filter_length_le
                    (fun v => negb (isView (groupOr 1 c "public") (groupOf 2 c) v))
                    (DatabaseSchema.views schema)). lia.
    + handler applyDropView.
      cbn [DatabaseSchema.setViews DatabaseSchema.views].
      pose proof (filter_length_le
                    (fun v => negb (isView (groupOr 1 c "public") (groupOf 2 c) v))
                    (DatabaseSchema.views schema)). lia.
    + handler applyCreateTrigger.
      cbn [DatabaseSchema.setTriggers DatabaseSchema.triggers].
      rewrite length_app. cbn [List.length]. lia.
    + handler applyDropTrigger.
      cbn [DatabaseSchema.setTriggers DatabaseSchema.triggers].
      pose proof (filter_length_le
                    (fun t => negb (String.eqb (Trigger.name t) (groupOf 1 c)))
                    (DatabaseSchema.triggers schema)). lia.
    + handler applyCreatePolicy.
      cbn [DatabaseSchema.setRlsPolicies DatabaseSchema.rlsPolicies].
      rewrite length_app. cbn [List.length]. lia.
    + handler applyDropPolicy.
      cbn [DatabaseSchema.setRlsPolicies DatabaseSchema.rlsPolicies].
      match goal with
      | |- List.length (filter ?p ?l) <= _ => pose proof (filter_length_le p l)
      end. lia.
  - destruct type; cbn [removes familySize]; try discriminate; intros _.
    + handler applyDropTable.
      cbn [DatabaseSchema.setTables DatabaseSchema.tables]. apply filter_length_le.
    + handler applyDropIndex.
      cbn [DatabaseSchema.setIndexes DatabaseSchema.indexes]. apply filter_length_le.
    + handler applyDropView.
      cbn [DatabaseSchema.setViews DatabaseSchema.views]. apply filter_length_le.
    + handler applyDropTrigger.
      cbn [DatabaseSchema.setTriggers DatabaseSchema.triggers].
      apply filter_length_le.
    + handler applyDropPolicy.
      cbn [DatabaseSchema.setRlsPolicies DatabaseSchema.rlsPolicies].
      apply filter_length_le.
  - intros [->| ->].
    + handler applyAddColumn. destruct (find _ _); [|reflexivity].
      cbn [DatabaseSchema.setTables DatabaseSchema.tables].
      apply updateFound_keys. reflexivity.
    + handler applyDropColumn. destruct (find _ _); [|reflexivity].
      cbn [DatabaseSchema.setTables DatabaseSchema.tables].
      apply updateFound_keys. reflexivity.
Qed.

Lemma updateFound_twice (schemaName tableName : string) (f : Table.t -> Table.t)
    (tables : list Table.t) :
  (forall t, isTable schemaName tableName (f t) = isTable schemaName tableName t) ->
  (forall t, f (f t) = f t) ->
  updateFound schemaName tableName f (updateFound schemaName tableName f tables)
  = updateFound schemaName tableName f tables.
Proof.
  intros Hkey Hf. induction tables as [|t rest IH]; [reflexivity|].
  cbn [updateFound]. destruct (isTable schemaName tableName t) eqn:E;
    cbn [updateFound].
  - rewrite Hkey, E, Hf. reflexivity.
  - rewrite E, IH. reflexivity.
Qed.

Lemma find_updateFound (schemaName tableName : string) (f : Table.t -> Table.t)
    (tables : list Table.t) :
  (forall t, isTable schemaName tableName (f t) = isTable schemaName tableName t) ->
  find (isTable schemaName tableName) tables <> None ->
  find (isTable schemaName tableName) (updateFound schemaName tableName f tables)
  <> None.
Proof.
  intros Hkey. induction tables as [|t rest IH]; [intros H; exact H|].
  cbn [find updateFound]. destruct (isTable schemaName tableName t) eqn:E;
    cbn [find].
  - rewrite Hkey, E. discriminate.
  - rewrite E. exact IH.
Qed.

(** X30.  Applying the same operation a second time changes nothing more
    when its kind is one of the DROP kinds or CREATE VIEW, whatever its
    statement: the removals are complete and a view replaces the view of its
    key. *)
Theorem handlers_idempotent (schema : DatabaseSchema.t) (type : OperationType)
    (sql : string) :
  removes type = true \/ type = DROP_COLUMN \/ type = CREATE_VIEW ->
  let operation := Operation.mk type sql in
  applyOperation (applyOperation schema operation) operation
  = applyOperation schema operation.
Proof.
  intros Hty. cbv zeta. unfold applyOperation. cbn [Operation.type Operation.sql].
  destruct schema as [tables views enums functions extensions indexes triggers
                        rlsPolicies].
  destruct type; cbn [removes] in Hty;
    try (exfalso; destruct Hty as [H|[H|H]]; discriminate); clear Hty.
  - unfold applyDropTable. destruct (jsMatch _ _ _); [|reflexivity]. cbv zeta.
    unfold DatabaseSchema.setTables. cbn. rewrite filter_idem. reflexivity.
  - unfold applyDropColumn. destruct (jsMatch _ _ _) as [c|]; [|reflexivity].
    cbv zeta. cbn [DatabaseSchema.tables].
    set (f := fun table : Table.t =>
                Table.mk (Table.schema table) (Table.name table)
                  (filter (fun col => negb (String.eqb (Column.name col) (groupOf 3 c)))
                     (Table.columns table))
                  (Table.constraints table) (Table.indexes table)).
    assert (Hkey : forall t, isTable (groupOr 1 c "public") (groupOf 2 c) (f t)
                             = isTable (groupOr 1 c "public") (groupOf 2 c) t)
      by reflexivity.
    assert (Hf : forall t, f (f t) = f t).
    { intros t. unfold f. cbn. rewrite filter_idem. reflexivity. }
    destruct (find (isTable (groupOr 1 c "public") (groupOf 2 c)) tables)
      as [t|] eqn:E.
    + unfold DatabaseSchema.setTables. cbn.
      pose proof (find_updateFound _ _ f tables Hkey) as Hfound.
      rewrite E in Hfound.
      destruct (find (isTable (groupOr 1 c "public") (groupOf 2 c))
                  (updateFound (groupOr 1 c "public") (groupOf 2 c) f tables));
        [|exfalso; apply Hfound; [discriminate | reflexivity]].
      rewrite updateFound_twice by assumption. reflexivity.
    + cbn. rewrite E. reflexivity.
  - unfold applyDropIndex. destruct (jsMatch _ _ _); [|reflexivity]. cbv zeta.
    unfold DatabaseSchema.setIndexes. cbn. rewrite filter_idem. reflexivity.
  - unfold applyCreateView. destruct (jsMatch _ _ _) as [c|]; [|reflexivity].
    cbv zeta. unfold DatabaseSchema.setViews. cbn.
    rewrite filter_app, filter_idem. cbn [filter].
    unfold isView at 2. cbn [View.schema View.name].
    rewrite !String.eqb_refl. cbn [andb negb]. rewrite app_nil_r. reflexivity.
  - unfold applyDropView. destruct (jsMatch _ _ _); [|reflexivity]. cbv zeta.
    unfold DatabaseSchema.setViews. cbn. rewrite filter_idem. reflexivity.
  - unfold applyDropTrigger. destruct (jsMatch _ _ _); [|reflexivity]. cbv zeta.
    unfold DatabaseSchema.setTriggers. cbn. rewrite filter_idem. reflexivity.
  - unfold applyDropPolicy. destruct (jsMatch _ _ _); [|reflexivity]. cbv zeta.
    unfold DatabaseSchema.setRlsPolicies. cbn. rewrite filter_idem. reflexivity.
Qed.

Lemma handlers_idempotent_witness :
  applyOperation
    (applyOperation usersSchema (Operation.mk DROP_TABLE "DROP TABLE users"))
    (Operation.mk DROP_TABLE "DROP TABLE users")
  = applyOperation usersSchema (Operation.mk DROP_TABLE "DROP TABLE users").
Proof.
  exact (handlers_idempotent usersSchema DROP_TABLE "DROP TABLE users"
           (or_introl eq_refl)).
Defined.

End HandlerFacts.

(** ** Replay of CREATE INDEX and DROP INDEX *)

Module IndexReplay.
Import SchemaAnalyzer Support RegexFacts StringFacts IndexFacts NameFacts TableFacts
  ColumnReplay TrimFacts.

(** *** Characters up to case *)








(** *** Spelled keywords *)






(** *** Gaps *)






(** *** Names *)


(** *** Optional clauses *)






(** *** DROP INDEX *)


(** *** CREATE INDEX *)





(** *** From the statement to its handler *)
















Lemma indexKey_indexOf (sql n : string) (q : option string) (t : string) :
  indexKey (indexOf sql n q t) = schemaOf q ++ "." ++ t ++ "." ++ n.
Proof. reflexivity. Qed.





End IndexReplay.
